(** * The collection launcher of Velociraptor (services/launcher/launcher.go)

    A shallow embedding of the launcher: compilation of a collection request
    into one client program ([CompileCollectorArgs]), resolution of the tools
    the program needs ([AddToolDependency], [getDependentTools]), the override
    of declared parameters ([AddArtifactCollectorArgs]) and the scheduling of
    the compiled programs ([ScheduleArtifactCollection]).

    Go functions that return [error] and mutate the object behind a pointer
    return here the pair of the error and of the object as the callee left it.
    The repository is an argument of the Go functions and an argument here;
    the inventory and the data store are process-wide services in Go and are
    fields of the [World] that every function threads.  Every call to a
    collaborator is recorded as an [Event], in call order.  Calls to the
    logger are left out. *)

From Stdlib Require Import ZArith List String Ascii Bool Lia.
From stdpp Require Import base option list strings gmap.

Local Open Scope Z_scope.

(** ** Data model *)

(** [errors.New(msg)]: an error is its message. *)
Definition error := string.

(** A float32 is only ever copied by the launcher: it is kept as its bit
    pattern. *)
Definition float32 := Z.

Module VQLEnv.
Record t := mk { Key : string; Value : string }.
End VQLEnv.

Module VQLRequest.
Record t := mk { Name : string; VQL : string }.
End VQLRequest.

(** actions_proto.VQLCollectorArgs, the program sent to a client.  [Env] is
    a slice of pointers in Go; its entries are distinct objects (protobuf
    decoding and the literals of [AddToolDependency] allocate one per entry),
    so an assignment through one entry changes that entry alone and the slice
    is kept as the list of its entries. *)
Module VQLCollectorArgs.
Record t := mk {
  Env : list VQLEnv.t;
  Query : list VQLRequest.t;
  MaxRow : Z;
  OpsPerSecond : float32;
  Timeout : Z;
  Tools : list string }.

Definition with_Env (env : list VQLEnv.t) (a : t) : t :=
  mk env (Query a) (MaxRow a) (OpsPerSecond a) (Timeout a) (Tools a).

(** [a.Env = append(a.Env, e)] *)
Definition append_Env (a : t) (e : VQLEnv.t) : t := with_Env (Env a ++ [e]) a.
End VQLCollectorArgs.

(** artifacts_proto.Tool, the descriptor the inventory keeps for a tool. *)
Module Tool.
Record t := mk {
  Name : string;
  Url : string;
  Hash : string;
  Filename : string;
  FilestorePath : string;
  ServeLocally : bool }.
End Tool.

(** artifacts_proto.Artifact: the launcher reads its name and its tools; the
    sources are what the repository compiles into queries. *)
Module Artifact.
Record t := mk {
  Name : string;
  Sources : list VQLRequest.t;
  Tools : list Tool.t }.
End Artifact.

Module ArtifactParameters.
Record t := mk { Env : list VQLEnv.t }.
End ArtifactParameters.

(** flows_proto.ArtifactCollectorArgs, the request.  [Parameters] is a
    pointer and [CompiledCollectorArgs] a slice, both compared with nil by the
    launcher: [None] is nil, [Some []] an empty slice that is not nil. *)
Module ArtifactCollectorArgs.
Record t := mk {
  ClientId : string;
  Artifacts : list string;
  Parameters : option ArtifactParameters.t;
  AllowCustomOverrides : bool;
  OpsPerSecond : float32;
  Timeout : Z;
  Urgent : bool;
  CompiledCollectorArgs : option (list VQLCollectorArgs.t) }.
End ArtifactCollectorArgs.

Inductive FlowState := RUNNING | TERMINATED | ERROR.

(** flows_proto.ArtifactCollectorContext, the record of a collection. *)
Module ArtifactCollectorContext.
Record t := mk {
  SessionId : string;
  CreateTime : Z;
  State : FlowState;
  Request : ArtifactCollectorArgs.t;
  ClientId : string }.
End ArtifactCollectorContext.

(** crypto_proto.GrrMessage, the task queued for a client. *)
Module GrrMessage.
Record t := mk {
  SessionId : string;
  RequestId : Z;
  VQLClientAction : VQLCollectorArgs.t;
  Urgent : bool }.
End GrrMessage.

(** What [SetSubject] is given to store: the collection context, or the
    api_proto.ApiFlowRequestDetails that lists the queued tasks. *)
Inductive Subject :=
| SubjectContext (c : ArtifactCollectorContext.t)
| SubjectRequestDetails (Items : list GrrMessage.t).

(** The configuration; [config_obj.Client] is a pointer the launcher
    dereferences without a check, a loaded configuration has it set. *)
Module ClientConfig.
Record t := mk { ServerUrls : list string }.
End ClientConfig.

Module Config.
Record t := mk { Client : ClientConfig.t }.
End Config.

(** ** Collaborators *)

(** Modelled from the spec: the interface of the artifact repository
    (package artifacts, which the launcher calls and does not contain).  [Get]
    resolves a name or finds nothing, [CheckAccess] answers for a principal,
    [Compile] merges an artifact into the program it is handed and
    [PopulateArtifactsVQLCollectorArgs] adds the artifacts the program
    depends on; the last two mutate the program and may fail, in which case
    the launcher drops the program.  What the four functions compute is left
    open: a repository is any record of them. *)
Module Repository.
Record t := mk {
  Get : string -> option Artifact.t;
  CheckAccess : Config.t -> Artifact.t -> string -> option error;
  Compile : Artifact.t -> VQLCollectorArgs.t -> VQLCollectorArgs.t + error;
  PopulateArtifactsVQLCollectorArgs :
    VQLCollectorArgs.t -> VQLCollectorArgs.t + error }.
End Repository.

(** Modelled from the spec: the interface of the services the launcher
    reaches through process-wide accessors (packages services, datastore,
    artifacts, paths and constants, none of them part of the launcher), over
    the state [I] of the inventory, [D] of the data store and [O] of the
    operating system (clock and random source).  [GetToolInfo] reads the
    inventory; [AddTool], [SetSubject] and [QueueMessageForClient] change
    their state and may fail.  What they compute, the two paths of a flow
    and the two constants are left open: the launcher is stated over any
    record of them. *)
Record Services (I D O : Type) := mkServices {
  GetToolInfo : Config.t -> string -> I -> Tool.t + error;
  AddTool : Config.t -> Tool.t -> I -> option error * I;
  GetDB : Config.t -> option error;
  SetSubject : Config.t -> string -> Subject -> D -> option error * D;
  QueueMessageForClient :
    Config.t -> string -> GrrMessage.t -> D -> option error * D;
  Obfuscate :
    Config.t -> VQLCollectorArgs.t -> option error * VQLCollectorArgs.t;
  FlowPath : string -> string -> string;
  FlowTaskPath : string -> string -> string;
  ProcessVQLResponses : Z;
  FLOW_PREFIX : string;
  time_Now : O -> Z * O;
  rand_Read : nat -> O -> list Z * O }.

Arguments GetToolInfo {I D O}.
Arguments AddTool {I D O}.
Arguments GetDB {I D O}.
Arguments SetSubject {I D O}.
Arguments QueueMessageForClient {I D O}.
Arguments Obfuscate {I D O}.
Arguments FlowPath {I D O}.
Arguments FlowTaskPath {I D O}.
Arguments ProcessVQLResponses {I D O}.
Arguments FLOW_PREFIX {I D O}.
Arguments time_Now {I D O}.
Arguments rand_Read {I D O}.

(** The state of the process: the services' states and the package variable
    [NextFlowIdForTests]. *)
Record World (I D O : Type) := mkWorld {
  inventory : I;
  datastore : D;
  os : O;
  NextFlowIdForTests : string }.

Arguments mkWorld {I D O}.
Arguments inventory {I D O}.
Arguments datastore {I D O}.
Arguments os {I D O}.
Arguments NextFlowIdForTests {I D O}.

(** One event per call to a collaborator; the data store events carry
    whether the call succeeded. *)
Inductive Event :=
| RepoGet (name : string)
| RepoCheckAccess (artifact : Artifact.t) (principal : string)
| RepoCompile (artifact : Artifact.t)
| RepoPopulate
| InvGetToolInfo (name : string)
| InvAddTool (tool : Tool.t)
| ArtifactsObfuscate
| DbGet
| DbSetSubject (path : string) (subject : Subject) (ok : bool)
| DbQueue (client_id : string) (task : GrrMessage.t) (ok : bool).

(** ** Bytes and base 32 *)

Definition uint32 (z : Z) : Z := z mod 2 ^ 32.
Definition uint64 (z : Z) : Z := z mod 2 ^ 64.

(** [binary.BigEndian.PutUint32(buf, v)] on a buffer of at least 4 bytes. *)
Definition PutUint32 (buf : list Z) (v : Z) : list Z :=
  [Z.shiftr v 24 mod 256; Z.shiftr v 16 mod 256; Z.shiftr v 8 mod 256;
   v mod 256] ++ drop 4 buf.

(** The alphabet of [base32.HexEncoding]. *)
Definition encodeHex : string := "0123456789ABCDEFGHIJKLMNOPQRSTUV".

Definition byte_bits (b : Z) : list bool :=
  map (fun i => Z.testbit b (Z.of_nat i)) [7; 6; 5; 4; 3; 2; 1; 0]%nat.

Fixpoint bits_value (bits : list bool) (acc : Z) : Z :=
  match bits with
  | [] => acc
  | b :: rest => bits_value rest (2 * acc + (if b then 1 else 0))
  end.

(** The 5-bit groups of a bit string, the last one filled with zero bits. *)
Fixpoint quintets (fuel : nat) (bits : list bool) : list Z :=
  match fuel, bits with
  | O, _ | _, [] => []
  | S fuel, _ =>
      bits_value (take 5 (bits ++ replicate 5 false)) 0
      :: quintets fuel (drop 5 bits)
  end.

Definition quintet_char (v : Z) : ascii :=
  match String.get (Z.to_nat v) encodeHex with
  | Some c => c
  | None => "="%char
  end.

(** [base32.HexEncoding.EncodeToString], with its padding to whole groups of
    8 characters. *)
Definition EncodeToString (src : list Z) : string :=
  let bits := flat_map byte_bits src in
  let chars := map quintet_char (quintets (length bits) bits) in
  let padded := ((length chars + 7) / 8 * 8)%nat in
  string_of_list_ascii
    (chars ++ replicate (padded - length chars)%nat "="%char).

(** ** The monad: state of the world and log of the calls *)

Definition M (W A : Type) : Type := W -> A * list Event * W.

Definition ret {W A} (a : A) : M W A := fun w => (a, [], w).

Definition bind {W A B} (m : M W A) (f : A -> M W B) : M W B :=
  fun w =>
    let '(a, evs1, w1) := m w in
    let '(b, evs2, w2) := f a w1 in
    (b, evs1 ++ evs2, w2).

Declare Scope launcher_scope.
Delimit Scope launcher_scope with launcher.
Notation "'let*' x ':=' m 'in' k" := (bind m (fun x => k))
  (at level 10, x pattern, m at level 100, k at level 200) : launcher_scope.
Local Open Scope launcher_scope.

Definition result_of {W A} (r : A * list Event * W) : A := r.1.1.
Definition events_of {W A} (r : A * list Event * W) : list Event := r.1.2.
Definition world_of {W A} (r : A * list Event * W) : W := r.2.

Definition ok (err : option error) : bool :=
  match err with None => true | Some _ => false end.

Section Launcher.
Context {I D O : Type} (svc : Services I D O).

Abbreviation W := (World I D O).

(** *** Calls to the services *)

Definition inv_GetToolInfo (config_obj : Config.t) (name : string)
  : M W (Tool.t + error) :=
  fun w =>
    (GetToolInfo svc config_obj name (inventory w), [InvGetToolInfo name], w).

Definition inv_AddTool (config_obj : Config.t) (tool : Tool.t)
  : M W (option error) :=
  fun w =>
    let '(err, i) := AddTool svc config_obj tool (inventory w) in
    (err, [InvAddTool tool],
     mkWorld i (datastore w) (os w) (NextFlowIdForTests w)).

(** *** Tool resolver *)

Definition tool_key (name suffix : string) : string :=
  "Tool_" +:+ name +:+ suffix.

Definition AddToolDependency (config_obj : Config.t) (tool : string)
    (vql_collector_args : VQLCollectorArgs.t)
  : M W (option error * VQLCollectorArgs.t) :=
  let* r := inv_GetToolInfo config_obj tool in
  match r with
  | inr err => ret (Some err, vql_collector_args)
  | inl tool_info =>
      let args := VQLCollectorArgs.append_Env vql_collector_args
        (VQLEnv.mk (tool_key (Tool.Name tool_info) "_HASH")
                   (Tool.Hash tool_info)) in
      let args := VQLCollectorArgs.append_Env args
        (VQLEnv.mk (tool_key (Tool.Name tool_info) "_FILENAME")
                   (Tool.Filename tool_info)) in
      match ClientConfig.ServerUrls (Config.Client config_obj) with
      | [] => ret (Some "No server URLs configured!"%string, args)
      | url0 :: _ =>
          (* Where to download the binary from. *)
          let url := url0 +:+ "public/" +:+ Tool.FilestorePath tool_info in
          let url :=
            if negb (Tool.ServeLocally tool_info)
               && negb (String.eqb (Tool.Url tool_info) "")
            then Tool.Url tool_info else url in
          ret (None,
               VQLCollectorArgs.append_Env args
                 (VQLEnv.mk (tool_key (Tool.Name tool_info) "_URL") url))
      end
  end.

(** The loop of [getDependentTools] over [vql_collector_args.Tools]; the
    logger call is not modelled. *)
Fixpoint getDependentTools_loop (config_obj : Config.t) (tools : list string)
    (vql_collector_args : VQLCollectorArgs.t)
  : M W (option error * VQLCollectorArgs.t) :=
  match tools with
  | [] => ret (None, vql_collector_args)
  | tool :: rest =>
      let* (err, args) :=
        AddToolDependency config_obj tool vql_collector_args in
      match err with
      | Some e => ret (Some e, args)
      | None => getDependentTools_loop config_obj rest args
      end
  end.

Definition getDependentTools (config_obj : Config.t)
    (vql_collector_args : VQLCollectorArgs.t)
  : M W (option error * VQLCollectorArgs.t) :=
  getDependentTools_loop config_obj
    (VQLCollectorArgs.Tools vql_collector_args) vql_collector_args.

(** *** Compiler *)

Definition repo_Get (repository : Repository.t) (name : string)
  : M W (option Artifact.t) :=
  fun w => (Repository.Get repository name, [RepoGet name], w).

Definition repo_CheckAccess (repository : Repository.t) (config_obj : Config.t)
    (artifact : Artifact.t) (principal : string) : M W (option error) :=
  fun w => (Repository.CheckAccess repository config_obj artifact principal,
            [RepoCheckAccess artifact principal], w).

Definition repo_Compile (repository : Repository.t) (artifact : Artifact.t)
    (vql_collector_args : VQLCollectorArgs.t)
  : M W (VQLCollectorArgs.t + error) :=
  fun w => (Repository.Compile repository artifact vql_collector_args,
            [RepoCompile artifact], w).

Definition repo_Populate (repository : Repository.t)
    (vql_collector_args : VQLCollectorArgs.t)
  : M W (VQLCollectorArgs.t + error) :=
  fun w => (Repository.PopulateArtifactsVQLCollectorArgs repository
              vql_collector_args, [RepoPopulate], w).

Definition artifacts_Obfuscate (config_obj : Config.t)
    (vql_collector_args : VQLCollectorArgs.t)
  : M W (option error * VQLCollectorArgs.t) :=
  fun w =>
    (Obfuscate svc config_obj vql_collector_args, [ArtifactsObfuscate], w).

(** Make sure we know about tools the artifact itself defines: the loop
    over [artifact.Tools]. *)
Fixpoint EnsureToolsDeclared_loop (config_obj : Config.t) (tools : list Tool.t)
  : M W (option error) :=
  match tools with
  | [] => ret None
  | tool :: rest =>
      let* r := inv_GetToolInfo config_obj (Tool.Name tool) in
      match r with
      | inl _ => EnsureToolsDeclared_loop config_obj rest
      | inr _ =>
          (* Add tool info if it is not known but do not override
             existing tool. *)
          let* err := inv_AddTool config_obj tool in
          match err with
          | Some e => ret (Some e)
          | None => EnsureToolsDeclared_loop config_obj rest
          end
      end
  end.

Definition EnsureToolsDeclared (config_obj : Config.t) (artifact : Artifact.t)
  : M W (option error) :=
  EnsureToolsDeclared_loop config_obj (Artifact.Tools artifact).

(** We do not expect too many parameters so linear search is appropriate.
    [replace_parameter] is the loop: [Some] of the environment when an entry
    had the key and the function returned from inside the loop, [None] when
    the loop ran to its end. *)
Fixpoint replace_parameter (param : VQLEnv.t) (env : list VQLEnv.t)
  : option (list VQLEnv.t) :=
  match env with
  | [] => None
  | item :: rest =>
      if String.eqb (VQLEnv.Key item) (VQLEnv.Key param)
      then Some (VQLEnv.mk (VQLEnv.Key item) (VQLEnv.Value param) :: rest)
      else option_map (cons item) (replace_parameter param rest)
  end.

(** The environment the caller sees after the call.  [env = append(env,
    param)] assigns the callee's own slice header: the caller's slice keeps
    its length, so the entry is not part of it. *)
Definition addOrReplaceParameter (param : VQLEnv.t) (env : list VQLEnv.t)
  : list VQLEnv.t :=
  match replace_parameter param env with
  | Some replaced => replaced
  | None => let _env := env ++ [param] in env
  end.

Fixpoint AddArtifactCollectorArgs_loop (items : list VQLEnv.t)
    (env : list VQLEnv.t) : list VQLEnv.t :=
  match items with
  | [] => env
  | item :: rest =>
      AddArtifactCollectorArgs_loop rest (addOrReplaceParameter item env)
  end.

(** Adds any parameters set in the ArtifactCollectorArgs into the
    VQLCollectorArgs. *)
Definition AddArtifactCollectorArgs (config_obj : Config.t)
    (vql_collector_args : VQLCollectorArgs.t)
    (collector_request : ArtifactCollectorArgs.t)
  : option error * VQLCollectorArgs.t :=
  match ArtifactCollectorArgs.Parameters collector_request with
  | None => (None, vql_collector_args)
  | Some parameters =>
      (* We can only specify a parameter which is defined already *)
      (None,
       VQLCollectorArgs.with_Env
         (AddArtifactCollectorArgs_loop (ArtifactParameters.Env parameters)
            (VQLCollectorArgs.Env vql_collector_args))
         vql_collector_args)
  end.

(** Lines 51 to 58: the artifact a name stands for. *)
Definition lookup_artifact (repository : Repository.t)
    (collector_request : ArtifactCollectorArgs.t) (name : string)
  : M W (option Artifact.t) :=
  let* artifact :=
    if ArtifactCollectorArgs.AllowCustomOverrides collector_request
    then repo_Get repository ("Custom." +:+ name)
    else ret None in
  match artifact with
  | Some artifact => ret (Some artifact)
  | None => repo_Get repository name
  end.

(** What the body of the loop does with the artifact once found. *)
Definition compile_found (config_obj : Config.t) (principal : string)
    (repository : Repository.t) (artifact : Artifact.t)
    (vql_collector_args : VQLCollectorArgs.t)
  : M W (VQLCollectorArgs.t + error) :=
  let* err := repo_CheckAccess repository config_obj artifact principal in
  match err with
  | Some e => ret (inr e)
  | None =>
      let* r := repo_Compile repository artifact vql_collector_args in
      match r with
      | inr e => ret (inr e)
      | inl args =>
          let* err := EnsureToolsDeclared config_obj artifact in
          match err with
          | Some e => ret (inr e)
          | None => ret (inl args)
          end
      end
  end.

(** One turn of the loop over [collector_request.Artifacts]: the program as
    the turn leaves it, or the error the function returns with. *)
Definition compile_artifact (config_obj : Config.t) (principal : string)
    (repository : Repository.t) (collector_request : ArtifactCollectorArgs.t)
    (name : string) (vql_collector_args : VQLCollectorArgs.t)
  : M W (VQLCollectorArgs.t + error) :=
  let* artifact := lookup_artifact repository collector_request name in
  match artifact with
  | None => ret (inr ("Unknown artifact " +:+ name))
  | Some artifact =>
      compile_found config_obj principal repository artifact vql_collector_args
  end.

Fixpoint compile_artifacts (config_obj : Config.t) (principal : string)
    (repository : Repository.t) (collector_request : ArtifactCollectorArgs.t)
    (names : list string) (vql_collector_args : VQLCollectorArgs.t)
  : M W (VQLCollectorArgs.t + error) :=
  match names with
  | [] => ret (inl vql_collector_args)
  | name :: rest =>
      let* r := compile_artifact config_obj principal repository
                  collector_request name vql_collector_args in
      match r with
      | inr e => ret (inr e)
      | inl args =>
          compile_artifacts config_obj principal repository collector_request
            rest args
      end
  end.

(** The two shapes of what [CompileCollectorArgs] returns: [return nil, err]
    and the final [return vql_collector_args, err]. *)
Inductive Compiled :=
| CompiledNil (err : error)
| CompiledArgs (vql_collector_args : VQLCollectorArgs.t) (err : option error).

Definition CompileCollectorArgs (config_obj : Config.t) (principal : string)
    (repository : Repository.t) (collector_request : ArtifactCollectorArgs.t)
  : M W Compiled :=
  (* Update the flow's artifacts list. *)
  let vql_collector_args :=
    VQLCollectorArgs.mk [] []
      1000
      (ArtifactCollectorArgs.OpsPerSecond collector_request)
      (ArtifactCollectorArgs.Timeout collector_request)
      [] in
  let* r := compile_artifacts config_obj principal repository collector_request
              (ArtifactCollectorArgs.Artifacts collector_request)
              vql_collector_args in
  match r with
  | inr e => ret (CompiledNil e)
  | inl args =>
      (* Add any artifact dependencies. *)
      let* r := repo_Populate repository args in
      match r with
      | inr e => ret (CompiledNil e)
      | inl args =>
          let (err, args) :=
            AddArtifactCollectorArgs config_obj args collector_request in
          match err with
          | Some e => ret (CompiledNil e)
          | None =>
              let* (err, args) := getDependentTools config_obj args in
              match err with
              | Some e => ret (CompiledNil e)
              | None =>
                  let* (err, args) := artifacts_Obfuscate config_obj args in
                  ret (CompiledArgs args err)
              end
          end
      end
  end.

(** *** Identifier generator *)

Definition os_time_Now : M W Z :=
  fun w =>
    let '(nanos, o) := time_Now svc (os w) in
    (nanos, [], mkWorld (inventory w) (datastore w) o (NextFlowIdForTests w)).

Definition os_rand_Read (n : nat) : M W (list Z) :=
  fun w =>
    let '(bytes, o) := rand_Read svc n (os w) in
    (take n (map (fun b => b mod 256) bytes ++ replicate n 0), [],
     mkWorld (inventory w) (datastore w) o (NextFlowIdForTests w)).

Definition set_NextFlowIdForTests (id : string) : M W unit :=
  fun w => (tt, [], mkWorld (inventory w) (datastore w) (os w) id).

Definition get_NextFlowIdForTests : M W string :=
  fun w => (NextFlowIdForTests w, [], w).

Definition SetFlowIdForTests (id : string) : M W unit :=
  set_NextFlowIdForTests id.

Definition NewFlowId (client_id : string) : M W string :=
  let* next := get_NextFlowIdForTests in
  if negb (String.eqb next "")
  then
    let result := next in
    let* _ := set_NextFlowIdForTests "" in
    ret result
  else
    let* buf := os_rand_Read 8 in
    let* now := os_time_Now in
    let buf := PutUint32 buf (uint32 (now / 1000000000)) in
    let result := String.substring 0 13 (EncodeToString buf) in
    ret (FLOW_PREFIX svc +:+ result).

(** *** Scheduler *)

Definition db_GetDB (config_obj : Config.t) : M W (option error) :=
  fun w => (GetDB svc config_obj, [DbGet], w).

Definition db_SetSubject (config_obj : Config.t) (path : string)
    (subject : Subject) : M W (option error) :=
  fun w =>
    let '(err, d) := SetSubject svc config_obj path subject (datastore w) in
    (err, [DbSetSubject path subject (ok err)],
     mkWorld (inventory w) d (os w) (NextFlowIdForTests w)).

Definition db_QueueMessageForClient (config_obj : Config.t)
    (client_id : string) (task : GrrMessage.t) : M W (option error) :=
  fun w =>
    let '(err, d) :=
      QueueMessageForClient svc config_obj client_id task (datastore w) in
    (err, [DbQueue client_id task (ok err)],
     mkWorld (inventory w) d (os w) (NextFlowIdForTests w)).

(** The task we will schedule for the client. *)
Definition new_task (collector_request : ArtifactCollectorArgs.t)
    (session_id : string) (arg : VQLCollectorArgs.t) : GrrMessage.t :=
  GrrMessage.mk session_id (ProcessVQLResponses svc) arg
    (* Send an urgent request to the client. *)
    (if ArtifactCollectorArgs.Urgent collector_request then true else false).

(** The loop over [vql_collector_args]: the error it returns with, if any,
    and [tasks] as it stands then. *)
Fixpoint queue_tasks (config_obj : Config.t)
    (collector_request : ArtifactCollectorArgs.t)
    (client_id session_id : string)
    (vql_collector_args : list VQLCollectorArgs.t) (tasks : list GrrMessage.t)
  : M W (option error * list GrrMessage.t) :=
  match vql_collector_args with
  | [] => ret (None, tasks)
  | arg :: rest =>
      let task := new_task collector_request session_id arg in
      let* err := db_QueueMessageForClient config_obj client_id task in
      match err with
      | Some e => ret (Some e, tasks)
      | None =>
          queue_tasks config_obj collector_request client_id session_id rest
            (tasks ++ [task])
      end
  end.

(** Generate a new collection context. *)
Definition new_collection_context (collector_request : ArtifactCollectorArgs.t)
    (client_id : string) : M W ArtifactCollectorContext.t :=
  let* session_id := NewFlowId client_id in
  let* now := os_time_Now in
  ret (ArtifactCollectorContext.mk session_id
         (uint64 (Z.quot now 1000)) RUNNING collector_request client_id).

Definition ScheduleArtifactCollectionFromCollectorArgs (config_obj : Config.t)
    (collector_request : ArtifactCollectorArgs.t)
    (vql_collector_args : list VQLCollectorArgs.t)
  : M W (string * option error) :=
  let client_id := ArtifactCollectorArgs.ClientId collector_request in
  if String.eqb client_id ""
  then ret (""%string, Some "Client id not provided."%string)
  else
    let* collection_context :=
      new_collection_context collector_request client_id in
    let session_id := ArtifactCollectorContext.SessionId collection_context in
    let* err := db_GetDB config_obj in
    match err with
    | Some e => ret (""%string, Some e)
    | None =>
        (* Save the collection context. *)
        let* err := db_SetSubject config_obj
                      (FlowPath svc client_id session_id)
                      (SubjectContext collection_context) in
        match err with
        | Some e => ret (""%string, Some e)
        | None =>
            let* (err, tasks) :=
              queue_tasks config_obj collector_request client_id session_id
                vql_collector_args [] in
            match err with
            | Some e => ret (""%string, Some e)
            | None =>
                (* Record the tasks for provenance of what we actually did. *)
                let* err := db_SetSubject config_obj
                              (FlowTaskPath svc client_id session_id)
                              (SubjectRequestDetails tasks) in
                match err with
                | Some e => ret (""%string, Some e)
                | None => ret (session_id, None)
                end
            end
        end
    end.

Definition ScheduleArtifactCollection (config_obj : Config.t)
    (principal : string) (repository : Repository.t)
    (collector_request : ArtifactCollectorArgs.t)
  : M W (string * option error) :=
  match ArtifactCollectorArgs.CompiledCollectorArgs collector_request with
  | Some args =>
      ScheduleArtifactCollectionFromCollectorArgs config_obj collector_request
        args
  | None =>
      (* Compile and cache the compilation for next time just in case this
         request is reused. *)
      let* compiled := CompileCollectorArgs config_obj principal repository
                         collector_request in
      match compiled with
      | CompiledNil e => ret (""%string, Some e)
      | CompiledArgs _ (Some e) => ret (""%string, Some e)
      | CompiledArgs compiled None =>
          ScheduleArtifactCollectionFromCollectorArgs config_obj
            collector_request ([] ++ [compiled])
      end
  end.

End Launcher.

(** ** Readings of a run *)


Definition is_inventory_event (e : Event) : bool :=
  match e with InvGetToolInfo _ | InvAddTool _ => true | _ => false end.

Definition is_datastore_event (e : Event) : bool :=
  match e with
  | DbGet | DbSetSubject _ _ _ | DbQueue _ _ _ => true
  | _ => false
  end.

(** The tools handed to [AddTool], in order. *)
Definition registered (evs : list Event) : list Tool.t :=
  flat_map (fun e => match e with InvAddTool t => [t] | _ => [] end) evs.

(** The tasks the queue accepted, in order. *)
Definition enqueued (evs : list Event) : list GrrMessage.t :=
  flat_map (fun e => match e with DbQueue _ t true => [t] | _ => [] end) evs.

(** The tasks handed to the queue, accepted or not. *)
Definition queue_calls (evs : list Event) : list GrrMessage.t :=
  flat_map (fun e => match e with DbQueue _ t _ => [t] | _ => [] end) evs.

(** The artifacts handed to [repository.Compile], in order. *)
Definition compiled_artifacts (evs : list Event) : list Artifact.t :=
  flat_map (fun e => match e with RepoCompile a => [a] | _ => [] end) evs.

(** The artifact a name of the request stands for, as lines 51 to 58 find
    it. *)
Definition resolve (repository : Repository.t)
    (collector_request : ArtifactCollectorArgs.t) (name : string)
  : option Artifact.t :=
  match (if ArtifactCollectorArgs.AllowCustomOverrides collector_request
         then Repository.Get repository ("Custom." +:+ name) else None) with
  | Some artifact => Some artifact
  | None => Repository.Get repository name
  end.

(** The calls to [repository.Get] that finding the artifact of a name
    takes. *)
Definition lookup_calls (repository : Repository.t)
    (collector_request : ArtifactCollectorArgs.t) (name : string)
  : list Event :=
  if ArtifactCollectorArgs.AllowCustomOverrides collector_request
  then match Repository.Get repository ("Custom." +:+ name) with
       | Some _ => [RepoGet ("Custom." +:+ name)]
       | None => [RepoGet ("Custom." +:+ name); RepoGet name]
       end
  else [RepoGet name].

(** The program [CompileCollectorArgs] starts from. *)
Definition new_args (collector_request : ArtifactCollectorArgs.t)
  : VQLCollectorArgs.t :=
  VQLCollectorArgs.mk [] [] 1000
    (ArtifactCollectorArgs.OpsPerSecond collector_request)
    (ArtifactCollectorArgs.Timeout collector_request) [].

(** The first part of [CompileCollectorArgs], up to the overrides of the
    request: the program before the tools are resolved. *)
Definition merged_program {I D O : Type} (svc : Services I D O)
    (config_obj : Config.t) (principal : string) (repository : Repository.t)
    (collector_request : ArtifactCollectorArgs.t)
  : M (World I D O) (VQLCollectorArgs.t + error) :=
  let* r := compile_artifacts svc config_obj principal repository
              collector_request
              (ArtifactCollectorArgs.Artifacts collector_request)
              (new_args collector_request) in
  match r with
  | inr e => ret (inr e)
  | inl args =>
      let* r := repo_Populate repository args in
      match r with
      | inr e => ret (inr e)
      | inl args =>
          let (err, args) :=
            AddArtifactCollectorArgs config_obj args collector_request in
          match err with
          | Some e => ret (inr e)
          | None => ret (inl args)
          end
      end
  end.

(** The three entries of a tool whose descriptor is [tool_info], served from
    [url0] unless the descriptor says otherwise. *)
Definition tool_url (url0 : string) (tool_info : Tool.t) : string :=
  if negb (Tool.ServeLocally tool_info)
     && negb (String.eqb (Tool.Url tool_info) "")
  then Tool.Url tool_info
  else url0 +:+ "public/" +:+ Tool.FilestorePath tool_info.


(** The entries [AddToolDependency] appends for the tool named [tool] when
    the inventory [i] has its descriptor and [url0] is the first server
    URL. *)
Definition tool_entries {I D O : Type} (svc : Services I D O)
    (config_obj : Config.t) (url0 : string) (i : I) (tool : string)
  : list VQLEnv.t :=
  match GetToolInfo svc config_obj tool i with
  | inl tool_info =>
      [VQLEnv.mk ("Tool_" +:+ Tool.Name tool_info +:+ "_HASH")
         (Tool.Hash tool_info);
       VQLEnv.mk ("Tool_" +:+ Tool.Name tool_info +:+ "_FILENAME")
         (Tool.Filename tool_info);
       VQLEnv.mk ("Tool_" +:+ Tool.Name tool_info +:+ "_URL")
         (tool_url url0 tool_info)]
  | inr _ => []
  end.

(** Sessions are stored before their tasks are queued: whenever a task is
    handed to the queue, the data store has accepted, earlier in the run, the
    collection context of the task's session and client at the path of that
    session; and when the data store refuses a collection context, no task is
    handed to the queue at all. *)
Definition session_stored_first {I D O : Type} (svc : Services I D O)
    (evs : list Event) : Prop :=
  (forall pre client_id task ok post,
     evs = pre ++ DbQueue client_id task ok :: post ->
     exists ctx,
       In (DbSetSubject
             (FlowPath svc client_id (GrrMessage.SessionId task))
             (SubjectContext ctx) true) pre
       /\ ArtifactCollectorContext.SessionId ctx = GrrMessage.SessionId task
       /\ ArtifactCollectorContext.ClientId ctx = client_id)
  /\ ((exists path ctx,
         In (DbSetSubject path (SubjectContext ctx) false) evs) ->
      queue_calls evs = []).

(** ** Footprints

    [inventory_blind m]: [m] neither reads nor writes the inventory.
    [inventory_only m]: of the world, [m] reads and writes the inventory
    only.  [emits_only P m]: every event of [m] satisfies [P]. *)

Definition set_inventory {I D O : Type} (i : I) (w : World I D O)
  : World I D O :=
  mkWorld i (datastore w) (os w) (NextFlowIdForTests w).

Definition inventory_blind {I D O A : Type} (m : M (World I D O) A) : Prop :=
  forall (w : World I D O) (i : I),
    m (set_inventory i w) =
    let '(a, evs, w') := m w in (a, evs, set_inventory i w').

Definition inventory_only {I D O A : Type} (m : M (World I D O) A) : Prop :=
  forall (w : World I D O) (d : D) (o : O) (next : string),
    m (mkWorld (inventory w) d o next) =
    let '(a, evs, w') := m w in (a, evs, mkWorld (inventory w') d o next).

Definition emits_only {W A : Type} (P : Event -> bool) (m : M W A) : Prop :=
  forall w : W, forallb P (events_of (m w)) = true.

Definition not_datastore_event (e : Event) : bool :=
  negb (is_datastore_event e).

(** Both footprints of a compiler function at once. *)
Definition compiler_footprint {I D O A : Type} (m : M (World I D O) A)
  : Prop :=
  inventory_only m /\ emits_only not_datastore_event m.

(** ** An instance of the collaborators, in memory

    The inventory is a map from tool names to descriptors, the data store a
    map of subjects and a queue with room for a number of writes, the clock
    a counter of nanoseconds.  The constants and paths are sample values. *)
Module InMemory.

Record Store := mkStore {
  subjects : gmap string Subject;
  queue : list (string * GrrMessage.t);
  room : nat }.

Definition write (d : Store) (f : Store -> Store) : option error * Store :=
  match room d with
  | O => (Some "no space left on device"%string, d)
  | S n => let d' := f d in (None, mkStore (subjects d') (queue d') n)
  end.

Definition services : Services (gmap string Tool.t) Store Z :=
  {| GetToolInfo := fun _ name (i : gmap string Tool.t) =>
       match i !! name with
       | Some tool => inl tool
       | None => inr "Tool not found"%string
       end;
     AddTool := fun _ tool (i : gmap string Tool.t) =>
       (None, <[Tool.Name tool := tool]> i);
     GetDB := fun _ => None;
     SetSubject := fun _ path subject d =>
       write d (fun d =>
                  mkStore (<[path := subject]> (subjects d)) (queue d)
                    (room d));
     QueueMessageForClient := fun _ client_id task d =>
       write d (fun d =>
                  mkStore (subjects d) (queue d ++ [(client_id, task)])
                    (room d));
     Obfuscate := fun _ args => (None, args);
     FlowPath := fun client_id session_id =>
       "/clients/" +:+ client_id +:+ "/collections/" +:+ session_id;
     FlowTaskPath := fun client_id session_id =>
       "/clients/" +:+ client_id +:+ "/collections/" +:+ session_id +:+ "/task";
     ProcessVQLResponses := 1;
     FLOW_PREFIX := "F.";
     time_Now := fun nanos => (nanos, nanos + 1);
     rand_Read := fun n nanos => (replicate n (nanos mod 251), nanos) |}.

(** A repository over a map of artifacts; the principals in [denied] have no
    access; compiling appends the artifact's sources to the queries and the
    names of its tools to the tools of the program. *)
Definition repository (artifacts : gmap string Artifact.t)
    (denied : list string) : Repository.t :=
  {| Repository.Get := fun name => artifacts !! name;
     Repository.CheckAccess := fun _ _ principal =>
       if existsb (String.eqb principal) denied
       then Some "Permission denied"%string else None;
     Repository.Compile := fun artifact args =>
       inl (VQLCollectorArgs.mk
              (VQLCollectorArgs.Env args)
              (VQLCollectorArgs.Query args ++ Artifact.Sources artifact)
              (VQLCollectorArgs.MaxRow args)
              (VQLCollectorArgs.OpsPerSecond args)
              (VQLCollectorArgs.Timeout args)
              (VQLCollectorArgs.Tools args
               ++ map Tool.Name (Artifact.Tools artifact)));
     Repository.PopulateArtifactsVQLCollectorArgs := fun args => inl args |}.

Definition world (i : gmap string Tool.t) (room : nat) (next : string)
  : World (gmap string Tool.t) Store Z :=
  mkWorld i (mkStore ∅ [] room) 1600000000123456789 next.

Definition config (urls : list string) : Config.t :=
  Config.mk (ClientConfig.mk urls).

Definition request (client_id : string) (names : list string)
    (parameters : option ArtifactParameters.t) (custom urgent : bool)
    (compiled : option (list VQLCollectorArgs.t)) : ArtifactCollectorArgs.t :=
  ArtifactCollectorArgs.mk client_id names parameters custom 0 600 urgent
    compiled.

Definition tool (name url : string) (serve_locally : bool) : Tool.t :=
  Tool.mk name url ("sha256:" +:+ name) (name +:+ ".exe")
    ("tools/" +:+ name) serve_locally.

End InMemory.

(** ** Sample data over the instance in memory *)
Module Sample.

(** A tool served from the server's own file store, and one fetched from
    its vendor. *)
Definition T : Tool.t := InMemory.tool "T" "" true.
Definition V : Tool.t := InMemory.tool "V" "https://vendor.example/v.exe" false.

Definition Known : Artifact.t :=
  Artifact.mk "Known" [VQLRequest.mk "Known" "SELECT * FROM info()"] [T].
Definition A : Artifact.t :=
  Artifact.mk "A" [VQLRequest.mk "A" "SELECT * FROM pslist()"] [T].
Definition B : Artifact.t :=
  Artifact.mk "B" [VQLRequest.mk "B" "SELECT * FROM netstat()"] [T].
Definition X : Artifact.t :=
  Artifact.mk "X" [VQLRequest.mk "X" "SELECT 1 FROM scope()"] [].
Definition CustomX : Artifact.t :=
  Artifact.mk "Custom.X" [VQLRequest.mk "Custom.X" "SELECT 2 FROM scope()"] [].

Definition artifacts : gmap string Artifact.t :=
  list_to_map
    [("Known"%string, Known); ("A"%string, A); ("B"%string, B);
     ("X"%string, X); ("Custom.X"%string, CustomX)].

(** The principal "guest" has access to nothing. *)
Definition repository : Repository.t :=
  InMemory.repository artifacts ["guest"%string].

Definition config : Config.t :=
  InMemory.config ["https://velociraptor.example:8000/"%string].

Definition config_without_urls : Config.t := InMemory.config [].

(** An inventory that knows both tools, and one that knows none. *)
Definition tools : gmap string Tool.t :=
  list_to_map [("T"%string, T); ("V"%string, V)].

Definition request (names : list string) : ArtifactCollectorArgs.t :=
  InMemory.request "C.1234" names None true true None.

(** A program compiled earlier and a request that carries it. *)
Definition program : VQLCollectorArgs.t :=
  VQLCollectorArgs.mk [VQLEnv.mk "Glob" "/etc/*"]
    [VQLRequest.mk "A" "SELECT * FROM pslist()"] 1000 0 600 [].

Definition request_with_program : ArtifactCollectorArgs.t :=
  InMemory.request "C.1234" ["A"%string] None true false (Some [program]).

Definition request_without_client : ArtifactCollectorArgs.t :=
  InMemory.request "" ["A"%string] None true false None.

Definition env : list VQLEnv.t :=
  [VQLEnv.mk "Glob" "/etc/*"; VQLEnv.mk "Depth" "2"; VQLEnv.mk "Glob" "/tmp/*"].

End Sample.

(** ** Readings for the further properties *)

(** The resource limits of a program. *)
Definition limits (args : VQLCollectorArgs.t) : Z * float32 * Z :=
  (VQLCollectorArgs.MaxRow args, VQLCollectorArgs.OpsPerSecond args,
   VQLCollectorArgs.Timeout args).

(** An entry after the overrides [items] were applied in order, when it is
    the only entry with its key: its value is that of the last override with
    its key, if there is one. *)
Definition override_entry (items : list VQLEnv.t) (e : VQLEnv.t) : VQLEnv.t :=
  match find (fun item => String.eqb (VQLEnv.Key e) (VQLEnv.Key item))
             (rev items) with
  | Some item => VQLEnv.mk (VQLEnv.Key e) (VQLEnv.Value item)
  | None => e
  end.

(** [datastore_only m]: of the world, [m] changes the data store at most. *)
Definition datastore_only {I D O A : Type} (m : M (World I D O) A) : Prop :=
  forall w : World I D O,
    inventory (world_of (m w)) = inventory w
    /\ os (world_of (m w)) = os w
    /\ NextFlowIdForTests (world_of (m w)) = NextFlowIdForTests w.

(** A character of the alphabet of [base32.HexEncoding]. *)
Definition is_hex32 (c : ascii) : bool :=
  existsb (Ascii.eqb c) (list_ascii_of_string encodeHex).

(** The 8 bytes [NewFlowId] encodes when no identifier is set for tests and
    the operating system is in state [o]: what [rand.Read] put in the buffer,
    its first four bytes overwritten with the seconds of [time.Now]. *)
Definition fresh_buffer {I D O : Type} (svc : Services I D O) (o : O)
  : list Z :=
  let '(bytes, o1) := rand_Read svc 8 o in
  let '(now, _) := time_Now svc o1 in
  PutUint32 (take 8 (map (fun b => b mod 256) bytes ++ replicate 8 0))
    (uint32 (now / 1000000000)).

(** The seconds [NewFlowId] reads then, as the uint32 it keeps of them. *)
Definition creation_second {I D O : Type} (svc : Services I D O) (o : O) : Z :=
  uint32 ((time_Now svc (rand_Read svc 8 o).2).1 / 1000000000).

(** The services in memory with an inventory that accepts no registration. *)
Definition read_only_services
  : Services (gmap string Tool.t) InMemory.Store Z :=
  {| GetToolInfo := GetToolInfo InMemory.services;
     AddTool := fun _ _ (i : gmap string Tool.t) =>
       (Some "inventory is read only"%string, i);
     GetDB := GetDB InMemory.services;
     SetSubject := SetSubject InMemory.services;
     QueueMessageForClient := QueueMessageForClient InMemory.services;
     Obfuscate := Obfuscate InMemory.services;
     FlowPath := FlowPath InMemory.services;
     FlowTaskPath := FlowTaskPath InMemory.services;
     ProcessVQLResponses := ProcessVQLResponses InMemory.services;
     FLOW_PREFIX := FLOW_PREFIX InMemory.services;
     time_Now := time_Now InMemory.services;
     rand_Read := rand_Read InMemory.services |}.

(** The tool "T" as an administrator registered it, fetched from a mirror. *)
Definition T_of_admin : Tool.t :=
  InMemory.tool "T" "https://mirror.example/t.exe" false.

(** A program that needs three tools, the second of them unknown to the
    sample inventory. *)
Definition program_with_tools : VQLCollectorArgs.t :=
  VQLCollectorArgs.mk [VQLEnv.mk "Glob" "/etc/*"] [] 1000 0 600
    ["T"; "U"; "V"]%string.

(** A request whose overrides name "Glob" twice and a key no program has. *)
Definition request_with_overrides : ArtifactCollectorArgs.t :=
  InMemory.request "C.1234" ["A"%string]
    (Some (ArtifactParameters.mk
             [VQLEnv.mk "Glob" "/home/*"; VQLEnv.mk "Upload" "Y";
              VQLEnv.mk "Glob" "/srv/*"]))
    true false None.

Definition program_with_parameters : VQLCollectorArgs.t :=
  VQLCollectorArgs.mk [VQLEnv.mk "Glob" "/etc/*"; VQLEnv.mk "Depth" "2"]
    [] 1000 0 600 [].

(** [earlier_key env i k]: one of the [i] first entries of [env] has the
    key [k]. *)
Definition earlier_key (env : list VQLEnv.t) (i : nat) (k : string) : bool :=
  existsb (fun e => String.eqb (VQLEnv.Key e) k) (firstn i env).

(** [CompileCollectorArgs] from a turn of its loop on: lines 50 to 98 with
    the names [names] still to be handled and the program as the turns
    before left it. *)
Definition CompileCollectorArgs_from {I D O : Type} (svc : Services I D O)
    (config_obj : Config.t) (principal : string) (repository : Repository.t)
    (collector_request : ArtifactCollectorArgs.t) (names : list string)
    (vql_collector_args : VQLCollectorArgs.t) : M (World I D O) Compiled :=
  let* r := compile_artifacts svc config_obj principal repository
              collector_request names vql_collector_args in
  match r with
  | inr e => ret (CompiledNil e)
  | inl args =>
      let* r := repo_Populate repository args in
      match r with
      | inr e => ret (CompiledNil e)
      | inl args =>
          let (err, args) :=
            AddArtifactCollectorArgs config_obj args collector_request in
          match err with
          | Some e => ret (CompiledNil e)
          | None =>
              let* (err, args) := getDependentTools svc config_obj args in
              match err with
              | Some e => ret (CompiledNil e)
              | None =>
                  let* (err, args) := artifacts_Obfuscate svc config_obj args in
                  ret (CompiledArgs args err)
              end
          end
      end
  end.

(** * Properties *)

Section Properties.
Context {I D O : Type} (svc : Services I D O).

Abbreviation W := (World I D O).

(** ** The monad *)

Lemma bind_run {A B : Type} (m : M W A) (f : A -> M W B) (w : W) :
  bind m f w =
  let '(a, evs1, w1) := m w in
  let '(b, evs2, w2) := f a w1 in (b, evs1 ++ evs2, w2).
Proof. reflexivity. Qed.

Lemma bind_ret_run {A B : Type} (a : A) (f : A -> M W B) (w : W) :
  bind (ret a) f w = f a w.
Proof.
  unfold bind, ret. destruct (f a w) as [[b evs] w']. reflexivity.
Qed.

(** ** Tool resolver *)

Lemma AddToolDependency_run (config_obj : Config.t) (tool : string)
    (args : VQLCollectorArgs.t) (w : W) :
  AddToolDependency svc config_obj tool args w =
  (match GetToolInfo svc config_obj tool (inventory w) with
   | inr err => (Some err, args)
   | inl tool_info =>
       let with_names :=
         VQLCollectorArgs.Env args
         ++ [VQLEnv.mk ("Tool_" +:+ Tool.Name tool_info +:+ "_HASH")
               (Tool.Hash tool_info);
             VQLEnv.mk ("Tool_" +:+ Tool.Name tool_info +:+ "_FILENAME")
               (Tool.Filename tool_info)] in
       match ClientConfig.ServerUrls (Config.Client config_obj) with
       | [] =>
           (Some "No server URLs configured!"%string,
            VQLCollectorArgs.with_Env with_names args)
       | url0 :: _ =>
           (None,
            VQLCollectorArgs.with_Env
              (with_names
               ++ [VQLEnv.mk ("Tool_" +:+ Tool.Name tool_info +:+ "_URL")
                     (tool_url url0 tool_info)]) args)
       end
   end, [InvGetToolInfo tool], w).
Proof.
  unfold AddToolDependency, bind, inv_GetToolInfo, ret, tool_key, tool_url,
    VQLCollectorArgs.append_Env, VQLCollectorArgs.with_Env.
  destruct (GetToolInfo svc config_obj tool (inventory w)) as [tool_info|err];
    [|reflexivity].
  destruct (ClientConfig.ServerUrls (Config.Client config_obj)) as [|url0 urls];
    cbn [VQLCollectorArgs.Env VQLCollectorArgs.Query VQLCollectorArgs.MaxRow
         VQLCollectorArgs.OpsPerSecond VQLCollectorArgs.Timeout
         VQLCollectorArgs.Tools];
    rewrite <- ?app_assoc; reflexivity.
Qed.

(** C6. When the inventory has the tool's descriptor and a server URL is
    configured, [AddToolDependency] succeeds and appends the HASH, FILENAME
    and URL entries; the value of the URL entry is the descriptor's own URL
    when the descriptor is not served locally and its URL is not empty, and
    otherwise the first server URL followed by "public/" and the descriptor's
    filestore path. *)
Theorem AddToolDependency_url_selection (config_obj : Config.t) (tool : string)
    (args : VQLCollectorArgs.t) (w : W) (tool_info : Tool.t)
    (url0 : string) (urls : list string) :
  GetToolInfo svc config_obj tool (inventory w) = inl tool_info ->
  ClientConfig.ServerUrls (Config.Client config_obj) = url0 :: urls ->
  exists url : string,
    AddToolDependency svc config_obj tool args w =
    ((None,
      VQLCollectorArgs.with_Env
        (VQLCollectorArgs.Env args
         ++ [VQLEnv.mk ("Tool_" +:+ Tool.Name tool_info +:+ "_HASH")
               (Tool.Hash tool_info);
             VQLEnv.mk ("Tool_" +:+ Tool.Name tool_info +:+ "_FILENAME")
               (Tool.Filename tool_info);
             VQLEnv.mk ("Tool_" +:+ Tool.Name tool_info +:+ "_URL") url])
        args),
     [InvGetToolInfo tool], w)
    /\ (Tool.ServeLocally tool_info = false ->
        Tool.Url tool_info <> ""%string -> url = Tool.Url tool_info)
    /\ (Tool.ServeLocally tool_info = true \/ Tool.Url tool_info = ""%string ->
        url = url0 +:+ "public/" +:+ Tool.FilestorePath tool_info).
Proof.
  intros Hinfo Hurls. exists (tool_url url0 tool_info).
  rewrite AddToolDependency_run, Hinfo, Hurls. cbv zeta.
  rewrite <- app_assoc. split; [reflexivity|].
  unfold tool_url. split.
  - intros Hserve Hurl. rewrite Hserve.
    apply String.eqb_neq in Hurl. rewrite Hurl. reflexivity.
  - intros [Hserve|Hurl].
    + rewrite Hserve. reflexivity.
    + rewrite Hurl, String.eqb_refl, andb_false_r. reflexivity.
Qed.

(** C10. When the inventory has the tool's descriptor and no server URL is
    configured, [AddToolDependency] returns the error "No server URLs
    configured!" and the program it was handed has the tool's HASH and
    FILENAME entries appended to its environment: the program is not left as
    it was. *)
Theorem AddToolDependency_no_server_urls (config_obj : Config.t) (tool : string)
    (args : VQLCollectorArgs.t) (w : W) (tool_info : Tool.t) :
  GetToolInfo svc config_obj tool (inventory w) = inl tool_info ->
  ClientConfig.ServerUrls (Config.Client config_obj) = [] ->
  AddToolDependency svc config_obj tool args w =
  ((Some "No server URLs configured!"%string,
    VQLCollectorArgs.with_Env
      (VQLCollectorArgs.Env args
       ++ [VQLEnv.mk ("Tool_" +:+ Tool.Name tool_info +:+ "_HASH")
             (Tool.Hash tool_info);
           VQLEnv.mk ("Tool_" +:+ Tool.Name tool_info +:+ "_FILENAME")
             (Tool.Filename tool_info)])
      args),
   [InvGetToolInfo tool], w)
  /\ (result_of (AddToolDependency svc config_obj tool args w)).2 <> args.
Proof.
  intros Hinfo Hurls.
  rewrite AddToolDependency_run, Hinfo, Hurls. cbv zeta.
  split; [reflexivity|].
  unfold result_of. cbn [fst snd]. intros Heq.
  apply (f_equal (fun a => length (VQLCollectorArgs.Env a))) in Heq.
  cbn in Heq. rewrite length_app in Heq. cbn in Heq. lia.
Qed.

(** ** Parameter overrides *)

Lemma addOrReplaceParameter_nil (param : VQLEnv.t) :
  addOrReplaceParameter param [] = [].
Proof. reflexivity. Qed.

Lemma addOrReplaceParameter_cons (param item : VQLEnv.t)
    (rest : list VQLEnv.t) :
  addOrReplaceParameter param (item :: rest) =
  if String.eqb (VQLEnv.Key item) (VQLEnv.Key param)
  then VQLEnv.mk (VQLEnv.Key item) (VQLEnv.Value param) :: rest
  else item :: addOrReplaceParameter param rest.
Proof.
  unfold addOrReplaceParameter. cbn [replace_parameter].
  destruct (String.eqb (VQLEnv.Key item) (VQLEnv.Key param)); [reflexivity|].
  destruct (replace_parameter param rest); reflexivity.
Qed.

Lemma addOrReplaceParameter_absent (param : VQLEnv.t) (env : list VQLEnv.t) :
  (forall e, In e env -> VQLEnv.Key e <> VQLEnv.Key param) ->
  addOrReplaceParameter param env = env.
Proof.
  induction env as [|item rest IH]; intros Habsent; [reflexivity|].
  rewrite addOrReplaceParameter_cons.
  destruct (String.eqb_spec (VQLEnv.Key item) (VQLEnv.Key param)) as [Heq|_].
  - exfalso. apply (Habsent item); [left; reflexivity | exact Heq].
  - f_equal. apply IH. intros e He. apply Habsent. right. exact He.
Qed.

Lemma addOrReplaceParameter_first (param item : VQLEnv.t)
    (pre post : list VQLEnv.t) :
  VQLEnv.Key item = VQLEnv.Key param ->
  (forall e, In e pre -> VQLEnv.Key e <> VQLEnv.Key param) ->
  addOrReplaceParameter param (pre ++ item :: post) =
  pre ++ VQLEnv.mk (VQLEnv.Key param) (VQLEnv.Value param) :: post.
Proof.
  intros Hkey. induction pre as [|e pre IH]; intros Hpre; cbn [app].
  - rewrite addOrReplaceParameter_cons, Hkey, String.eqb_refl. reflexivity.
  - rewrite addOrReplaceParameter_cons.
    destruct (String.eqb_spec (VQLEnv.Key e) (VQLEnv.Key param)) as [Heq|_].
    + exfalso. apply (Hpre e); [left; reflexivity | exact Heq].
    + f_equal. apply IH. intros e' He'. apply Hpre. right. exact He'.
Qed.

Lemma addOrReplaceParameter_keys (param : VQLEnv.t) (env : list VQLEnv.t) :
  map VQLEnv.Key (addOrReplaceParameter param env) = map VQLEnv.Key env.
Proof.
  induction env as [|item rest IH]; [reflexivity|].
  rewrite addOrReplaceParameter_cons.
  destruct (String.eqb (VQLEnv.Key item) (VQLEnv.Key param)); cbn [map].
  - reflexivity.
  - rewrite IH. reflexivity.
Qed.

Lemma AddArtifactCollectorArgs_loop_keys (items env : list VQLEnv.t) :
  map VQLEnv.Key (AddArtifactCollectorArgs_loop items env) = map VQLEnv.Key env.
Proof.
  revert env. induction items as [|item rest IH]; intros env; cbn.
  - reflexivity.
  - rewrite IH. apply addOrReplaceParameter_keys.
Qed.

Lemma AddArtifactCollectorArgs_loop_absent (items env : list VQLEnv.t) :
  (forall item e, In item items -> In e env ->
                  VQLEnv.Key e <> VQLEnv.Key item) ->
  AddArtifactCollectorArgs_loop items env = env.
Proof.
  induction items as [|item rest IH]; intros Habsent; cbn; [reflexivity|].
  rewrite addOrReplaceParameter_absent.
  - apply IH. intros item' e Hitem He. apply Habsent; [right|]; assumption.
  - intros e He. apply Habsent; [left; reflexivity | exact He].
Qed.

Lemma with_Env_same (args : VQLCollectorArgs.t) :
  VQLCollectorArgs.with_Env (VQLCollectorArgs.Env args) args = args.
Proof. destruct args. reflexivity. Qed.

Lemma AddArtifactCollectorArgs_loop_snoc (items : list VQLEnv.t)
    (item : VQLEnv.t) (env : list VQLEnv.t) :
  AddArtifactCollectorArgs_loop (items ++ [item]) env =
  addOrReplaceParameter item (AddArtifactCollectorArgs_loop items env).
Proof.
  revert env. induction items as [|i items IH]; intros env; [reflexivity|].
  cbn [app AddArtifactCollectorArgs_loop]. apply IH.
Qed.

Lemma AddArtifactCollectorArgs_loop_app (items1 items2 env : list VQLEnv.t) :
  AddArtifactCollectorArgs_loop (items1 ++ items2) env =
  AddArtifactCollectorArgs_loop items2
    (AddArtifactCollectorArgs_loop items1 env).
Proof.
  revert env. induction items1 as [|i items1 IH]; intros env; [reflexivity|].
  cbn [app AddArtifactCollectorArgs_loop]. apply IH.
Qed.

Lemma override_entry_key (items : list VQLEnv.t) (e : VQLEnv.t) :
  VQLEnv.Key (override_entry items e) = VQLEnv.Key e.
Proof.
  unfold override_entry.
  destruct (find _ (rev items)); reflexivity.
Qed.

Lemma override_entry_snoc (items : list VQLEnv.t) (item e : VQLEnv.t) :
  override_entry (items ++ [item]) e =
  if String.eqb (VQLEnv.Key e) (VQLEnv.Key item)
  then VQLEnv.mk (VQLEnv.Key e) (VQLEnv.Value item)
  else override_entry items e.
Proof.
  unfold override_entry. rewrite rev_unit. cbn [find].
  destruct (String.eqb (VQLEnv.Key e) (VQLEnv.Key item)); reflexivity.
Qed.

(** The last override with the key of an entry gives the entry its
    value. *)
Lemma override_entry_last (before after : list VQLEnv.t) (item e : VQLEnv.t) :
  VQLEnv.Key item = VQLEnv.Key e ->
  (forall o, In o after -> VQLEnv.Key o <> VQLEnv.Key e) ->
  override_entry (before ++ item :: after) e =
  VQLEnv.mk (VQLEnv.Key e) (VQLEnv.Value item).
Proof.
  intros Hkey. induction after as [|o after IH] using rev_ind; intros Hafter.
  - rewrite override_entry_snoc, Hkey, String.eqb_refl. reflexivity.
  - rewrite app_comm_cons, app_assoc, override_entry_snoc.
    destruct (String.eqb_spec (VQLEnv.Key e) (VQLEnv.Key o)) as [Heq|_].
    + exfalso. apply (Hafter o); [|congruence].
      apply in_or_app. right. left. reflexivity.
    + apply IH. intros o' Ho'. apply Hafter, in_or_app. left. exact Ho'.
Qed.

Lemma earlier_key_keys (env env' : list VQLEnv.t) (i : nat) (k : string) :
  map VQLEnv.Key env' = map VQLEnv.Key env ->
  earlier_key env' i k = earlier_key env i k.
Proof.
  intros Hkeys. unfold earlier_key.
  assert (Hmap : forall l,
             existsb (fun e => String.eqb (VQLEnv.Key e) k) l =
             existsb (fun key => String.eqb key k) (map VQLEnv.Key l)).
  { induction l as [|e l IH]; cbn; [|rewrite IH]; reflexivity. }
  rewrite !Hmap, <- !firstn_map, Hkeys. reflexivity.
Qed.

Lemma earlier_key_first (pre post : list VQLEnv.t) (k : string) :
  (forall e, In e pre -> VQLEnv.Key e <> k) ->
  earlier_key (pre ++ post) (length pre) k = false.
Proof.
  intros Hpre. unfold earlier_key.
  rewrite firstn_app, Nat.sub_diag, firstn_all, firstn_0, app_nil_r.
  induction pre as [|e pre IH]; [reflexivity|]. cbn [existsb].
  destruct (String.eqb_spec (VQLEnv.Key e) k) as [Heq|_].
  - exfalso. apply (Hpre e); [left; reflexivity | exact Heq].
  - apply IH. intros e' He'. apply Hpre. right. exact He'.
Qed.

(** One override, entry by entry: the first entry with the key of the
    override takes its value, every other entry is left as it is. *)
Lemma addOrReplaceParameter_nth (param : VQLEnv.t) (env : list VQLEnv.t)
    (i : nat) (e : VQLEnv.t) :
  nth_error env i = Some e ->
  nth_error (addOrReplaceParameter param env) i =
  Some (if earlier_key env i (VQLEnv.Key param) then e
        else if String.eqb (VQLEnv.Key e) (VQLEnv.Key param)
             then VQLEnv.mk (VQLEnv.Key e) (VQLEnv.Value param)
             else e).
Proof.
  revert i. induction env as [|item rest IH]; intros [|i]; cbn [nth_error];
    try discriminate.
  - intros [= ->]. rewrite addOrReplaceParameter_cons.
    unfold earlier_key. cbn [firstn existsb].
    destruct (String.eqb (VQLEnv.Key e) (VQLEnv.Key param)); reflexivity.
  - intros Hnth. rewrite addOrReplaceParameter_cons.
    unfold earlier_key. cbn [firstn existsb].
    destruct (String.eqb (VQLEnv.Key item) (VQLEnv.Key param));
      cbn [orb nth_error]; [exact Hnth|].
    apply IH, Hnth.
Qed.

(** All the overrides, entry by entry: the first entry with a key takes the
    value of the last override with that key; an entry that comes after
    another with its key, or whose key no override has, is left as it
    is. *)
Lemma AddArtifactCollectorArgs_loop_nth (items env : list VQLEnv.t) (i : nat)
    (e : VQLEnv.t) :
  nth_error env i = Some e ->
  nth_error (AddArtifactCollectorArgs_loop items env) i =
  Some (if earlier_key env i (VQLEnv.Key e) then e
        else override_entry items e).
Proof.
  intros Hnth. induction items as [|item items IH] using rev_ind.
  - cbn [AddArtifactCollectorArgs_loop]. rewrite Hnth.
    destruct (earlier_key env i (VQLEnv.Key e)); reflexivity.
  - rewrite AddArtifactCollectorArgs_loop_snoc.
    rewrite (addOrReplaceParameter_nth _ _ _ _ IH).
    rewrite (earlier_key_keys env)
      by apply AddArtifactCollectorArgs_loop_keys.
    rewrite override_entry_snoc. f_equal.
    destruct (earlier_key env i (VQLEnv.Key e)) eqn:Hearlier.
    + destruct (String.eqb_spec (VQLEnv.Key e) (VQLEnv.Key item)) as [<-|_].
      * rewrite Hearlier. reflexivity.
      * destruct (earlier_key env i (VQLEnv.Key item)); reflexivity.
    + rewrite override_entry_key.
      destruct (String.eqb_spec (VQLEnv.Key e) (VQLEnv.Key item)) as [<-|_].
      * rewrite Hearlier. reflexivity.
      * destruct (earlier_key env i (VQLEnv.Key item)); reflexivity.
Qed.

(** C4. An override whose key is the key of an entry of the environment
    replaces the value of the first such entry, in place; an override whose
    key is the key of no entry leaves the environment as it is.  The keys of
    the environment, in order, are the same after any override, and so after
    all the overrides of a request, which never fail; when no override of the
    request names a key of the program, the program is unchanged.

    For the overrides of a request, [AddArtifactCollectorArgs] changes the
    environment of the program and nothing else, and the environment entry
    by entry: the first entry with a key has, after the call, the value of
    the last override of the request with that key; an entry that comes
    after another with its key, or whose key no override has, is left as it
    is.  So an override pair whose key the program has is written into the
    entry that is there, and an override pair whose key the program does
    not have is dropped: the call gives what it gives for the request
    without that pair. *)
Theorem override_replaces_declared_keys_only (param : VQLEnv.t)
    (env : list VQLEnv.t) :
  (forall pre item post,
     env = pre ++ item :: post ->
     VQLEnv.Key item = VQLEnv.Key param ->
     (forall e, In e pre -> VQLEnv.Key e <> VQLEnv.Key param) ->
     addOrReplaceParameter param env =
     pre ++ VQLEnv.mk (VQLEnv.Key item) (VQLEnv.Value param) :: post)
  /\ ((forall e, In e env -> VQLEnv.Key e <> VQLEnv.Key param) ->
      addOrReplaceParameter param env = env)
  /\ map VQLEnv.Key (addOrReplaceParameter param env) = map VQLEnv.Key env
  /\ (forall config_obj args collector_request,
        let r := AddArtifactCollectorArgs config_obj args collector_request in
        r.1 = None
        /\ map VQLEnv.Key (VQLCollectorArgs.Env r.2) =
           map VQLEnv.Key (VQLCollectorArgs.Env args)
        /\ (forall parameters,
              ArtifactCollectorArgs.Parameters collector_request =
                Some parameters ->
              (forall item e,
                 In item (ArtifactParameters.Env parameters) ->
                 In e (VQLCollectorArgs.Env args) ->
                 VQLEnv.Key e <> VQLEnv.Key item) ->
              r.2 = args))
  /\ (forall config_obj args collector_request,
        let r := AddArtifactCollectorArgs config_obj args collector_request in
        VQLCollectorArgs.with_Env (VQLCollectorArgs.Env args) r.2 = args
        /\ (ArtifactCollectorArgs.Parameters collector_request = None ->
            r.2 = args)
        /\ (forall parameters,
              ArtifactCollectorArgs.Parameters collector_request =
                Some parameters ->
              let overrides := ArtifactParameters.Env parameters in
              (forall i e,
                 nth_error (VQLCollectorArgs.Env args) i = Some e ->
                 nth_error (VQLCollectorArgs.Env r.2) i =
                 Some (if earlier_key (VQLCollectorArgs.Env args) i
                            (VQLEnv.Key e)
                       then e else override_entry overrides e))
              /\ (forall pre e post before item after,
                    VQLCollectorArgs.Env args = pre ++ e :: post ->
                    (forall e', In e' pre -> VQLEnv.Key e' <> VQLEnv.Key e) ->
                    overrides = before ++ item :: after ->
                    VQLEnv.Key item = VQLEnv.Key e ->
                    (forall o, In o after -> VQLEnv.Key o <> VQLEnv.Key e) ->
                    nth_error (VQLCollectorArgs.Env r.2) (length pre) =
                    Some (VQLEnv.mk (VQLEnv.Key e) (VQLEnv.Value item)))
              /\ (forall before item after collector_request' parameters',
                    overrides = before ++ item :: after ->
                    (forall e, In e (VQLCollectorArgs.Env args) ->
                               VQLEnv.Key e <> VQLEnv.Key item) ->
                    ArtifactCollectorArgs.Parameters collector_request' =
                      Some parameters' ->
                    ArtifactParameters.Env parameters' = before ++ after ->
                    r.2 =
                    (AddArtifactCollectorArgs config_obj args
                       collector_request').2))).
Proof.
  split; [|split; [|split; [|split]]].
  - intros pre item post -> Hkey Hpre. rewrite Hkey.
    apply addOrReplaceParameter_first; assumption.
  - apply addOrReplaceParameter_absent.
  - apply addOrReplaceParameter_keys.
  - intros config_obj args collector_request r. subst r.
    unfold AddArtifactCollectorArgs.
    destruct (ArtifactCollectorArgs.Parameters collector_request)
      as [parameters|]; cbn [fst snd].
    + split; [reflexivity|]. split.
      * destruct args. cbn. apply AddArtifactCollectorArgs_loop_keys.
      * intros parameters' [= <-] Habsent.
        rewrite AddArtifactCollectorArgs_loop_absent by exact Habsent.
        apply with_Env_same.
    + split; [reflexivity|]. split; [reflexivity|]. intros ? [=].
  - intros config_obj args collector_request r. subst r.
    unfold AddArtifactCollectorArgs.
    destruct (ArtifactCollectorArgs.Parameters collector_request)
      as [parameters|]; cbn [fst snd].
    2:{ split; [apply with_Env_same|]. split; [reflexivity|]. intros ? [=]. }
    split; [destruct args; reflexivity|]. split; [discriminate|].
    intros parameters' [= <-]. cbv zeta.
    assert (Henv : forall env',
               VQLCollectorArgs.Env (VQLCollectorArgs.with_Env env' args) =
               env') by (intros; destruct args; reflexivity).
    rewrite Henv. split; [|split].
    + intros i e. apply AddArtifactCollectorArgs_loop_nth.
    + intros pre e post before item after Hargs Hpre -> Hkey Hafter.
      rewrite (AddArtifactCollectorArgs_loop_nth _ _ (length pre) e).
      * rewrite Hargs, earlier_key_first by exact Hpre.
        rewrite override_entry_last by assumption. reflexivity.
      * rewrite Hargs, nth_error_app2, Nat.sub_diag by lia. reflexivity.
    + intros before item after collector_request' parameters' -> Habsent
        -> ->.
      cbn [snd]. f_equal.
      rewrite !AddArtifactCollectorArgs_loop_app.
      cbn [AddArtifactCollectorArgs_loop].
      rewrite (addOrReplaceParameter_absent item); [reflexivity|].
      intros e He.
      apply (in_map VQLEnv.Key) in He.
      rewrite AddArtifactCollectorArgs_loop_keys in He.
      apply in_map_iff in He as (e' & <- & He'). apply Habsent, He'.
Qed.

(** C8. Applying an override to an environment to which the same override
    was already applied changes nothing: the environment after two
    applications is the environment after one. *)
Theorem addOrReplaceParameter_idempotent (param : VQLEnv.t)
    (env : list VQLEnv.t) :
  addOrReplaceParameter param (addOrReplaceParameter param env) =
  addOrReplaceParameter param env.
Proof.
  induction env as [|item rest IH]; [reflexivity|].
  rewrite addOrReplaceParameter_cons.
  destruct (String.eqb (VQLEnv.Key item) (VQLEnv.Key param)) eqn:Hkey.
  - rewrite addOrReplaceParameter_cons. cbn [VQLEnv.Key].
    rewrite Hkey. reflexivity.
  - rewrite addOrReplaceParameter_cons, Hkey, IH. reflexivity.
Qed.

(** ** Footprints of the launcher's functions *)

Create HintDb footprint discriminated.



Lemma inventory_only_ret {A : Type} (a : A) :
  inventory_only (ret a : M W A).
Proof. intros w d o next. reflexivity. Qed.

Lemma inventory_only_bind {A B : Type} (m : M W A) (f : A -> M W B) :
  inventory_only m -> (forall a, inventory_only (f a)) ->
  inventory_only (bind m f).
Proof.
  intros Hm Hf w d o next. unfold bind. rewrite Hm.
  destruct (m w) as [[a evs1] w1]. specialize (Hf a w1 d o next).
  cbn [inventory] in Hf. rewrite Hf.
  destruct (f a w1) as [[b evs2] w2]. reflexivity.
Qed.

Lemma emits_only_ret {A : Type} (P : Event -> bool) (a : A) :
  emits_only P (ret a : M W A).
Proof. intros w. reflexivity. Qed.

Lemma emits_only_bind {A B : Type} (P : Event -> bool) (m : M W A)
    (f : A -> M W B) :
  emits_only P m -> (forall a, emits_only P (f a)) -> emits_only P (bind m f).
Proof.
  intros Hm Hf w. unfold bind. specialize (Hm w).
  destruct (m w) as [[a evs1] w1]. specialize (Hf a w1).
  destruct (f a w1) as [[b evs2] w2]. unfold events_of in *. cbn in *.
  rewrite forallb_app, Hm, Hf. reflexivity.
Qed.

(** One step through a function written in the monad: a [bind], a [ret], or
    the case analysis of an error check. *)
Ltac footprint_step ret_lemma bind_lemma :=
  first
    [ solve [auto with footprint]
    | apply ret_lemma
    | apply bind_lemma; [|intros ?]
    | match goal with
      | |- _ (match ?x with _ => _ end) => destruct x
      end ].

Ltac footprint ret_lemma bind_lemma :=
  repeat footprint_step ret_lemma bind_lemma.

(** The scheduler does not look at the inventory. *)

Lemma db_GetDB_blind config_obj : inventory_blind (db_GetDB svc config_obj).
Proof. intros w i. reflexivity. Qed.

Lemma db_SetSubject_blind config_obj path subject :
  inventory_blind (db_SetSubject svc config_obj path subject).
Proof.
  intros w i. unfold db_SetSubject, set_inventory. cbn.
  destruct (SetSubject svc config_obj path subject (datastore w)).
  reflexivity.
Qed.

Lemma db_QueueMessageForClient_blind config_obj client_id task :
  inventory_blind (db_QueueMessageForClient svc config_obj client_id task).
Proof.
  intros w i. unfold db_QueueMessageForClient, set_inventory. cbn.
  destruct (QueueMessageForClient svc config_obj client_id task (datastore w)).
  reflexivity.
Qed.

Lemma os_time_Now_blind : inventory_blind (os_time_Now svc).
Proof.
  intros w i. unfold os_time_Now, set_inventory. cbn.
  destruct (time_Now svc (os w)). reflexivity.
Qed.

Lemma os_rand_Read_blind n : inventory_blind (os_rand_Read svc n).
Proof.
  intros w i. unfold os_rand_Read, set_inventory. cbn.
  destruct (rand_Read svc n (os w)). reflexivity.
Qed.

Lemma get_NextFlowIdForTests_blind :
  inventory_blind (get_NextFlowIdForTests : M W string).
Proof. intros w i. reflexivity. Qed.

Lemma set_NextFlowIdForTests_blind id :
  inventory_blind (set_NextFlowIdForTests id : M W unit).
Proof. intros w i. reflexivity. Qed.

Hint Resolve db_GetDB_blind db_SetSubject_blind db_QueueMessageForClient_blind
  os_time_Now_blind os_rand_Read_blind get_NextFlowIdForTests_blind
  set_NextFlowIdForTests_blind : footprint.





(** The scheduler calls the data store only. *)

Ltac primitive_events :=
  intros w;
  unfold db_GetDB, db_SetSubject, db_QueueMessageForClient, os_time_Now,
    os_rand_Read, get_NextFlowIdForTests, set_NextFlowIdForTests,
    inv_GetToolInfo, inv_AddTool, repo_Get, repo_CheckAccess, repo_Compile,
    repo_Populate, artifacts_Obfuscate, events_of;
  repeat match goal with
         | |- context [let '(_, _) := ?x in _] => destruct x
         end;
  reflexivity.

Lemma db_GetDB_events config_obj :
  emits_only is_datastore_event (db_GetDB svc config_obj).
Proof. primitive_events. Qed.

Lemma db_SetSubject_events config_obj path subject :
  emits_only is_datastore_event (db_SetSubject svc config_obj path subject).
Proof. primitive_events. Qed.

Lemma db_QueueMessageForClient_events config_obj client_id task :
  emits_only is_datastore_event
    (db_QueueMessageForClient svc config_obj client_id task).
Proof. primitive_events. Qed.

Lemma os_time_Now_events P : emits_only P (os_time_Now svc).
Proof. primitive_events. Qed.

Lemma os_rand_Read_events P n : emits_only P (os_rand_Read svc n).
Proof. primitive_events. Qed.

Lemma get_NextFlowIdForTests_events P :
  emits_only P (get_NextFlowIdForTests : M W string).
Proof. primitive_events. Qed.

Lemma set_NextFlowIdForTests_events P id :
  emits_only P (set_NextFlowIdForTests id : M W unit).
Proof. primitive_events. Qed.

Hint Resolve db_GetDB_events db_SetSubject_events
  db_QueueMessageForClient_events os_time_Now_events os_rand_Read_events
  get_NextFlowIdForTests_events set_NextFlowIdForTests_events : footprint.

Lemma NewFlowId_events P client_id : emits_only P (NewFlowId svc client_id).
Proof.
  unfold NewFlowId. footprint @emits_only_ret @emits_only_bind.
Qed.

Lemma new_collection_context_events P collector_request client_id :
  emits_only P (new_collection_context svc collector_request client_id).
Proof.
  unfold new_collection_context. pose proof NewFlowId_events.
  footprint @emits_only_ret @emits_only_bind.
Qed.

Lemma queue_tasks_events config_obj collector_request client_id session_id
    args tasks :
  emits_only is_datastore_event
    (queue_tasks svc config_obj collector_request client_id session_id
       args tasks).
Proof.
  revert tasks. induction args as [|arg rest IH]; intros tasks;
    cbn [queue_tasks]; footprint @emits_only_ret @emits_only_bind.
Qed.


(** The compiler touches the inventory only and never calls the data
    store. *)

Lemma inv_GetToolInfo_only config_obj name :
  inventory_only (inv_GetToolInfo svc config_obj name).
Proof. intros w d o next. reflexivity. Qed.

Lemma inv_AddTool_only config_obj tool :
  inventory_only (inv_AddTool svc config_obj tool).
Proof.
  intros w d o next. unfold inv_AddTool. cbn.
  destruct (AddTool svc config_obj tool (inventory w)). reflexivity.
Qed.

Lemma repo_Get_only repository name :
  inventory_only (repo_Get repository name : M W _).
Proof. intros w d o next. reflexivity. Qed.

Lemma repo_CheckAccess_only repository config_obj artifact principal :
  inventory_only
    (repo_CheckAccess repository config_obj artifact principal : M W _).
Proof. intros w d o next. reflexivity. Qed.

Lemma repo_Compile_only repository artifact args :
  inventory_only (repo_Compile repository artifact args : M W _).
Proof. intros w d o next. reflexivity. Qed.

Lemma repo_Populate_only repository args :
  inventory_only (repo_Populate repository args : M W _).
Proof. intros w d o next. reflexivity. Qed.

Lemma artifacts_Obfuscate_only config_obj args :
  inventory_only (artifacts_Obfuscate svc config_obj args).
Proof. intros w d o next. reflexivity. Qed.

Lemma inv_GetToolInfo_events config_obj name :
  emits_only not_datastore_event (inv_GetToolInfo svc config_obj name).
Proof. primitive_events. Qed.

Lemma inv_AddTool_events config_obj tool :
  emits_only not_datastore_event (inv_AddTool svc config_obj tool).
Proof. primitive_events. Qed.

Lemma repo_Get_events repository name :
  emits_only not_datastore_event (repo_Get repository name : M W _).
Proof. primitive_events. Qed.

Lemma repo_CheckAccess_events repository config_obj artifact principal :
  emits_only not_datastore_event
    (repo_CheckAccess repository config_obj artifact principal : M W _).
Proof. primitive_events. Qed.

Lemma repo_Compile_events repository artifact args :
  emits_only not_datastore_event
    (repo_Compile repository artifact args : M W _).
Proof. primitive_events. Qed.

Lemma repo_Populate_events repository args :
  emits_only not_datastore_event (repo_Populate repository args : M W _).
Proof. primitive_events. Qed.

Lemma artifacts_Obfuscate_events config_obj args :
  emits_only not_datastore_event (artifacts_Obfuscate svc config_obj args).
Proof. primitive_events. Qed.

Hint Resolve inv_GetToolInfo_only inv_AddTool_only repo_Get_only
  repo_CheckAccess_only repo_Compile_only repo_Populate_only
  artifacts_Obfuscate_only inv_GetToolInfo_events inv_AddTool_events
  repo_Get_events repo_CheckAccess_events repo_Compile_events
  repo_Populate_events artifacts_Obfuscate_events : footprint.

Ltac compiler_footprint :=
  split;
  [ footprint @inventory_only_ret @inventory_only_bind
  | footprint @emits_only_ret @emits_only_bind ].

Lemma AddToolDependency_footprint config_obj tool args :
  compiler_footprint (AddToolDependency svc config_obj tool args).
Proof. unfold AddToolDependency. compiler_footprint. Qed.

Lemma getDependentTools_loop_footprint config_obj tools args :
  compiler_footprint (getDependentTools_loop svc config_obj tools args).
Proof.
  revert args. induction tools as [|tool rest IH]; intros args;
    cbn [getDependentTools_loop].
  - compiler_footprint.
  - pose proof (AddToolDependency_footprint config_obj tool args) as [? ?].
    pose proof (fun a => proj1 (IH a)). pose proof (fun a => proj2 (IH a)).
    compiler_footprint.
Qed.

Lemma EnsureToolsDeclared_loop_footprint config_obj tools :
  compiler_footprint (EnsureToolsDeclared_loop svc config_obj tools).
Proof.
  induction tools as [|tool rest [IH1 IH2]]; cbn [EnsureToolsDeclared_loop];
    compiler_footprint.
Qed.

Lemma lookup_artifact_footprint repository collector_request name :
  compiler_footprint
    (lookup_artifact repository collector_request name : M W _).
Proof. unfold lookup_artifact. compiler_footprint. Qed.

Lemma compile_found_footprint config_obj principal repository artifact args :
  compiler_footprint
    (compile_found svc config_obj principal repository artifact args).
Proof.
  unfold compile_found, EnsureToolsDeclared.
  pose proof (EnsureToolsDeclared_loop_footprint config_obj
                (Artifact.Tools artifact)) as [? ?].
  compiler_footprint.
Qed.

Lemma compile_artifact_footprint config_obj principal repository
    collector_request name args :
  compiler_footprint
    (compile_artifact svc config_obj principal repository collector_request
       name args).
Proof.
  unfold compile_artifact.
  pose proof (lookup_artifact_footprint repository collector_request name)
    as [? ?].
  pose proof (fun a => proj1 (compile_found_footprint config_obj principal
                                repository a args)).
  pose proof (fun a => proj2 (compile_found_footprint config_obj principal
                                repository a args)).
  compiler_footprint.
Qed.

Lemma compile_artifacts_footprint config_obj principal repository
    collector_request names args :
  compiler_footprint
    (compile_artifacts svc config_obj principal repository collector_request
       names args).
Proof.
  revert args. induction names as [|name rest IH]; intros args;
    cbn [compile_artifacts].
  - compiler_footprint.
  - pose proof (compile_artifact_footprint config_obj principal repository
                  collector_request name args) as [? ?].
    pose proof (fun a => proj1 (IH a)). pose proof (fun a => proj2 (IH a)).
    compiler_footprint.
Qed.

Lemma CompileCollectorArgs_footprint config_obj principal repository
    collector_request :
  compiler_footprint
    (CompileCollectorArgs svc config_obj principal repository
       collector_request).
Proof.
  unfold CompileCollectorArgs, getDependentTools.
  pose proof (fun a => proj1 (compile_artifacts_footprint config_obj principal
     repository collector_request
     (ArtifactCollectorArgs.Artifacts collector_request) a)).
  pose proof (fun a => proj2 (compile_artifacts_footprint config_obj principal
     repository collector_request
     (ArtifactCollectorArgs.Artifacts collector_request) a)).
  pose proof (fun t a =>
                proj1 (getDependentTools_loop_footprint config_obj t a)).
  pose proof (fun t a =>
                proj2 (getDependentTools_loop_footprint config_obj t a)).
  compiler_footprint.
Qed.

(** ** What a footprint gives *)

Lemma world_eta (w : W) :
  mkWorld (inventory w) (datastore w) (os w) (NextFlowIdForTests w) = w.
Proof. destruct w. reflexivity. Qed.

Lemma inventory_only_rest {A : Type} (m : M W A) (w : W) :
  inventory_only m ->
  datastore (world_of (m w)) = datastore w
  /\ os (world_of (m w)) = os w
  /\ NextFlowIdForTests (world_of (m w)) = NextFlowIdForTests w.
Proof.
  intros Hm.
  specialize (Hm w (datastore w) (os w) (NextFlowIdForTests w)).
  rewrite world_eta in Hm. destruct (m w) as [[a evs] w'].
  injection Hm as Hw. unfold world_of. cbn [snd]. rewrite Hw. cbn. auto.
Qed.



Lemma emits_nothing {A : Type} (m : M W A) (w : W) :
  emits_only (fun _ => false) m -> events_of (m w) = [].
Proof.
  intros Hm. specialize (Hm w). destruct (events_of (m w)); [reflexivity|].
  discriminate Hm.
Qed.

(** ** Scheduler *)

Lemma ScheduleArtifactCollectionFromCollectorArgs_no_client config_obj
    collector_request args (w : W) :
  ArtifactCollectorArgs.ClientId collector_request = ""%string ->
  ScheduleArtifactCollectionFromCollectorArgs svc config_obj collector_request
    args w =
  ((""%string, Some "Client id not provided."%string), [], w).
Proof.
  intros Hclient. unfold ScheduleArtifactCollectionFromCollectorArgs.
  rewrite Hclient. reflexivity.
Qed.

(** C3. When the client id of the request is empty,
    [ScheduleArtifactCollectionFromCollectorArgs] returns the error "Client
    id not provided." without any call to a collaborator and leaves the world
    as it was; [ScheduleArtifactCollection] returns an error, that one
    unless it had to compile the request and the compilation did not return a
    program without error, makes no call to the data store and leaves the
    data store as it was: no session is stored and no task is queued. *)
Theorem empty_client_id_rejected (config_obj : Config.t)
    (collector_request : ArtifactCollectorArgs.t) :
  ArtifactCollectorArgs.ClientId collector_request = ""%string ->
  (forall args (w : W),
     ScheduleArtifactCollectionFromCollectorArgs svc config_obj
       collector_request args w =
     ((""%string, Some "Client id not provided."%string), [], w))
  /\ (forall principal repository (w : W),
        let r := ScheduleArtifactCollection svc config_obj principal repository
                   collector_request w in
        (exists e,
           result_of r = (""%string, Some e)
           /\ (e = "Client id not provided."%string
               \/ (ArtifactCollectorArgs.CompiledCollectorArgs
                     collector_request = None
                   /\ forall program,
                        result_of (CompileCollectorArgs svc config_obj
                                     principal repository collector_request w)
                        <> CompiledArgs program None)))
        /\ datastore (world_of r) = datastore w
        /\ forallb not_datastore_event (events_of r) = true).
Proof.
  intros Hclient. split.
  - intros args w.
    apply ScheduleArtifactCollectionFromCollectorArgs_no_client, Hclient.
  - intros principal repository w. unfold ScheduleArtifactCollection.
    destruct (ArtifactCollectorArgs.CompiledCollectorArgs collector_request)
      as [args|].
    + rewrite ScheduleArtifactCollectionFromCollectorArgs_no_client
        by exact Hclient.
      cbn. eauto 6.
    + destruct (CompileCollectorArgs_footprint config_obj principal repository
                  collector_request) as [Honly Hevents].
      pose proof (inventory_only_rest _ w Honly) as (Hstore & _ & _).
      specialize (Hevents w). rewrite bind_run.
      destruct (CompileCollectorArgs svc config_obj principal repository
                  collector_request w) as [[compiled evs] w1].
      unfold world_of, events_of, result_of in *. cbn [fst snd] in *.
      destruct compiled as [e | compiled [e|]];
        try rewrite ScheduleArtifactCollectionFromCollectorArgs_no_client
          by exact Hclient;
        unfold ret; cbn [fst snd]; rewrite app_nil_r;
        (split; [|split; assumption]).
      * exists e. split; [reflexivity|]. right. split; [reflexivity|].
        discriminate.
      * exists e. split; [reflexivity|]. right. split; [reflexivity|].
        discriminate.
      * eauto.
Qed.

Lemma new_collection_context_run collector_request client_id (w : W) :
  exists ctx w0,
    new_collection_context svc collector_request client_id w = (ctx, [], w0)
    /\ ArtifactCollectorContext.ClientId ctx = client_id
    /\ ArtifactCollectorContext.Request ctx = collector_request
    /\ ArtifactCollectorContext.State ctx = RUNNING.
Proof.
  pose proof (emits_nothing _ w
                (new_collection_context_events (fun _ => false)
                   collector_request client_id)) as Hevs.
  revert Hevs. unfold new_collection_context. rewrite !bind_run.
  destruct (NewFlowId svc client_id w) as [[session_id evs1] w1].
  rewrite bind_run.
  destruct (os_time_Now svc w1) as [[now evs2] w2].
  unfold ret, events_of. cbn [fst snd]. intros ->.
  eexists _, _. repeat split.
Qed.

(** The queue loop: it queues the tasks of a prefix [done] of the programs
    and either reaches the end or stops at the first task the queue
    refuses. *)
Lemma queue_tasks_run config_obj collector_request client_id session_id
    args tasks (w : W) :
  let r := queue_tasks svc config_obj collector_request client_id session_id
             args tasks w in
  let queued done :=
    map (fun a => DbQueue client_id
                    (new_task svc collector_request session_id a) true) done in
  exists done rest,
    args = done ++ rest
    /\ (result_of r).2 =
       tasks ++ map (new_task svc collector_request session_id) done
    /\ (((result_of r).1 = None /\ rest = [] /\ events_of r = queued done)
        \/ (exists e a rest',
              (result_of r).1 = Some e /\ rest = a :: rest'
              /\ events_of r =
                 queued done
                 ++ [DbQueue client_id
                       (new_task svc collector_request session_id a) false])).
Proof.
  cbv zeta. revert tasks w.
  induction args as [|arg args IH]; intros tasks w.
  - exists [], []. cbn. rewrite app_nil_r.
    split; [reflexivity|]. split; [reflexivity|]. left. auto.
  - cbn [queue_tasks]. rewrite bind_run. unfold db_QueueMessageForClient.
    destruct (QueueMessageForClient svc config_obj client_id
                (new_task svc collector_request session_id arg)
                (datastore w)) as [[e|] d].
    + exists [], (arg :: args). cbn. rewrite app_nil_r.
      split; [reflexivity|]. split; [reflexivity|]. right.
      exists e, arg, args. auto.
    + match goal with
      | |- context [queue_tasks _ _ _ _ _ _ ?t ?w'] =>
          destruct (IH t w') as (done & rest & -> & Htasks & Hevs);
          destruct (queue_tasks svc config_obj collector_request client_id
                      session_id (done ++ rest) t w') as [[r evs] w2]
      end.
      unfold result_of, events_of in *. cbn [fst snd] in *.
      exists (arg :: done), rest. split; [reflexivity|]. split.
      * rewrite Htasks, <- app_assoc. reflexivity.
      * destruct Hevs as [(Herr & -> & ->) | (e & a & rest' & Herr & -> & ->)].
        -- left. auto.
        -- right. exists e, a, rest'. auto.
Qed.

(** The runs of [ScheduleArtifactCollectionFromCollectorArgs] for a client:
    the data store is unavailable; or the collection context is refused; or
    it is stored, the tasks of a prefix of the programs are queued and the
    next one is refused; or all are queued and the list of tasks is handed to
    the data store. *)
Lemma ScheduleArtifactCollectionFromCollectorArgs_run config_obj
    collector_request args (w : W) :
  ArtifactCollectorArgs.ClientId collector_request <> ""%string ->
  let r := ScheduleArtifactCollectionFromCollectorArgs svc config_obj
             collector_request args w in
  let client_id := ArtifactCollectorArgs.ClientId collector_request in
  exists ctx done rest,
    let session_id := ArtifactCollectorContext.SessionId ctx in
    let task := new_task svc collector_request session_id in
    let stored ok :=
      DbSetSubject (FlowPath svc client_id session_id) (SubjectContext ctx)
        ok in
    let queued := map (fun a => DbQueue client_id (task a) true) done in
    ArtifactCollectorContext.ClientId ctx = client_id
    /\ ArtifactCollectorContext.Request ctx = collector_request
    /\ ArtifactCollectorContext.State ctx = RUNNING
    /\ args = done ++ rest
    /\ (((exists e, result_of r = (""%string, Some e))
         /\ events_of r = [DbGet])
        \/ ((exists e, result_of r = (""%string, Some e))
            /\ events_of r = [DbGet; stored false])
        \/ (exists a rest',
              (exists e, result_of r = (""%string, Some e))
              /\ rest = a :: rest'
              /\ events_of r =
                 DbGet :: stored true :: queued
                 ++ [DbQueue client_id (task a) false])
        \/ (exists err,
              rest = []
              /\ result_of r =
                 match err with
                 | Some e => (""%string, Some e)
                 | None => (session_id, None)
                 end
              /\ events_of r =
                 DbGet :: stored true :: queued
                 ++ [DbSetSubject (FlowTaskPath svc client_id session_id)
                       (SubjectRequestDetails (map task done)) (ok err)])).
Proof.
  intros Hclient.
  remember (ScheduleArtifactCollectionFromCollectorArgs svc config_obj
              collector_request args w) as r eqn:Hr.
  cbv zeta. unfold ScheduleArtifactCollectionFromCollectorArgs in Hr.
  apply String.eqb_neq in Hclient. rewrite Hclient, bind_run in Hr.
  destruct (new_collection_context_run collector_request
              (ArtifactCollectorArgs.ClientId collector_request) w)
    as (ctx & w0 & Hctx & Hctx_client & Hctx_request & Hctx_state).
  rewrite Hctx, bind_run in Hr. unfold db_GetDB in Hr.
  destruct (GetDB svc config_obj) as [e|].
  { exists ctx, [], args. subst r.
    do 4 (split; [reflexivity || assumption|]). left. eauto. }
  rewrite bind_run in Hr. unfold db_SetSubject at 1 in Hr.
  destruct (SetSubject svc config_obj _ (SubjectContext ctx) (datastore w0))
    as [[e|] d1].
  { exists ctx, [], args. subst r.
    do 4 (split; [reflexivity || assumption|]). right. left. eauto. }
  rewrite bind_run in Hr.
  match type of Hr with
  | context [queue_tasks _ _ _ ?c ?s _ [] ?w'] =>
      destruct (queue_tasks_run config_obj collector_request c s args [] w')
        as (done & rest & Hargs & Htasks & Hevs);
      destruct (queue_tasks svc config_obj collector_request c s
                  args [] w') as [[[err tasks] evs] w2]
  end.
  unfold result_of, events_of in Htasks, Hevs.
  cbn [fst snd app] in Htasks, Hevs.
  subst tasks. exists ctx, done, rest.
  do 4 (split; [reflexivity || assumption|]).
  destruct Hevs as [(-> & -> & ->) | (e & a & rest' & -> & -> & ->)].
  - right. right. right. rewrite bind_run in Hr. unfold db_SetSubject in Hr.
    destruct (SetSubject svc config_obj _
                (SubjectRequestDetails
                   (map (new_task svc collector_request
                           (ArtifactCollectorContext.SessionId ctx)) done))
                (datastore w2)) as [err d3].
    exists err. split; [reflexivity|]. subst r.
    unfold ret, result_of, events_of. cbn [fst snd ok].
    destruct err; cbn [fst snd app]; rewrite ?app_nil_r; split; reflexivity.
  - right. right. left. exists a, rest'. subst r.
    unfold ret, result_of, events_of. cbn [fst snd app ok].
    rewrite app_nil_r. eauto.
Qed.

Lemma queue_calls_app (evs1 evs2 : list Event) :
  queue_calls (evs1 ++ evs2) = queue_calls evs1 ++ queue_calls evs2.
Proof. apply flat_map_app. Qed.

Lemma enqueued_app (evs1 evs2 : list Event) :
  enqueued (evs1 ++ evs2) = enqueued evs1 ++ enqueued evs2.
Proof. apply flat_map_app. Qed.

Lemma queue_calls_queued client_id (task : VQLCollectorArgs.t -> GrrMessage.t)
    (ok : bool) (done : list VQLCollectorArgs.t) :
  queue_calls (map (fun a => DbQueue client_id (task a) ok) done) =
  map task done.
Proof.
  unfold queue_calls. induction done as [|a done IH]; [reflexivity|].
  cbn [map flat_map app]. rewrite IH. reflexivity.
Qed.

Lemma enqueued_queued client_id (task : VQLCollectorArgs.t -> GrrMessage.t)
    (done : list VQLCollectorArgs.t) :
  enqueued (map (fun a => DbQueue client_id (task a) true) done) =
  map task done.
Proof.
  unfold enqueued. induction done as [|a done IH]; [reflexivity|].
  cbn [map flat_map app]. rewrite IH. reflexivity.
Qed.

Lemma queue_calls_not_datastore (evs : list Event) :
  forallb not_datastore_event evs = true -> queue_calls evs = [].
Proof.
  unfold queue_calls. induction evs as [|e evs IH]; [reflexivity|].
  cbn [forallb flat_map]. intros [He Hevs]%andb_true_iff.
  rewrite IH by exact Hevs. destruct e; try discriminate He; reflexivity.
Qed.

Lemma new_task_action collector_request session_id
    (done : list VQLCollectorArgs.t) :
  map GrrMessage.VQLClientAction
    (map (new_task svc collector_request session_id) done) = done.
Proof.
  induction done as [|a done IH]; [reflexivity|].
  cbn [map]. rewrite IH. reflexivity.
Qed.

(** A session stored at the head of the events covers the queue calls that
    follow, provided they are for that session and client. *)
Lemma stored_then_queued client_id (ctx : ArtifactCollectorContext.t)
    (evs : list Event) :
  ArtifactCollectorContext.ClientId ctx = client_id ->
  (forall c task ok, In (DbQueue c task ok) evs ->
     c = client_id
     /\ GrrMessage.SessionId task = ArtifactCollectorContext.SessionId ctx) ->
  (forall path ctx',
     ~ In (DbSetSubject path (SubjectContext ctx') false) evs) ->
  session_stored_first svc
    (DbGet
     :: DbSetSubject
          (FlowPath svc client_id (ArtifactCollectorContext.SessionId ctx))
          (SubjectContext ctx) true
     :: evs).
Proof.
  intros Hclient Hqueue Hrefused. split.
  - intros pre c task ok post Hsplit.
    destruct pre as [|e1 [|e2 pre]]; try discriminate Hsplit.
    injection Hsplit as <- <- ->.
    destruct (Hqueue c task ok) as [-> Hsession].
    { apply in_or_app. right. left. reflexivity. }
    exists ctx. rewrite Hsession. split; [|split; [reflexivity|assumption]].
    right. left. reflexivity.
  - intros (path & ctx' & [Hin|[Hin|Hin]]); try discriminate Hin.
    destruct (Hrefused _ _ Hin).
Qed.

(** Calls to other collaborators, made first, change nothing to it. *)
Lemma session_stored_first_after (evs1 evs2 : list Event) :
  forallb not_datastore_event evs1 = true ->
  session_stored_first svc evs2 -> session_stored_first svc (evs1 ++ evs2).
Proof.
  intros Hevs1 [Hstored Hrefused]. split.
  - induction evs1 as [|e evs1 IH]; [exact Hstored|].
    cbn [forallb] in Hevs1. apply andb_true_iff in Hevs1 as [He Hevs1].
    intros pre c task ok post Hsplit.
    destruct pre as [|e' pre]; cbn [app] in Hsplit.
    + injection Hsplit as -> _. discriminate He.
    + injection Hsplit as -> Hsplit.
      destruct (IH Hevs1 _ _ _ _ _ Hsplit) as (ctx & Hin & Hctx).
      exists ctx. split; [right; exact Hin | exact Hctx].
  - intros (path & ctx & Hin). rewrite queue_calls_app.
    rewrite queue_calls_not_datastore by exact Hevs1.
    apply Hrefused. exists path, ctx.
    apply in_app_or in Hin as [Hin|Hin]; [|exact Hin].
    rewrite forallb_forall in Hevs1. specialize (Hevs1 _ Hin).
    discriminate Hevs1.
Qed.

Lemma session_stored_first_nil : session_stored_first svc [].
Proof.
  split.
  - intros [|? ?] ? ? ? ? Hsplit; discriminate Hsplit.
  - reflexivity.
Qed.

Lemma ScheduleArtifactCollectionFromCollectorArgs_stored_first config_obj
    collector_request args (w : W) :
  session_stored_first svc
    (events_of (ScheduleArtifactCollectionFromCollectorArgs svc config_obj
                  collector_request args w)).
Proof.
  destruct (String.eqb_spec
              (ArtifactCollectorArgs.ClientId collector_request) "")
    as [Hclient|Hclient].
  { rewrite ScheduleArtifactCollectionFromCollectorArgs_no_client
      by exact Hclient.
    apply session_stored_first_nil. }
  destruct (ScheduleArtifactCollectionFromCollectorArgs_run config_obj
              collector_request args w Hclient)
    as (ctx & done & rest & Hctx & _ & _ & _ & Hrun).
  assert (Hqueued : forall ok c task ok' tail,
            (forall c task ok', In (DbQueue c task ok') tail ->
               c = ArtifactCollectorArgs.ClientId collector_request
               /\ GrrMessage.SessionId task =
                  ArtifactCollectorContext.SessionId ctx) ->
            In (DbQueue c task ok')
               (map (fun a =>
                       DbQueue
                         (ArtifactCollectorArgs.ClientId collector_request)
                         (new_task svc collector_request
                            (ArtifactCollectorContext.SessionId ctx) a) ok)
                    done ++ tail) ->
            c = ArtifactCollectorArgs.ClientId collector_request
            /\ GrrMessage.SessionId task =
               ArtifactCollectorContext.SessionId ctx).
  { intros ok c task ok' tail Htail [Hin|Hin]%in_app_or; [|eauto].
    apply in_map_iff in Hin as (a & [= <- <- <-] & _). split; reflexivity. }
  destruct Hrun as [[_ ->] | [[_ ->] | [(a & rest' & _ & _ & ->)
                                       | (err & _ & _ & ->)]]].
  - split.
    + intros [|? [|? ?]] ? ? ? ? Hsplit; discriminate Hsplit.
    + reflexivity.
  - split.
    + intros [|? [|? [|? ?]]] ? ? ? ? Hsplit; discriminate Hsplit.
    + reflexivity.
  - apply stored_then_queued; [exact Hctx| |].
    + intros c task ok' Hin. apply (Hqueued true c task ok' _) in Hin;
        [exact Hin|].
      intros c' task' ok'' [[= <- <- <-]|[]]. split; reflexivity.
    + intros path ctx' [Hin|Hin]%in_app_or.
      * apply in_map_iff in Hin as (? & [=] & _).
      * destruct Hin as [[=]|[]].
  - apply stored_then_queued; [exact Hctx| |].
    + intros c task ok' Hin. apply (Hqueued true c task ok' _) in Hin;
        [exact Hin|].
      intros c' task' ok'' [[=]|[]].
    + intros path ctx' [Hin|Hin]%in_app_or.
      * apply in_map_iff in Hin as (? & [=] & _).
      * destruct Hin as [[=]|[]].
Qed.

(** C2. In every run of [ScheduleArtifactCollectionFromCollectorArgs] and of
    [ScheduleArtifactCollection], a task is handed to the queue only after
    the data store has accepted the collection context of the task's session
    and client, at the path of that session; and when the data store refuses
    the collection context, no task is handed to the queue. *)
Theorem session_stored_before_tasks (config_obj : Config.t)
    (principal : string) (repository : Repository.t)
    (collector_request : ArtifactCollectorArgs.t)
    (args : list VQLCollectorArgs.t) (w : W) :
  session_stored_first svc
    (events_of (ScheduleArtifactCollectionFromCollectorArgs svc config_obj
                  collector_request args w))
  /\ session_stored_first svc
       (events_of (ScheduleArtifactCollection svc config_obj principal
                     repository collector_request w)).
Proof.
  split.
  - apply ScheduleArtifactCollectionFromCollectorArgs_stored_first.
  - unfold ScheduleArtifactCollection.
    destruct (ArtifactCollectorArgs.CompiledCollectorArgs collector_request)
      as [args'|].
    + apply ScheduleArtifactCollectionFromCollectorArgs_stored_first.
    + destruct (CompileCollectorArgs_footprint config_obj principal repository
                  collector_request) as [_ Hevents].
      specialize (Hevents w). rewrite bind_run.
      destruct (CompileCollectorArgs svc config_obj principal repository
                  collector_request w) as [[compiled evs] w1].
      unfold events_of in Hevents. cbn [fst snd] in Hevents.
      destruct compiled as [e | compiled [e|]].
      * unfold ret, events_of. cbn [fst snd].
        apply session_stored_first_after;
          [exact Hevents | apply session_stored_first_nil].
      * unfold ret, events_of. cbn [fst snd].
        apply session_stored_first_after;
          [exact Hevents | apply session_stored_first_nil].
      * pose proof (ScheduleArtifactCollectionFromCollectorArgs_stored_first
                      config_obj collector_request ([] ++ [compiled]) w1)
          as Hsched.
        destruct (ScheduleArtifactCollectionFromCollectorArgs svc config_obj
                    collector_request ([] ++ [compiled]) w1)
          as [[r evs2] w2].
        unfold events_of in *. cbn [fst snd] in *.
        apply session_stored_first_after; assumption.
Qed.

Lemma ScheduleArtifactCollectionFromCollectorArgs_enqueued config_obj
    collector_request args (w : W) :
  let r := ScheduleArtifactCollectionFromCollectorArgs svc config_obj
             collector_request args w in
  (exists rest,
     args =
     map GrrMessage.VQLClientAction (queue_calls (events_of r)) ++ rest)
  /\ ((result_of r).2 = None ->
      map GrrMessage.VQLClientAction (enqueued (events_of r)) = args).
Proof.
  cbv zeta.
  destruct (String.eqb_spec
              (ArtifactCollectorArgs.ClientId collector_request) "")
    as [Hclient|Hclient].
  { rewrite ScheduleArtifactCollectionFromCollectorArgs_no_client
      by exact Hclient.
    split; [exists args; reflexivity | discriminate]. }
  destruct (ScheduleArtifactCollectionFromCollectorArgs_run config_obj
              collector_request args w Hclient)
    as (ctx & done & rest & _ & _ & _ & -> & Hrun).
  destruct Hrun as [[[e ->] ->] | [[[e ->] ->]
                   | [(a & rest' & [e ->] & -> & ->)
                     | (err & -> & -> & ->)]]].
  - split; [exists (done ++ rest); reflexivity | discriminate].
  - split; [exists (done ++ rest); reflexivity | discriminate].
  - split; [|discriminate]. exists rest'.
    change (queue_calls (DbGet :: ?s :: ?l)) with (queue_calls l).
    rewrite queue_calls_app, queue_calls_queued, map_app, new_task_action.
    cbn. rewrite <- app_assoc. reflexivity.
  - change (queue_calls (DbGet :: ?s :: ?l)) with (queue_calls l).
    change (enqueued (DbGet :: ?s :: ?l)) with (enqueued l).
    rewrite queue_calls_app, queue_calls_queued, enqueued_app, enqueued_queued,
      !map_app, !new_task_action.
    cbn. rewrite !app_nil_r.
    split; [exists []; symmetry; apply app_nil_r | reflexivity].
Qed.



(** ** Compiler *)

Lemma lookup_artifact_run repository collector_request name (w : W) :
  lookup_artifact repository collector_request name w =
  (resolve repository collector_request name,
   lookup_calls repository collector_request name, w).
Proof.
  unfold lookup_artifact, resolve, lookup_calls, bind, repo_Get, ret.
  destruct (ArtifactCollectorArgs.AllowCustomOverrides collector_request);
    [|reflexivity].
  destruct (Repository.Get repository ("Custom." +:+ name)); reflexivity.
Qed.

Lemma compile_artifact_run config_obj principal repository collector_request
    name args (w : W) :
  compile_artifact svc config_obj principal repository collector_request
    name args w =
  match resolve repository collector_request name with
  | None =>
      (inr ("Unknown artifact " +:+ name),
       lookup_calls repository collector_request name, w)
  | Some artifact =>
      let '(r, evs, w') :=
        compile_found svc config_obj principal repository artifact args w in
      (r, lookup_calls repository collector_request name ++ evs, w')
  end.
Proof.
  unfold compile_artifact. rewrite bind_run, lookup_artifact_run.
  destruct (resolve repository collector_request name) as [artifact|].
  - reflexivity.
  - unfold ret. rewrite app_nil_r. reflexivity.
Qed.

Lemma inv_GetToolInfo_inventory_events config_obj name :
  emits_only is_inventory_event (inv_GetToolInfo svc config_obj name).
Proof. primitive_events. Qed.

Lemma inv_AddTool_inventory_events config_obj tool :
  emits_only is_inventory_event (inv_AddTool svc config_obj tool).
Proof. primitive_events. Qed.

Hint Resolve inv_GetToolInfo_inventory_events inv_AddTool_inventory_events
  : footprint.

Lemma EnsureToolsDeclared_loop_inventory_events config_obj tools :
  emits_only is_inventory_event (EnsureToolsDeclared_loop svc config_obj tools).
Proof.
  induction tools as [|tool rest IH]; cbn [EnsureToolsDeclared_loop];
    footprint @emits_only_ret @emits_only_bind.
Qed.

Lemma compiled_artifacts_inventory (evs : list Event) :
  forallb is_inventory_event evs = true -> compiled_artifacts evs = [].
Proof.
  unfold compiled_artifacts. induction evs as [|ev evs IH]; [reflexivity|].
  cbn [forallb flat_map]. intros [Hev Hevs]%andb_true_iff.
  rewrite IH by exact Hevs. destruct ev; try discriminate Hev; reflexivity.
Qed.

Lemma EnsureToolsDeclared_loop_registered config_obj tools (w : W) :
  incl
    (registered
       (events_of (EnsureToolsDeclared_loop svc config_obj tools w)))
    tools.
Proof.
  revert w. induction tools as [|tool rest IH]; intros w.
  - intros t [].
  - cbn [EnsureToolsDeclared_loop]. rewrite bind_run.
    unfold inv_GetToolInfo.
    destruct (GetToolInfo svc config_obj (Tool.Name tool) (inventory w))
      as [tool_info|unknown].
    + specialize (IH w).
      destruct (EnsureToolsDeclared_loop svc config_obj rest w)
        as [[r evs] w'].
      unfold events_of in *. cbn [fst snd app registered flat_map] in *.
      apply incl_tl, IH.
    + rewrite bind_run. unfold inv_AddTool.
      destruct (AddTool svc config_obj tool (inventory w)) as [[e|] i].
      * unfold ret, events_of. cbn. intros t [<-|[]]. left. reflexivity.
      * match goal with
        | |- context [EnsureToolsDeclared_loop _ _ _ ?w'] =>
            specialize (IH w');
            destruct (EnsureToolsDeclared_loop svc config_obj rest w')
              as [[r evs] w2]
        end.
        unfold events_of in *. cbn [fst snd app registered flat_map] in *.
        intros t [<-|Hin]; [left; reflexivity | right; apply IH, Hin].
Qed.

(** What one artifact, once found, does: the program handed on is the
    repository's compilation of that artifact, the only one compiled, and
    the tools registered are tools of that artifact. *)
Lemma compile_found_run config_obj principal repository artifact args (w : W) :
  let r := compile_found svc config_obj principal repository artifact args w in
  (forall args', result_of r = inl args' ->
     Repository.Compile repository artifact args = inl args'
     /\ compiled_artifacts (events_of r) = [artifact])
  /\ incl (registered (events_of r)) (Artifact.Tools artifact).
Proof.
  cbv zeta. unfold compile_found. rewrite bind_run. unfold repo_CheckAccess.
  destruct (Repository.CheckAccess repository config_obj artifact principal).
  { unfold ret, result_of, events_of. cbn. split; [discriminate|].
    intros t []. }
  rewrite bind_run. unfold repo_Compile.
  destruct (Repository.Compile repository artifact args) as [args1|e].
  2:{ unfold ret, result_of, events_of. cbn. split; [discriminate|].
      intros t []. }
  rewrite bind_run. unfold EnsureToolsDeclared.
  pose proof (EnsureToolsDeclared_loop_registered config_obj
                (Artifact.Tools artifact) w) as Hreg.
  pose proof (EnsureToolsDeclared_loop_inventory_events config_obj
                (Artifact.Tools artifact) w) as Hevs.
  apply compiled_artifacts_inventory in Hevs as Hnone.
  destruct (EnsureToolsDeclared_loop svc config_obj (Artifact.Tools artifact) w)
    as [[err evs] w'].
  unfold events_of in Hreg, Hnone. cbn [fst snd] in Hreg, Hnone.
  split.
  - intros args'. destruct err; unfold ret, result_of, events_of;
      cbn [fst snd]; [discriminate|]. intros [= <-]. split; [reflexivity|].
    unfold compiled_artifacts in *. cbn [flat_map app].
    rewrite !flat_map_app, Hnone. reflexivity.
  - destruct err; unfold ret, events_of; cbn [fst snd];
      unfold registered in *; cbn [flat_map app];
      rewrite !flat_map_app; cbn [flat_map app]; rewrite app_nil_r;
      exact Hreg.
Qed.

Lemma compiled_artifacts_lookup repository collector_request name :
  compiled_artifacts (lookup_calls repository collector_request name) = [].
Proof.
  unfold lookup_calls.
  destruct (ArtifactCollectorArgs.AllowCustomOverrides collector_request);
    [|reflexivity].
  destruct (Repository.Get repository ("Custom." +:+ name)); reflexivity.
Qed.

Lemma registered_lookup repository collector_request name :
  registered (lookup_calls repository collector_request name) = [].
Proof.
  unfold lookup_calls.
  destruct (ArtifactCollectorArgs.AllowCustomOverrides collector_request);
    [|reflexivity].
  destruct (Repository.Get repository ("Custom." +:+ name)); reflexivity.
Qed.

Lemma compiled_artifacts_app (evs1 evs2 : list Event) :
  compiled_artifacts (evs1 ++ evs2) =
  compiled_artifacts evs1 ++ compiled_artifacts evs2.
Proof. apply flat_map_app. Qed.

Lemma registered_app (evs1 evs2 : list Event) :
  registered (evs1 ++ evs2) = registered evs1 ++ registered evs2.
Proof. apply flat_map_app. Qed.

(** A turn of the loop that hands a program on compiled the artifact the
    name stands for, and no other. *)
Lemma compile_artifact_compiled config_obj principal repository
    collector_request name args (w : W) args' :
  let r := compile_artifact svc config_obj principal repository
             collector_request name args w in
  result_of r = inl args' ->
  exists artifact,
    resolve repository collector_request name = Some artifact
    /\ Repository.Compile repository artifact args = inl args'
    /\ compiled_artifacts (events_of r) = [artifact].
Proof.
  cbv zeta. rewrite compile_artifact_run.
  destruct (resolve repository collector_request name) as [artifact|];
    [|discriminate].
  pose proof (compile_found_run config_obj principal repository artifact
                args w) as [Hfound _].
  destruct (compile_found svc config_obj principal repository artifact args w)
    as [[r evs] w'].
  unfold result_of, events_of in *. cbn [fst snd] in *.
  intros Hr. destruct (Hfound _ Hr) as [Hcompile Hevs].
  exists artifact. rewrite compiled_artifacts_app, compiled_artifacts_lookup.
  auto.
Qed.

Lemma compile_artifacts_compiled config_obj principal repository
    collector_request names args (w : W) args' :
  let r := compile_artifacts svc config_obj principal repository
             collector_request names args w in
  result_of r = inl args' ->
  map Some (compiled_artifacts (events_of r)) =
  map (resolve repository collector_request) names.
Proof.
  cbv zeta. revert args w.
  induction names as [|name rest IH]; intros args w; [reflexivity|].
  cbn [compile_artifacts]. rewrite bind_run.
  pose proof (compile_artifact_compiled config_obj principal repository
                collector_request name args w) as Hturn.
  cbv zeta in Hturn.
  destruct (compile_artifact svc config_obj principal repository
              collector_request name args w) as [[[args1|e] evs1] w1];
    [|discriminate].
  destruct (Hturn args1 eq_refl) as (artifact & Hresolve & _ & Hevs1).
  specialize (IH args1 w1).
  destruct (compile_artifacts svc config_obj principal repository
              collector_request rest args1 w1) as [[r evs2] w2].
  unfold result_of, events_of in *. cbn [fst snd] in *.
  intros Hr. rewrite compiled_artifacts_app, Hevs1. cbn [app map].
  rewrite Hresolve, (IH Hr). reflexivity.
Qed.

(** *** Unknown artifacts *)

Lemma compile_artifacts_app config_obj principal repository collector_request
    names1 names2 args (w : W) :
  compile_artifacts svc config_obj principal repository collector_request
    (names1 ++ names2) args w =
  let '(r, evs1, w1) :=
    compile_artifacts svc config_obj principal repository collector_request
      names1 args w in
  match r with
  | inr e => (inr e, evs1, w1)
  | inl args1 =>
      let '(r2, evs2, w2) :=
        compile_artifacts svc config_obj principal repository
          collector_request names2 args1 w1 in
      (r2, evs1 ++ evs2, w2)
  end.
Proof.
  revert args w. induction names1 as [|name rest IH]; intros args w.
  - cbn [app compile_artifacts]. unfold ret.
    destruct (compile_artifacts svc config_obj principal repository
                collector_request names2 args w) as [[r evs] w'].
    reflexivity.
  - cbn [app compile_artifacts]. rewrite !bind_run.
    destruct (compile_artifact svc config_obj principal repository
                collector_request name args w) as [[[args1|e] evs1] w1].
    + rewrite IH.
      destruct (compile_artifacts svc config_obj principal repository
                  collector_request rest args1 w1) as [[[args2|e] evs2] w2].
      * destruct (compile_artifacts svc config_obj principal repository
                    collector_request names2 args2 w2) as [[r evs3] w3].
        rewrite app_assoc. reflexivity.
      * reflexivity.
    + reflexivity.
Qed.




Lemma CompileCollectorArgs_loop_error config_obj principal repository
    collector_request (w : W) e evs w' :
  compile_artifacts svc config_obj principal repository collector_request
    (ArtifactCollectorArgs.Artifacts collector_request)
    (new_args collector_request) w = (inr e, evs, w') ->
  CompileCollectorArgs svc config_obj principal repository collector_request w
  = (CompiledNil e, evs, w').
Proof.
  intros Hloop. unfold CompileCollectorArgs. rewrite bind_run.
  fold (new_args collector_request). rewrite Hloop. unfold ret.
  rewrite app_nil_r. reflexivity.
Qed.


(** *** Tool entries *)










Lemma CompileCollectorArgs_phases config_obj principal repository
    collector_request (w : W) :
  CompileCollectorArgs svc config_obj principal repository collector_request w
  =
  let '(r, evs1, w1) :=
    merged_program svc config_obj principal repository collector_request w in
  match r with
  | inr e => (CompiledNil e, evs1, w1)
  | inl args =>
      let '((err, args), evs2, w2) :=
        getDependentTools svc config_obj args w1 in
      match err with
      | Some e => (CompiledNil e, evs1 ++ evs2, w2)
      | None =>
          (CompiledArgs (Obfuscate svc config_obj args).2
             (Obfuscate svc config_obj args).1,
           evs1 ++ evs2 ++ [ArtifactsObfuscate], w2)
      end
  end.
Proof.
  unfold CompileCollectorArgs, merged_program. rewrite !bind_run.
  fold (new_args collector_request).
  destruct (compile_artifacts svc config_obj principal repository
              collector_request
              (ArtifactCollectorArgs.Artifacts collector_request)
              (new_args collector_request) w) as [[[args|e] evs1] w1];
    [|reflexivity].
  rewrite !bind_run. unfold repo_Populate.
  destruct (Repository.PopulateArtifactsVQLCollectorArgs repository args)
    as [args1|e]; [|reflexivity].
  destruct (AddArtifactCollectorArgs config_obj args1 collector_request)
    as [[e|] args2]; [reflexivity|].
  rewrite bind_run. unfold ret at 3. cbv beta iota zeta.
  destruct (getDependentTools svc config_obj args2 w1)
    as [[[[e|] args3] evs2] w2].
  - unfold ret. rewrite !app_nil_r, <- !app_assoc. reflexivity.
  - rewrite bind_run. unfold artifacts_Obfuscate, ret.
    destruct (Obfuscate svc config_obj args3) as [err args4].
    cbn [fst snd]. rewrite !app_nil_r, <- !app_assoc. reflexivity.
Qed.


(** * Further properties of the launcher *)

(** ** What compilation touches *)

(** X1. Compilation reads and writes the inventory and nothing else of the
    world: it makes no call to the data store, leaves the data store, the
    clock and random source and the identifier set for tests as they were,
    and its result and calls are the same whatever these are. *)
Theorem CompileCollectorArgs_touches_inventory_only (config_obj : Config.t)
    (principal : string) (repository : Repository.t)
    (collector_request : ArtifactCollectorArgs.t) (w : W) :
  let r := CompileCollectorArgs svc config_obj principal repository
             collector_request w in
  datastore (world_of r) = datastore w
  /\ os (world_of r) = os w
  /\ NextFlowIdForTests (world_of r) = NextFlowIdForTests w
  /\ forallb not_datastore_event (events_of r) = true
  /\ (forall (d : D) (o : O) (next : string),
        let r' := CompileCollectorArgs svc config_obj principal repository
                    collector_request (mkWorld (inventory w) d o next) in
        result_of r' = result_of r
        /\ events_of r' = events_of r
        /\ inventory (world_of r') = inventory (world_of r)).
Proof.
  cbv zeta.
  destruct (CompileCollectorArgs_footprint config_obj principal repository
              collector_request) as [Honly Hevents].
  destruct (inventory_only_rest _ w Honly) as (Hd & Ho & Hnext).
  do 3 (split; [assumption|]). split; [apply Hevents|].
  intros d o next. rewrite (Honly w d o next).
  destruct (CompileCollectorArgs svc config_obj principal repository
              collector_request w) as [[c evs] w'].
  repeat split.
Qed.

(** ** Access is checked before anything is compiled *)

Lemma compile_found_access config_obj principal repository artifact args
    (w : W) :
  let r := compile_found svc config_obj principal repository artifact args w in
  (compiled_artifacts (events_of r) = [] /\ registered (events_of r) = [])
  \/ (Repository.CheckAccess repository config_obj artifact principal = None
      /\ compiled_artifacts (events_of r) = [artifact]
      /\ incl (registered (events_of r)) (Artifact.Tools artifact)).
Proof.
  cbv zeta.
  pose proof (compile_found_run config_obj principal repository artifact
                args w) as [_ Hregistered].
  revert Hregistered. unfold compile_found. rewrite bind_run.
  unfold repo_CheckAccess.
  destruct (Repository.CheckAccess repository config_obj artifact principal).
  { intros _. left. split; reflexivity. }
  rewrite bind_run. unfold repo_Compile.
  destruct (Repository.Compile repository artifact args) as [args1|e].
  2:{ intros _. right. unfold ret, events_of. cbn.
      split; [reflexivity|]. split; [reflexivity|]. intros t []. }
  rewrite bind_run. unfold EnsureToolsDeclared.
  pose proof (EnsureToolsDeclared_loop_inventory_events config_obj
                (Artifact.Tools artifact) w) as Hevs.
  apply compiled_artifacts_inventory in Hevs.
  destruct (EnsureToolsDeclared_loop svc config_obj (Artifact.Tools artifact) w)
    as [[err evs] w'].
  unfold events_of in Hevs. cbn [fst snd] in Hevs.
  intros Hregistered. right. split; [reflexivity|]. split; [|exact Hregistered].
  destruct err; unfold ret, events_of; cbn [fst snd];
    rewrite !compiled_artifacts_app, Hevs; reflexivity.
Qed.

(** What the loop compiled had access granted and stands for a name of the
    list; what it registered is a tool of an artifact it compiled. *)
Lemma compile_artifacts_access config_obj principal repository
    collector_request names args (w : W) :
  let r := compile_artifacts svc config_obj principal repository
             collector_request names args w in
  (forall artifact,
     In artifact (compiled_artifacts (events_of r)) ->
     Repository.CheckAccess repository config_obj artifact principal = None
     /\ exists name,
          In name names
          /\ resolve repository collector_request name = Some artifact)
  /\ (forall tool,
        In tool (registered (events_of r)) ->
        exists artifact,
          In artifact (compiled_artifacts (events_of r))
          /\ In tool (Artifact.Tools artifact)).
Proof.
  cbv zeta. revert args w.
  induction names as [|name rest IH]; intros args w.
  - split; intros ? [].
  - cbn [compile_artifacts]. rewrite bind_run, compile_artifact_run.
    destruct (resolve repository collector_request name) as [artifact|]
      eqn:Hresolve.
    2:{ unfold ret, events_of. cbn [fst snd]. rewrite app_nil_r.
        rewrite compiled_artifacts_lookup, registered_lookup.
        split; intros ? []. }
    pose proof (compile_found_access config_obj principal repository artifact
                  args w) as Hturn. cbv zeta in Hturn.
    destruct (compile_found svc config_obj principal repository artifact
                args w) as [[r1 evs1] w1].
    unfold events_of in Hturn. cbn [fst snd] in Hturn.
    assert (Hhere :
      (forall a, In a (compiled_artifacts evs1) ->
         Repository.CheckAccess repository config_obj a principal = None
         /\ exists name',
              In name' (name :: rest)
              /\ resolve repository collector_request name' = Some a)
      /\ (forall tool, In tool (registered evs1) ->
            exists a, In a (compiled_artifacts evs1)
                      /\ In tool (Artifact.Tools a))).
    { destruct Hturn as [[-> ->] | (Haccess & -> & Htools)].
      - split; intros ? [].
      - split.
        + intros a [<-|[]]. split; [exact Haccess|].
          exists name. split; [left; reflexivity | exact Hresolve].
        + intros tool Hin. exists artifact.
          split; [left; reflexivity | apply Htools, Hin]. }
    destruct Hhere as [Hcompiled1 Hregistered1].
    destruct r1 as [args1|e].
    + specialize (IH args1 w1).
      destruct (compile_artifacts svc config_obj principal repository
                  collector_request rest args1 w1) as [[r2 evs2] w2].
      unfold events_of in *. cbn [fst snd] in *.
      destruct IH as [Hcompiled2 Hregistered2].
      rewrite !compiled_artifacts_app, !registered_app,
        compiled_artifacts_lookup, registered_lookup. cbn [app].
      split.
      * intros a [Hin|Hin]%in_app_or; [exact (Hcompiled1 a Hin)|].
        destruct (Hcompiled2 a Hin) as (Haccess & name' & Hname' & Hres).
        split; [exact Haccess|]. exists name'.
        split; [right; exact Hname' | exact Hres].
      * intros tool [Hin|Hin]%in_app_or.
        -- destruct (Hregistered1 tool Hin) as (a & Ha & Htool).
           exists a. split; [apply in_or_app; left; exact Ha | exact Htool].
        -- destruct (Hregistered2 tool Hin) as (a & Ha & Htool).
           exists a. split; [apply in_or_app; right; exact Ha | exact Htool].
    + unfold ret, events_of. cbn [fst snd].
      rewrite app_nil_r, !compiled_artifacts_app, !registered_app,
        compiled_artifacts_lookup, registered_lookup. cbn [app].
      split; assumption.
Qed.

Lemma AddToolDependency_inventory_events config_obj tool args :
  emits_only is_inventory_event (AddToolDependency svc config_obj tool args).
Proof.
  intros w. rewrite AddToolDependency_run. reflexivity.
Qed.

Lemma getDependentTools_loop_lookups config_obj tools args (w : W) :
  let r := getDependentTools_loop svc config_obj tools args w in
  world_of r = w
  /\ exists n, events_of r = map InvGetToolInfo (take n tools).
Proof.
  cbv zeta. revert args. induction tools as [|tool rest IH]; intros args.
  - split; [reflexivity|]. exists 0%nat. reflexivity.
  - cbn [getDependentTools_loop]. rewrite bind_run, AddToolDependency_run.
    destruct (match GetToolInfo svc config_obj tool (inventory w) with
              | inl _ => _ | inr _ => _ end) as [[e|] args1].
    + split; [reflexivity|]. exists 1%nat. reflexivity.
    + destruct (IH args1) as [Hw [n Hevs]].
      destruct (getDependentTools_loop svc config_obj rest args1 w)
        as [[r evs] w'].
      unfold world_of, events_of in *. cbn [fst snd] in *.
      split; [exact Hw|]. exists (S n). rewrite Hevs. reflexivity.
Qed.

(** The calls of [CompileCollectorArgs] are those of its loop, followed by
    calls that neither compile an artifact nor register a tool. *)
Lemma CompileCollectorArgs_after_loop config_obj principal repository
    collector_request (w : W) :
  exists tail,
    events_of (CompileCollectorArgs svc config_obj principal repository
                 collector_request w) =
    events_of (compile_artifacts svc config_obj principal repository
                 collector_request
                 (ArtifactCollectorArgs.Artifacts collector_request)
                 (new_args collector_request) w) ++ tail
    /\ compiled_artifacts tail = []
    /\ registered tail = [].
Proof.
  unfold CompileCollectorArgs. rewrite bind_run.
  fold (new_args collector_request).
  destruct (compile_artifacts svc config_obj principal repository
              collector_request
              (ArtifactCollectorArgs.Artifacts collector_request)
              (new_args collector_request) w) as [[[args|e] evs1] w1].
  2:{ exists []. unfold ret, events_of. cbn. auto. }
  rewrite bind_run. unfold repo_Populate.
  destruct (Repository.PopulateArtifactsVQLCollectorArgs repository args)
    as [args1|e].
  2:{ exists [RepoPopulate]. unfold ret, events_of. cbn. auto. }
  destruct (AddArtifactCollectorArgs config_obj args1 collector_request)
    as [[e|] args2].
  { exists [RepoPopulate]. unfold ret, events_of. cbn. auto. }
  rewrite bind_run. unfold getDependentTools.
  destruct (getDependentTools_loop_lookups config_obj
              (VQLCollectorArgs.Tools args2) args2 w1) as [_ [n Hevs]].
  destruct (getDependentTools_loop svc config_obj
              (VQLCollectorArgs.Tools args2) args2 w1)
    as [[[err args3] evs2] w2].
  unfold events_of in Hevs. cbn [fst snd] in Hevs. subst evs2.
  assert (Hlookups : forall names,
            compiled_artifacts (map InvGetToolInfo names) = []
            /\ registered (map InvGetToolInfo names) = []).
  { induction names as [|? ? [IH1 IH2]]; split; try reflexivity.
    - unfold compiled_artifacts in *. cbn. exact IH1.
    - unfold registered in *. cbn. exact IH2. }
  destruct (Hlookups (take n (VQLCollectorArgs.Tools args2))) as [Hc Hr].
  destruct err as [e|].
  - eexists. unfold ret, events_of. cbn [fst snd].
    rewrite app_nil_r. split; [reflexivity|].
    rewrite compiled_artifacts_app, registered_app, Hc, Hr. auto.
  - rewrite bind_run. unfold artifacts_Obfuscate.
    destruct (Obfuscate svc config_obj args3) as [err args4].
    eexists. unfold ret, events_of. cbn [fst snd].
    rewrite app_nil_r. split; [reflexivity|].
    rewrite !compiled_artifacts_app, !registered_app, Hc, Hr. auto.
Qed.

(** X2. In every run of [CompileCollectorArgs], an artifact is handed to
    [repository.Compile] only after [CheckAccess] granted the principal
    access to it, and it is the artifact a name of the request stands for;
    a tool is handed to [AddTool] only if an artifact that was compiled
    declares it. *)
Theorem compiled_only_with_access (config_obj : Config.t) (principal : string)
    (repository : Repository.t) (collector_request : ArtifactCollectorArgs.t)
    (w : W) :
  let r := CompileCollectorArgs svc config_obj principal repository
             collector_request w in
  (forall artifact,
     In artifact (compiled_artifacts (events_of r)) ->
     Repository.CheckAccess repository config_obj artifact principal = None
     /\ exists name,
          In name (ArtifactCollectorArgs.Artifacts collector_request)
          /\ resolve repository collector_request name = Some artifact)
  /\ (forall tool,
        In tool (registered (events_of r)) ->
        exists artifact,
          In artifact (compiled_artifacts (events_of r))
          /\ In tool (Artifact.Tools artifact)).
Proof.
  cbv zeta.
  destruct (CompileCollectorArgs_after_loop config_obj principal repository
              collector_request w) as (tail & -> & Hcompiled & Hregistered).
  rewrite compiled_artifacts_app, registered_app, Hcompiled, Hregistered,
    !app_nil_r.
  apply compile_artifacts_access.
Qed.

(** ** The loop over the artifacts stops at the first error *)

(** X3. When the loop got through the names [pre] and the turn of the next
    name [x] fails, for whatever reason, [CompileCollectorArgs] returns that
    error with the calls made so far: the names after [x] are never looked
    up, whatever they are. *)
Theorem CompileCollectorArgs_stops_at_first_error (config_obj : Config.t)
    (principal : string) (repository : Repository.t)
    (collector_request : ArtifactCollectorArgs.t) (w w1 w2 : W)
    (pre post : list string) (x : string) (args1 : VQLCollectorArgs.t)
    (e : error) (evs1 evs2 : list Event) :
  ArtifactCollectorArgs.Artifacts collector_request = pre ++ x :: post ->
  compile_artifacts svc config_obj principal repository collector_request
    pre (new_args collector_request) w = (inl args1, evs1, w1) ->
  compile_artifact svc config_obj principal repository collector_request
    x args1 w1 = (inr e, evs2, w2) ->
  CompileCollectorArgs svc config_obj principal repository collector_request w
  = (CompiledNil e, evs1 ++ evs2, w2)
  /\ forall name, In (RepoGet name) (evs1 ++ evs2) ->
       exists name', In name' (pre ++ [x])
                     /\ (name = name' \/ name = "Custom." +:+ name').
Proof.
  intros Hnames Hpre Hx.
  assert (Hloop :
    compile_artifacts svc config_obj principal repository collector_request
      (pre ++ x :: post) (new_args collector_request) w =
    (inr e, evs1 ++ evs2, w2)).
  { rewrite compile_artifacts_app, Hpre. cbn [compile_artifacts].
    rewrite bind_run, Hx. unfold ret. rewrite app_nil_r. reflexivity. }
  split.
  - apply CompileCollectorArgs_loop_error. rewrite Hnames. exact Hloop.
  - assert (Hgets : forall names args w0 name,
              In (RepoGet name)
                (events_of (compile_artifacts svc config_obj principal
                              repository collector_request names args w0)) ->
              exists name', In name' names
                            /\ (name = name' \/ name = "Custom." +:+ name')).
    { induction names as [|n rest IH]; intros args w0 name.
      - intros [].
      - cbn [compile_artifacts]. rewrite bind_run, compile_artifact_run.
        assert (Hlookup : In (RepoGet name)
                            (lookup_calls repository collector_request n) ->
                          name = n \/ name = "Custom." +:+ n).
        { unfold lookup_calls.
          destruct (ArtifactCollectorArgs.AllowCustomOverrides
                      collector_request);
            [destruct (Repository.Get repository ("Custom." +:+ n))|];
            cbn [In]; intros Hin;
            repeat destruct Hin as [Hin|Hin];
            try (injection Hin as <-); auto; destruct Hin. }
        assert (Hfound : forall a args' w',
                  ~ In (RepoGet name)
                      (events_of (compile_found svc config_obj principal
                                    repository a args' w'))).
        { intros a args' w' Hin.
          unfold compile_found, EnsureToolsDeclared in Hin.
          rewrite bind_run in Hin. unfold repo_CheckAccess in Hin.
          destruct (Repository.CheckAccess repository config_obj a principal).
          { destruct Hin as [Hin|[]]. discriminate Hin. }
          rewrite bind_run in Hin. unfold repo_Compile in Hin.
          destruct (Repository.Compile repository a args').
          2:{ destruct Hin as [Hin|[Hin|[]]]; discriminate Hin. }
          rewrite bind_run in Hin.
          pose proof (EnsureToolsDeclared_loop_inventory_events config_obj
                        (Artifact.Tools a) w') as Hinv.
          destruct (EnsureToolsDeclared_loop svc config_obj
                      (Artifact.Tools a) w') as [[err evs] w''].
          unfold events_of in Hinv, Hin. cbn [fst snd] in Hinv, Hin.
          rewrite forallb_forall in Hinv.
          assert (Hevs : ~ In (RepoGet name) evs).
          { intros Hget. specialize (Hinv _ Hget). discriminate Hinv. }
          destruct err; unfold ret in Hin; cbn [fst snd app] in Hin;
            rewrite app_nil_r in Hin;
            destruct Hin as [Hin|[Hin|Hin]];
            try discriminate Hin; contradiction. }
        destruct (resolve repository collector_request n) as [a|].
        + specialize (Hfound a args w0).
          destruct (compile_found svc config_obj principal repository a
                      args w0) as [[[args'|e'] evs'] w'].
          * specialize (IH args' w' name).
            destruct (compile_artifacts svc config_obj principal repository
                        collector_request rest args' w') as [[r evs''] w''].
            unfold events_of in *. cbn [fst snd] in *.
            intros [[Hin|Hin]%in_app_or|Hin]%in_app_or.
            -- exists n. split; [left; reflexivity | auto].
            -- contradiction.
            -- destruct (IH Hin) as (name' & Hname' & Hor).
               exists name'. split; [right; exact Hname' | exact Hor].
          * unfold ret, events_of in *. cbn [fst snd] in *.
            rewrite app_nil_r. intros [Hin|Hin]%in_app_or.
            -- exists n. split; [left; reflexivity | auto].
            -- contradiction.
        + unfold ret, events_of. cbn [fst snd]. rewrite app_nil_r.
          intros Hin. exists n. split; [left; reflexivity | auto]. }
    intros name Hin.
    assert (Hprefix :
      compile_artifacts svc config_obj principal repository collector_request
        (pre ++ [x]) (new_args collector_request) w =
      (inr e, evs1 ++ evs2, w2)).
    { rewrite compile_artifacts_app, Hpre. cbn [compile_artifacts].
      rewrite bind_run, Hx. unfold ret. rewrite app_nil_r. reflexivity. }
    apply (Hgets (pre ++ [x]) (new_args collector_request) w name).
    rewrite Hprefix. exact Hin.
Qed.

(** ** Tools the artifacts declare *)

(** X4. When the inventory already has a descriptor under the name of every
    tool an artifact declares, [EnsureToolsDeclared] looks each of them up, in
    order, registers nothing, returns no error and leaves the world as it
    was: a registration made earlier is never replaced by the artifact's
    own. *)
Theorem EnsureToolsDeclared_known_tools (config_obj : Config.t)
    (artifact : Artifact.t) (w : W) :
  (forall tool, In tool (Artifact.Tools artifact) ->
     exists tool_info,
       GetToolInfo svc config_obj (Tool.Name tool) (inventory w)
       = inl tool_info) ->
  EnsureToolsDeclared svc config_obj artifact w =
  (None,
   map (fun tool => InvGetToolInfo (Tool.Name tool)) (Artifact.Tools artifact),
   w).
Proof.
  unfold EnsureToolsDeclared.
  induction (Artifact.Tools artifact) as [|tool rest IH]; intros Hknown.
  - reflexivity.
  - cbn [EnsureToolsDeclared_loop]. rewrite bind_run. unfold inv_GetToolInfo.
    destruct (Hknown tool) as (tool_info & ->); [left; reflexivity|].
    rewrite IH by (intros t Ht; apply Hknown; right; exact Ht).
    reflexivity.
Qed.

(** X5. When the tools [known] are in the inventory, the next tool [tool]
    is not and the inventory refuses to register it, [EnsureToolsDeclared]
    returns the error of [AddTool] right after that call: the tools declared
    after [tool] are neither looked up nor registered. *)
Theorem EnsureToolsDeclared_registration_error (config_obj : Config.t)
    (artifact : Artifact.t) (w : W) (known rest : list Tool.t)
    (tool : Tool.t) (unknown e : error) (i : I) :
  Artifact.Tools artifact = known ++ tool :: rest ->
  (forall t, In t known ->
     exists tool_info,
       GetToolInfo svc config_obj (Tool.Name t) (inventory w)
       = inl tool_info) ->
  GetToolInfo svc config_obj (Tool.Name tool) (inventory w) = inr unknown ->
  AddTool svc config_obj tool (inventory w) = (Some e, i) ->
  EnsureToolsDeclared svc config_obj artifact w =
  (Some e,
   map (fun t => InvGetToolInfo (Tool.Name t)) known
   ++ [InvGetToolInfo (Tool.Name tool); InvAddTool tool],
   mkWorld i (datastore w) (os w) (NextFlowIdForTests w)).
Proof.
  unfold EnsureToolsDeclared. intros -> Hknown Hunknown Hadd.
  induction known as [|t known IH].
  - cbn [app EnsureToolsDeclared_loop map]. rewrite bind_run.
    unfold inv_GetToolInfo. rewrite Hunknown, bind_run.
    unfold inv_AddTool. rewrite Hadd. reflexivity.
  - cbn [app EnsureToolsDeclared_loop map]. rewrite bind_run.
    unfold inv_GetToolInfo.
    destruct (Hknown t) as (tool_info & ->); [left; reflexivity|].
    rewrite IH by (intros t' Ht'; apply Hknown; right; exact Ht').
    reflexivity.
Qed.

(** X6. First registration wins.  Provided [AddTool] changes nothing of the
    inventory but what is found under the name of the tool it is given, a
    descriptor the inventory has before [CompileCollectorArgs] is the one
    it has after, whatever the artifacts declare and however the
    compilation ends. *)
Theorem known_descriptor_survives_compilation (config_obj : Config.t)
    (principal : string) (repository : Repository.t)
    (collector_request : ArtifactCollectorArgs.t) (w : W)
    (name : string) (tool_info : Tool.t) :
  (forall tool i err i' other,
     AddTool svc config_obj tool i = (err, i') ->
     other <> Tool.Name tool ->
     GetToolInfo svc config_obj other i' =
     GetToolInfo svc config_obj other i) ->
  GetToolInfo svc config_obj name (inventory w) = inl tool_info ->
  GetToolInfo svc config_obj name
    (inventory (world_of (CompileCollectorArgs svc config_obj principal
                            repository collector_request w)))
  = inl tool_info.
Proof.
  intros Hlaw.
  assert (Hdeclare : forall tools (w0 : W),
            GetToolInfo svc config_obj name (inventory w0) = inl tool_info ->
            GetToolInfo svc config_obj name
              (inventory (world_of (EnsureToolsDeclared_loop svc config_obj
                                      tools w0))) = inl tool_info).
  { induction tools as [|tool rest IH]; intros w0 Hknown; [exact Hknown|].
    cbn [EnsureToolsDeclared_loop]. rewrite bind_run.
    unfold inv_GetToolInfo.
    destruct (GetToolInfo svc config_obj (Tool.Name tool) (inventory w0))
      as [known|unknown] eqn:Htool.
    - specialize (IH w0 Hknown).
      destruct (EnsureToolsDeclared_loop svc config_obj rest w0)
        as [[r evs] w']. exact IH.
    - rewrite bind_run. unfold inv_AddTool.
      destruct (AddTool svc config_obj tool (inventory w0)) as [err i]
        eqn:Hadd.
      assert (Hafter : GetToolInfo svc config_obj name i = inl tool_info).
      { rewrite (Hlaw tool (inventory w0) err i name Hadd); [exact Hknown|].
        intros ->. rewrite Hknown in Htool. discriminate Htool. }
      destruct err as [e|]; [exact Hafter|].
      match goal with
      | |- context [EnsureToolsDeclared_loop _ _ _ ?w'] =>
          specialize (IH w' Hafter);
          destruct (EnsureToolsDeclared_loop svc config_obj rest w')
            as [[r evs] w'']
      end.
      exact IH. }
  assert (Hloop : forall names args (w0 : W),
            GetToolInfo svc config_obj name (inventory w0) = inl tool_info ->
            GetToolInfo svc config_obj name
              (inventory (world_of (compile_artifacts svc config_obj principal
                                      repository collector_request names args
                                      w0))) = inl tool_info).
  { induction names as [|n rest IH]; intros args w0 Hknown; [exact Hknown|].
    cbn [compile_artifacts]. rewrite bind_run, compile_artifact_run.
    destruct (resolve repository collector_request n) as [artifact|];
      [|exact Hknown].
    unfold compile_found. rewrite bind_run. unfold repo_CheckAccess.
    destruct (Repository.CheckAccess repository config_obj artifact principal);
      [exact Hknown|].
    rewrite bind_run. unfold repo_Compile.
    destruct (Repository.Compile repository artifact args) as [args1|e];
      [|exact Hknown].
    rewrite bind_run. unfold EnsureToolsDeclared.
    specialize (Hdeclare (Artifact.Tools artifact) w0 Hknown).
    destruct (EnsureToolsDeclared_loop svc config_obj
                (Artifact.Tools artifact) w0) as [[[e|] evs] w1];
      unfold world_of in Hdeclare; cbn [snd] in Hdeclare;
      [exact Hdeclare|].
    unfold ret. cbv beta iota.
    specialize (IH args1 w1 Hdeclare).
    destruct (compile_artifacts svc config_obj principal repository
                collector_request rest args1 w1) as [[r evs'] w2].
    exact IH. }
  intros Hknown. rewrite CompileCollectorArgs_phases.
  unfold merged_program. rewrite bind_run.
  specialize (Hloop (ArtifactCollectorArgs.Artifacts collector_request)
                (new_args collector_request) w Hknown).
  destruct (compile_artifacts svc config_obj principal repository
              collector_request
              (ArtifactCollectorArgs.Artifacts collector_request)
              (new_args collector_request) w) as [[[args|e] evs1] w1];
    unfold world_of in Hloop; cbn [snd] in Hloop; [|exact Hloop].
  rewrite bind_run. unfold repo_Populate.
  destruct (Repository.PopulateArtifactsVQLCollectorArgs repository args)
    as [args1|e]; [|exact Hloop].
  destruct (AddArtifactCollectorArgs config_obj args1 collector_request)
    as [[e|] args2]; [exact Hloop|].
  unfold ret. cbv beta iota. unfold getDependentTools.
  destruct (getDependentTools_loop_lookups config_obj
              (VQLCollectorArgs.Tools args2) args2 w1) as [Hw _].
  destruct (getDependentTools_loop svc config_obj
              (VQLCollectorArgs.Tools args2) args2 w1)
    as [[[err args3] evs2] w2].
  unfold world_of in Hw. cbn [snd] in Hw. subst w2.
  destruct err; exact Hloop.
Qed.

(** ** Tools the program needs *)

(** X7. When a server URL is configured, the tools [pre] are in the
    inventory and the next tool of the program is not, [getDependentTools]
    returns the error of the inventory after looking up that tool; the
    program it leaves has the entries of the tools [pre] appended, the tools
    after it are not looked up, and [CompileCollectorArgs] returns that error
    and no program. *)
Theorem getDependentTools_unknown_tool (config_obj : Config.t)
    (args : VQLCollectorArgs.t) (w : W) (url0 : string) (urls : list string)
    (pre post : list string) (tool : string) (e : error) :
  ClientConfig.ServerUrls (Config.Client config_obj) = url0 :: urls ->
  VQLCollectorArgs.Tools args = pre ++ tool :: post ->
  (forall t, In t pre ->
     exists tool_info,
       GetToolInfo svc config_obj t (inventory w) = inl tool_info) ->
  GetToolInfo svc config_obj tool (inventory w) = inr e ->
  getDependentTools svc config_obj args w =
  ((Some e,
    VQLCollectorArgs.with_Env
      (VQLCollectorArgs.Env args
       ++ flat_map (tool_entries svc config_obj url0 (inventory w)) pre)
      args),
   map InvGetToolInfo (pre ++ [tool]), w)
  /\ forall principal repository collector_request w0 evs0,
       merged_program svc config_obj principal repository collector_request
         w0 = (inl args, evs0, w) ->
       result_of (CompileCollectorArgs svc config_obj principal repository
                    collector_request w0) = CompiledNil e.
Proof.
  intros Hurls Htools Hknown Hunknown.
  assert (Hrun :
    getDependentTools svc config_obj args w =
    ((Some e,
      VQLCollectorArgs.with_Env
        (VQLCollectorArgs.Env args
         ++ flat_map (tool_entries svc config_obj url0 (inventory w)) pre)
        args),
     map InvGetToolInfo (pre ++ [tool]), w)).
  { unfold getDependentTools. rewrite Htools. clear Htools.
    revert args Hknown.
    induction pre as [|t pre IH]; intros args0 Hknown.
    - cbn [app getDependentTools_loop flat_map map]. rewrite bind_run.
      rewrite AddToolDependency_run, Hunknown. unfold ret.
      rewrite !app_nil_r, with_Env_same. reflexivity.
    - cbn [app getDependentTools_loop flat_map map]. rewrite bind_run.
      rewrite AddToolDependency_run.
      destruct (Hknown t) as (tool_info & Hinfo); [left; reflexivity|].
      rewrite Hinfo, Hurls. cbv beta iota zeta.
      rewrite IH by (intros t' Ht'; apply Hknown; right; exact Ht').
      unfold tool_entries at 2. rewrite Hinfo.
      destruct args0. unfold VQLCollectorArgs.with_Env.
      cbn [VQLCollectorArgs.Env VQLCollectorArgs.Query VQLCollectorArgs.MaxRow
           VQLCollectorArgs.OpsPerSecond VQLCollectorArgs.Timeout
           VQLCollectorArgs.Tools app].
      rewrite <- !app_assoc. reflexivity. }
  split; [exact Hrun|].
  intros principal repository collector_request w0 evs0 Hmerged.
  rewrite CompileCollectorArgs_phases, Hmerged, Hrun. reflexivity.
Qed.

(** ** What the launcher's own steps change of a program *)

Lemma getDependentTools_loop_appends config_obj tools args (w : W) :
  exists suffix,
    (result_of (getDependentTools_loop svc config_obj tools args w)).2 =
    VQLCollectorArgs.with_Env (VQLCollectorArgs.Env args ++ suffix) args
    /\ Forall (fun e => exists rest, VQLEnv.Key e = "Tool_" +:+ rest) suffix.
Proof.
  revert args. induction tools as [|tool rest IH]; intros args.
  - exists []. cbn. rewrite app_nil_r, with_Env_same. split; constructor.
  - cbn [getDependentTools_loop]. rewrite bind_run, AddToolDependency_run.
    destruct (GetToolInfo svc config_obj tool (inventory w)) as [tool_info|e].
    2:{ exists []. cbn. rewrite app_nil_r, with_Env_same. split; constructor. }
    cbv zeta.
    destruct (ClientConfig.ServerUrls (Config.Client config_obj))
      as [|url0 urls].
    + eexists. unfold ret, result_of. cbn [fst snd]. split; [reflexivity|].
      repeat constructor; eexists; reflexivity.
    + cbv beta iota zeta.
      match goal with
      | |- context [getDependentTools_loop _ _ _ ?a w] =>
          destruct (IH a) as (suffix & Hsuffix & Hkeys);
          destruct (getDependentTools_loop svc config_obj rest a w)
            as [[[err args'] evs] w']
      end.
      unfold result_of in *. cbn [fst snd] in *. rewrite Hsuffix.
      exists ([VQLEnv.mk ("Tool_" +:+ Tool.Name tool_info +:+ "_HASH")
                 (Tool.Hash tool_info);
               VQLEnv.mk ("Tool_" +:+ Tool.Name tool_info +:+ "_FILENAME")
                 (Tool.Filename tool_info);
               VQLEnv.mk ("Tool_" +:+ Tool.Name tool_info +:+ "_URL")
                 (tool_url url0 tool_info)] ++ suffix).
      split.
      * destruct args. unfold VQLCollectorArgs.with_Env.
        cbn [VQLCollectorArgs.Env VQLCollectorArgs.Query
             VQLCollectorArgs.MaxRow VQLCollectorArgs.OpsPerSecond
             VQLCollectorArgs.Timeout VQLCollectorArgs.Tools].
        rewrite <- !app_assoc. reflexivity.
      * apply Forall_app. split; [|exact Hkeys].
        repeat constructor; eexists; reflexivity.
Qed.

Lemma overrides_keep_other_fields config_obj
    collector_request (args : VQLCollectorArgs.t) :
  VQLCollectorArgs.with_Env (VQLCollectorArgs.Env args)
    (AddArtifactCollectorArgs config_obj args collector_request).2 = args.
Proof.
  unfold AddArtifactCollectorArgs.
  destruct (ArtifactCollectorArgs.Parameters collector_request);
    destruct args; reflexivity.
Qed.

(** X8. Applying the overrides of a request and resolving the tools change
    the environment of a program and nothing else: queries, row cap, rate,
    timeout and tools are the same after, also when the tool resolution
    returns an error.  The overrides keep the length of the environment and
    its keys; the tool resolution keeps the entries that were there and
    appends entries whose keys start with "Tool_". *)
Theorem launcher_steps_change_the_environment_only (config_obj : Config.t)
    (collector_request : ArtifactCollectorArgs.t)
    (args : VQLCollectorArgs.t) (w : W) :
  let overridden :=
    (AddArtifactCollectorArgs config_obj args collector_request).2 in
  let resolved := (result_of (getDependentTools svc config_obj args w)).2 in
  VQLCollectorArgs.with_Env (VQLCollectorArgs.Env args) overridden = args
  /\ map VQLEnv.Key (VQLCollectorArgs.Env overridden) =
     map VQLEnv.Key (VQLCollectorArgs.Env args)
  /\ exists suffix,
       resolved =
       VQLCollectorArgs.with_Env (VQLCollectorArgs.Env args ++ suffix) args
       /\ Forall (fun e => exists rest, VQLEnv.Key e = "Tool_" +:+ rest)
            suffix.
Proof.
  cbv zeta. split; [|split].
  - apply overrides_keep_other_fields.
  - unfold AddArtifactCollectorArgs.
    destruct (ArtifactCollectorArgs.Parameters collector_request);
      [|reflexivity].
    destruct args. cbn. apply AddArtifactCollectorArgs_loop_keys.
  - apply getDependentTools_loop_appends.
Qed.

Lemma limits_with_Env (env : list VQLEnv.t) (args : VQLCollectorArgs.t) :
  limits (VQLCollectorArgs.with_Env env args) = limits args.
Proof. reflexivity. Qed.

(** X9. The row cap does not depend on the request.  Provided the
    repository and the obfuscation leave the row cap, the rate and the
    timeout of the program they are handed as they are, every program
    [CompileCollectorArgs] returns has a row cap of 1000 and the rate and
    timeout of the request. *)
Theorem CompileCollectorArgs_limits (config_obj : Config.t)
    (principal : string) (repository : Repository.t)
    (collector_request : ArtifactCollectorArgs.t) (w : W)
    (program : VQLCollectorArgs.t) (err : option error) :
  (forall artifact args args',
     Repository.Compile repository artifact args = inl args' ->
     limits args' = limits args) ->
  (forall args args',
     Repository.PopulateArtifactsVQLCollectorArgs repository args = inl args' ->
     limits args' = limits args) ->
  (forall args, limits (Obfuscate svc config_obj args).2 = limits args) ->
  result_of (CompileCollectorArgs svc config_obj principal repository
               collector_request w) = CompiledArgs program err ->
  VQLCollectorArgs.MaxRow program = 1000
  /\ VQLCollectorArgs.OpsPerSecond program =
     ArtifactCollectorArgs.OpsPerSecond collector_request
  /\ VQLCollectorArgs.Timeout program =
     ArtifactCollectorArgs.Timeout collector_request.
Proof.
  intros Hcompile Hpopulate Hobfuscate.
  assert (Hloop : forall names args (w0 : W) args',
            result_of (compile_artifacts svc config_obj principal repository
                         collector_request names args w0) = inl args' ->
            limits args' = limits args).
  { induction names as [|name rest IH]; intros args w0 args'.
    - cbn. intros [= <-]. reflexivity.
    - cbn [compile_artifacts]. rewrite bind_run.
      pose proof (compile_artifact_compiled config_obj principal repository
                    collector_request name args w0) as Hturn.
      cbv zeta in Hturn.
      destruct (compile_artifact svc config_obj principal repository
                  collector_request name args w0) as [[[args1|e] evs1] w1];
        [|discriminate].
      destruct (Hturn args1 eq_refl) as (artifact & _ & Hc & _).
      specialize (IH args1 w1 args').
      destruct (compile_artifacts svc config_obj principal repository
                  collector_request rest args1 w1) as [[r evs2] w2].
      unfold result_of in *. cbn [fst snd] in *. intros Hr.
      rewrite (IH Hr). exact (Hcompile _ _ _ Hc). }
  rewrite CompileCollectorArgs_phases. unfold merged_program.
  rewrite bind_run.
  specialize (Hloop (ArtifactCollectorArgs.Artifacts collector_request)
                (new_args collector_request) w).
  destruct (compile_artifacts svc config_obj principal repository
              collector_request
              (ArtifactCollectorArgs.Artifacts collector_request)
              (new_args collector_request) w) as [[[args|e] evs1] w1];
    [|discriminate].
  specialize (Hloop args eq_refl).
  rewrite bind_run. unfold repo_Populate.
  destruct (Repository.PopulateArtifactsVQLCollectorArgs repository args)
    as [args1|e] eqn:Hp; [|discriminate].
  apply Hpopulate in Hp.
  pose proof (overrides_keep_other_fields config_obj
                collector_request args1) as Hoverride.
  destruct (AddArtifactCollectorArgs config_obj args1 collector_request)
    as [[e|] args2]; [discriminate|].
  cbn [snd] in Hoverride.
  unfold ret. cbv beta iota. unfold getDependentTools.
  destruct (getDependentTools_loop_appends config_obj
              (VQLCollectorArgs.Tools args2) args2 w1)
    as (suffix & Hsuffix & _).
  destruct (getDependentTools_loop svc config_obj
              (VQLCollectorArgs.Tools args2) args2 w1)
    as [[[err' args3] evs2] w2].
  unfold result_of in Hsuffix. cbn [fst snd] in Hsuffix.
  destruct err' as [e|]; [discriminate|].
  unfold result_of. cbn [fst snd]. intros [= <- _].
  assert (Hlimits : limits (Obfuscate svc config_obj args3).2 =
                    limits (new_args collector_request)).
  { rewrite Hobfuscate, Hsuffix, limits_with_Env.
    rewrite <- (limits_with_Env (VQLCollectorArgs.Env args1) args2).
    rewrite Hoverride, Hp, Hloop. reflexivity. }
  unfold limits in Hlimits. cbn in Hlimits. injection Hlimits as -> -> ->.
  repeat split.
Qed.

(** ** How overrides compose *)

(** X10. Of two overrides with the same key applied one after the other,
    the later one prevails: the result is that of the later one alone.  Two
    overrides with different keys can be applied in either order. *)
Theorem overrides_compose (p1 p2 : VQLEnv.t) (env : list VQLEnv.t) :
  (VQLEnv.Key p1 = VQLEnv.Key p2 ->
   addOrReplaceParameter p2 (addOrReplaceParameter p1 env) =
   addOrReplaceParameter p2 env)
  /\ (VQLEnv.Key p1 <> VQLEnv.Key p2 ->
      addOrReplaceParameter p2 (addOrReplaceParameter p1 env) =
      addOrReplaceParameter p1 (addOrReplaceParameter p2 env)).
Proof.
  split.
  - intros Hkey. induction env as [|item rest IH]; [reflexivity|].
    rewrite !addOrReplaceParameter_cons, Hkey.
    destruct (String.eqb (VQLEnv.Key item) (VQLEnv.Key p2)) eqn:Hitem.
    + rewrite addOrReplaceParameter_cons. cbn [VQLEnv.Key].
      rewrite Hitem. reflexivity.
    + rewrite addOrReplaceParameter_cons, Hitem, IH. reflexivity.
  - intros Hkey. induction env as [|item rest IH]; [reflexivity|].
    rewrite !addOrReplaceParameter_cons.
    destruct (String.eqb_spec (VQLEnv.Key item) (VQLEnv.Key p1)) as [H1|H1];
      destruct (String.eqb_spec (VQLEnv.Key item) (VQLEnv.Key p2)) as [H2|H2];
      try congruence;
      rewrite !addOrReplaceParameter_cons; cbn [VQLEnv.Key].
    + apply String.eqb_neq in H2. apply String.eqb_eq in H1.
      rewrite H1, H2. reflexivity.
    + apply String.eqb_neq in H1. apply String.eqb_eq in H2.
      rewrite H1, H2. reflexivity.
    + apply String.eqb_neq in H1. apply String.eqb_neq in H2.
      rewrite H1, H2, IH. reflexivity.
Qed.

Lemma addOrReplaceParameter_distinct_keys (param : VQLEnv.t)
    (env : list VQLEnv.t) :
  NoDup (map VQLEnv.Key env) ->
  addOrReplaceParameter param env =
  map (fun e => if String.eqb (VQLEnv.Key e) (VQLEnv.Key param)
                then VQLEnv.mk (VQLEnv.Key e) (VQLEnv.Value param) else e)
      env.
Proof.
  induction env as [|item rest IH]; [reflexivity|].
  cbn [map]. intros [Hnotin Hrest]%NoDup_cons.
  rewrite addOrReplaceParameter_cons.
  destruct (String.eqb_spec (VQLEnv.Key item) (VQLEnv.Key param)) as [Heq|_].
  - f_equal. clear IH Hrest. induction rest as [|e rest IH]; [reflexivity|].
    cbn [map] in *.
    apply not_elem_of_cons in Hnotin as [Hne Hnotin].
    destruct (String.eqb_spec (VQLEnv.Key e) (VQLEnv.Key param)) as [He|_];
      [congruence|].
    f_equal. apply IH, Hnotin.
  - f_equal. apply IH, Hrest.
Qed.

Lemma AddArtifactCollectorArgs_loop_last_value (items env : list VQLEnv.t) :
  NoDup (map VQLEnv.Key env) ->
  AddArtifactCollectorArgs_loop items env = map (override_entry items) env.
Proof.
  intros Hnodup. induction items as [|item items IH] using rev_ind.
  - cbn. unfold override_entry. cbn. rewrite map_id. reflexivity.
  - rewrite AddArtifactCollectorArgs_loop_snoc, IH.
    rewrite addOrReplaceParameter_distinct_keys.
    + rewrite map_map. apply map_ext. intros e.
      rewrite override_entry_key. unfold override_entry at 2.
      rewrite rev_unit. cbn [find].
      destruct (String.eqb (VQLEnv.Key e) (VQLEnv.Key item)); reflexivity.
    + rewrite map_map.
      rewrite (map_ext _ VQLEnv.Key (fun e => override_entry_key items e)).
      exact Hnodup.
Qed.

(** X11. On a program whose environment has no duplicate key, the overrides
    of a request give every entry the value of the last override that has
    its key and leave the entries no override names as they are; the entries
    keep their order and number. *)
Theorem overrides_last_value_per_key (config_obj : Config.t)
    (args : VQLCollectorArgs.t) (collector_request : ArtifactCollectorArgs.t)
    (parameters : ArtifactParameters.t) :
  ArtifactCollectorArgs.Parameters collector_request = Some parameters ->
  NoDup (map VQLEnv.Key (VQLCollectorArgs.Env args)) ->
  AddArtifactCollectorArgs config_obj args collector_request =
  (None,
   VQLCollectorArgs.with_Env
     (map (override_entry (ArtifactParameters.Env parameters))
        (VQLCollectorArgs.Env args)) args).
Proof.
  intros Hparameters Hnodup. unfold AddArtifactCollectorArgs.
  rewrite Hparameters, AddArtifactCollectorArgs_loop_last_value by exact Hnodup.
  reflexivity.
Qed.

(** ** What a scheduling call leaves behind *)

(** X12. When [ScheduleArtifactCollectionFromCollectorArgs] returns without
    error, its calls were, in this order: the data store is obtained; the
    collection context (state RUNNING, the request, the client, the session
    id that is returned) is stored at the path of the session; one task per
    program is queued for the client, in the order of the programs, each with
    that session id, the request id [ProcessVQLResponses], the program and the
    urgency of the request; the list of exactly these tasks is stored at the
    task path of the session. *)
Theorem schedule_success_calls (config_obj : Config.t)
    (collector_request : ArtifactCollectorArgs.t)
    (args : list VQLCollectorArgs.t) (w : W) :
  let r := ScheduleArtifactCollectionFromCollectorArgs svc config_obj
             collector_request args w in
  (result_of r).2 = None ->
  exists ctx,
    let client_id := ArtifactCollectorArgs.ClientId collector_request in
    let session_id := ArtifactCollectorContext.SessionId ctx in
    let tasks :=
      map (fun arg =>
             GrrMessage.mk session_id (ProcessVQLResponses svc) arg
               (ArtifactCollectorArgs.Urgent collector_request)) args in
    client_id <> ""%string
    /\ result_of r = (session_id, None)
    /\ ArtifactCollectorContext.ClientId ctx = client_id
    /\ ArtifactCollectorContext.Request ctx = collector_request
    /\ ArtifactCollectorContext.State ctx = RUNNING
    /\ events_of r =
       [DbGet;
        DbSetSubject (FlowPath svc client_id session_id) (SubjectContext ctx)
          true]
       ++ map (fun task => DbQueue client_id task true) tasks
       ++ [DbSetSubject (FlowTaskPath svc client_id session_id)
             (SubjectRequestDetails tasks) true].
Proof.
  cbv zeta. intros Hok.
  destruct (String.eqb_spec
              (ArtifactCollectorArgs.ClientId collector_request) "")
    as [Hclient|Hclient].
  { rewrite ScheduleArtifactCollectionFromCollectorArgs_no_client in Hok
      by exact Hclient. discriminate Hok. }
  destruct (ScheduleArtifactCollectionFromCollectorArgs_run config_obj
              collector_request args w Hclient)
    as (ctx & done & rest & Hctx & Hreq & Hstate & -> & Hrun).
  exists ctx. split; [exact Hclient|].
  assert (Htask : forall session_id,
            new_task svc collector_request session_id =
            fun arg => GrrMessage.mk session_id (ProcessVQLResponses svc) arg
                         (ArtifactCollectorArgs.Urgent collector_request)).
  { intros session_id. unfold new_task.
    destruct (ArtifactCollectorArgs.Urgent collector_request); reflexivity. }
  destruct Hrun as [[[e He] _] | [[[e He] _]
                   | [(a & rest' & [e He] & _)
                     | (err & -> & Hr & Hevs)]]];
    try (rewrite He in Hok; discriminate Hok).
  destruct err as [e|]; [rewrite Hr in Hok; discriminate Hok|].
  rewrite app_nil_r in *. rewrite Hr, Hevs, Htask, map_map.
  repeat split; assumption.
Qed.

(** X13. Tasks already queued are not taken back.  When the queue refuses a
    task, the call returns an error; the collection context of the session
    stays stored, the tasks of the programs before the refused one stay
    queued, no task of a later program is handed to the queue, and the list
    of tasks is never stored. *)
Theorem queue_failure_keeps_earlier_tasks (config_obj : Config.t)
    (collector_request : ArtifactCollectorArgs.t)
    (args : list VQLCollectorArgs.t) (w : W)
    (client_id : string) (refused : GrrMessage.t) :
  let r := ScheduleArtifactCollectionFromCollectorArgs svc config_obj
             collector_request args w in
  In (DbQueue client_id refused false) (events_of r) ->
  exists e ctx done rest,
    result_of r = (""%string, Some e)
    /\ args = done ++ GrrMessage.VQLClientAction refused :: rest
    /\ In (DbSetSubject
             (FlowPath svc client_id (GrrMessage.SessionId refused))
             (SubjectContext ctx) true) (events_of r)
    /\ map GrrMessage.VQLClientAction (enqueued (events_of r)) = done
    /\ map GrrMessage.VQLClientAction (queue_calls (events_of r)) =
       done ++ [GrrMessage.VQLClientAction refused]
    /\ forall path tasks ok,
         ~ In (DbSetSubject path (SubjectRequestDetails tasks) ok)
             (events_of r).
Proof.
  cbv zeta. intros Hrefused.
  destruct (String.eqb_spec
              (ArtifactCollectorArgs.ClientId collector_request) "")
    as [Hclient|Hclient].
  { rewrite ScheduleArtifactCollectionFromCollectorArgs_no_client in Hrefused
      by exact Hclient. destruct Hrefused. }
  destruct (ScheduleArtifactCollectionFromCollectorArgs_run config_obj
              collector_request args w Hclient)
    as (ctx & done & rest & Hctx & Hreq & Hstate & -> & Hrun).
  assert (Hqueued : forall tail,
            In (DbQueue client_id refused false)
               (map (fun a =>
                       DbQueue
                         (ArtifactCollectorArgs.ClientId collector_request)
                         (new_task svc collector_request
                            (ArtifactCollectorContext.SessionId ctx) a) true)
                    done ++ tail) ->
            In (DbQueue client_id refused false) tail).
  { intros tail [Hin|Hin]%in_app_or; [|exact Hin].
    apply in_map_iff in Hin as (a & [=] & _). }
  destruct Hrun as [[_ Hevs] | [[_ Hevs]
                   | [(a & rest' & [e He] & -> & Hevs)
                     | (err & _ & _ & Hevs)]]];
    rewrite Hevs in Hrefused |- *.
  - destruct Hrefused as [[=]|[]].
  - destruct Hrefused as [[=]|[[=]|[]]].
  - destruct Hrefused as [[=]|[[=]|Hin]].
    apply Hqueued in Hin. destruct Hin as [[= <- <-]|[]].
    exists e, ctx, done, rest'. split; [exact He|].
    split; [reflexivity|]. split; [right; left; reflexivity|].
    change (enqueued (DbGet :: ?s :: ?l)) with (enqueued l).
    change (queue_calls (DbGet :: ?s :: ?l)) with (queue_calls l).
    rewrite enqueued_app, queue_calls_app, enqueued_queued,
      queue_calls_queued, !map_app, !new_task_action.
    cbn [enqueued queue_calls flat_map app map new_task
         GrrMessage.VQLClientAction]. rewrite app_nil_r.
    split; [reflexivity|]. split; [reflexivity|].
    intros path tasks ok [[=]|[[=]|Hin]].
    apply in_app_or in Hin as [Hin|[[=]|[]]].
    apply in_map_iff in Hin as (? & [=] & _).
  - destruct Hrefused as [[=]|[[=]|Hin]].
    apply Hqueued in Hin. destruct Hin as [[=]|[]].
Qed.

(** X14. When the request carries no compiled programs and its compilation
    returns an error, also the error of the obfuscation that comes with a
    program, [ScheduleArtifactCollection] returns that error and does
    nothing more: its calls and the world it leaves are those of the
    compilation, no call to the data store is made and no identifier is
    drawn. *)
Theorem compile_error_schedules_nothing (config_obj : Config.t)
    (principal : string) (repository : Repository.t)
    (collector_request : ArtifactCollectorArgs.t) (w : W) (e : error) :
  let compiled := CompileCollectorArgs svc config_obj principal repository
                    collector_request w in
  ArtifactCollectorArgs.CompiledCollectorArgs collector_request = None ->
  (result_of compiled = CompiledNil e
   \/ exists program, result_of compiled = CompiledArgs program (Some e)) ->
  ScheduleArtifactCollection svc config_obj principal repository
    collector_request w =
  ((""%string, Some e), events_of compiled, world_of compiled)
  /\ forallb not_datastore_event (events_of compiled) = true
  /\ datastore (world_of compiled) = datastore w
  /\ os (world_of compiled) = os w
  /\ NextFlowIdForTests (world_of compiled) = NextFlowIdForTests w.
Proof.
  cbv zeta. intros Hnone Herror.
  destruct (CompileCollectorArgs_footprint config_obj principal repository
              collector_request) as [Honly Hevents].
  destruct (inventory_only_rest _ w Honly) as (Hd & Ho & Hnext).
  split; [|auto using Hevents].
  unfold ScheduleArtifactCollection. rewrite Hnone, bind_run.
  destruct (CompileCollectorArgs svc config_obj principal repository
              collector_request w) as [[compiled evs] w1].
  unfold result_of, events_of, world_of in *. cbn [fst snd] in *.
  destruct Herror as [-> | [program ->]];
    unfold ret; rewrite app_nil_r; reflexivity.
Qed.

(** X15. When the request carries no compiled programs and its compilation
    returns a program without error, [ScheduleArtifactCollection] goes on as
    [ScheduleArtifactCollectionFromCollectorArgs] on that one program in the
    world the compilation left; at most one task is handed to the queue, it
    carries that program, and when the call returns without error exactly
    that one task was queued. *)
Theorem fresh_compilation_schedules_one_task (config_obj : Config.t)
    (principal : string) (repository : Repository.t)
    (collector_request : ArtifactCollectorArgs.t) (w : W)
    (program : VQLCollectorArgs.t) :
  let compiled := CompileCollectorArgs svc config_obj principal repository
                    collector_request w in
  let scheduled :=
    ScheduleArtifactCollectionFromCollectorArgs svc config_obj
      collector_request [program] (world_of compiled) in
  let r := ScheduleArtifactCollection svc config_obj principal repository
             collector_request w in
  ArtifactCollectorArgs.CompiledCollectorArgs collector_request = None ->
  result_of compiled = CompiledArgs program None ->
  r = (result_of scheduled, events_of compiled ++ events_of scheduled,
       world_of scheduled)
  /\ (map GrrMessage.VQLClientAction (queue_calls (events_of r)) = []
      \/ map GrrMessage.VQLClientAction (queue_calls (events_of r)) =
         [program])
  /\ ((result_of r).2 = None ->
      map GrrMessage.VQLClientAction (enqueued (events_of r)) = [program]).
Proof.
  cbv zeta. intros Hnone Hcompiled.
  destruct (CompileCollectorArgs_footprint config_obj principal repository
              collector_request) as [_ Hevents]. specialize (Hevents w).
  set (compiled := CompileCollectorArgs svc config_obj principal repository
                     collector_request w) in *.
  pose proof (ScheduleArtifactCollectionFromCollectorArgs_enqueued config_obj
                collector_request [program] (world_of compiled))
    as [[rest Hprefix] Hall].
  set (scheduled := ScheduleArtifactCollectionFromCollectorArgs svc config_obj
                      collector_request [program] (world_of compiled)) in *.
  assert (Hrun :
    ScheduleArtifactCollection svc config_obj principal repository
      collector_request w =
    (result_of scheduled, events_of compiled ++ events_of scheduled,
     world_of scheduled)).
  { unfold ScheduleArtifactCollection. rewrite Hnone, bind_run.
    subst scheduled. fold compiled.
    destruct compiled as [[c evs] w1].
    unfold result_of, world_of, events_of in *. cbn [fst snd] in *.
    subst c. cbn [app].
    destruct (ScheduleArtifactCollectionFromCollectorArgs svc config_obj
                collector_request [program] w1) as [[r2 evs2] w2].
    reflexivity. }
  rewrite Hrun. split; [reflexivity|].
  change (events_of (result_of scheduled,
                     events_of compiled ++ events_of scheduled,
                     world_of scheduled))
    with (events_of compiled ++ events_of scheduled).
  change (result_of (result_of scheduled,
                     events_of compiled ++ events_of scheduled,
                     world_of scheduled))
    with (result_of scheduled).
  rewrite queue_calls_app, enqueued_app.
  rewrite (queue_calls_not_datastore _ Hevents).
  assert (Henqueued : forall evs,
            forallb not_datastore_event evs = true -> enqueued evs = []).
  { unfold enqueued. induction evs as [|ev evs IH]; [reflexivity|].
    cbn [forallb flat_map]. intros [Hev Hevs]%andb_true_iff.
    rewrite IH by exact Hevs. destruct ev; try discriminate Hev; reflexivity. }
  rewrite (Henqueued _ Hevents). cbn [app].
  split; [|exact Hall].
  destruct (map GrrMessage.VQLClientAction (queue_calls (events_of scheduled)))
    as [|p [|p' l]]; cbn [app] in Hprefix.
  - left. reflexivity.
  - right. injection Hprefix as <- _. reflexivity.
  - discriminate Hprefix.
Qed.

(** ** Session identifiers *)

Lemma NewFlowId_forced client_id (w : W) :
  NextFlowIdForTests w <> ""%string ->
  NewFlowId svc client_id w =
  (NextFlowIdForTests w, [],
   mkWorld (inventory w) (datastore w) (os w) "").
Proof.
  intros Hforced. apply String.eqb_neq in Hforced.
  unfold NewFlowId, bind, get_NextFlowIdForTests, set_NextFlowIdForTests, ret.
  rewrite Hforced. reflexivity.
Qed.

Lemma NewFlowId_fresh client_id (w : W) :
  NextFlowIdForTests w = ""%string ->
  NewFlowId svc client_id w =
  (FLOW_PREFIX svc
   +:+ String.substring 0 13 (EncodeToString (fresh_buffer svc (os w))),
   [],
   mkWorld (inventory w) (datastore w)
     (time_Now svc (rand_Read svc 8 (os w)).2).2 "").
Proof.
  intros Hfresh.
  unfold NewFlowId, bind, get_NextFlowIdForTests, os_rand_Read, os_time_Now,
    ret, fresh_buffer.
  rewrite Hfresh. cbn [String.eqb negb os].
  destruct (rand_Read svc 8 (os w)) as [bytes o1]. cbn [os snd].
  destruct (time_Now svc o1) as [now o2]. cbn [inventory datastore snd].
  rewrite Hfresh. reflexivity.
Qed.

Lemma byte_bits_length (buf : list Z) :
  length (flat_map byte_bits buf) = (8 * length buf)%nat.
Proof.
  induction buf as [|b buf IH]; [reflexivity|].
  cbn [flat_map]. rewrite length_app, IH. cbn [length byte_bits map]. lia.
Qed.

(** The encoding of 64 bits cut to 13 characters: one character per group
    of five bits, the last group being the last bit and four zero bits. *)
Lemma encode_64_bits (bits : list bool) :
  length bits = 64%nat ->
  let chars := map quintet_char (quintets (length bits) bits) in
  length chars = 13%nat
  /\ String.substring 0 13
       (string_of_list_ascii
          (chars
           ++ replicate ((length chars + 7) / 8 * 8 - length chars)%nat
                "="%char)) = string_of_list_ascii chars.
Proof.
  intros Hlength.
  do 64 (destruct bits as [|? bits]; [discriminate Hlength|]).
  destruct bits; [|discriminate Hlength].
  cbv zeta. split; reflexivity.
Qed.

Lemma fresh_buffer_length (o : O) : length (fresh_buffer svc o) = 8%nat.
Proof.
  unfold fresh_buffer. destruct (rand_Read svc 8 o) as [bytes o1].
  destruct (time_Now svc o1) as [now o2]. unfold PutUint32.
  rewrite length_app, length_drop, length_take, length_app, length_map,
    length_replicate. cbn [length]. lia.
Qed.

Lemma quintet_char_hex32 (a b c d e : bool) :
  is_hex32 (quintet_char (bits_value [a; b; c; d; e] 0)) = true.
Proof. destruct a, b, c, d, e; reflexivity. Qed.

Lemma quintets_hex32 (fuel : nat) (bits : list bool) :
  forallb is_hex32 (map quintet_char (quintets fuel bits)) = true.
Proof.
  revert bits. induction fuel as [|fuel IH]; intros bits; [reflexivity|].
  destruct bits as [|b0 bits]; [reflexivity|].
  cbn [quintets map forallb]. rewrite IH, andb_true_r.
  destruct bits as [|b1 [|b2 [|b3 [|b4 bits]]]];
    cbn [app take replicate]; apply quintet_char_hex32.
Qed.

(** X16. When no identifier is set for tests, [NewFlowId] returns the flow
    prefix followed by 13 characters of the base 32 hex alphabet; it makes no
    call to a collaborator and leaves the inventory, the data store and the
    empty test identifier as they were. *)
Theorem NewFlowId_fresh_format (client_id : string) (w : W) :
  NextFlowIdForTests w = ""%string ->
  let r := NewFlowId svc client_id w in
  exists code,
    result_of r = FLOW_PREFIX svc +:+ code
    /\ String.length code = 13%nat
    /\ forallb is_hex32 (list_ascii_of_string code) = true
    /\ events_of r = []
    /\ inventory (world_of r) = inventory w
    /\ datastore (world_of r) = datastore w
    /\ NextFlowIdForTests (world_of r) = ""%string.
Proof.
  intros Hfresh. cbv zeta. rewrite (NewFlowId_fresh client_id w Hfresh).
  eexists. split; [reflexivity|].
  pose proof (byte_bits_length (fresh_buffer svc (os w))) as Hbits.
  rewrite fresh_buffer_length in Hbits.
  destruct (encode_64_bits _ Hbits) as [Hlength Hcode]. cbv zeta in Hcode.
  unfold EncodeToString. rewrite Hcode.
  split.
  - clear Hcode. revert Hlength.
    generalize (map quintet_char
                  (quintets (length (flat_map byte_bits
                                       (fresh_buffer svc (os w))))
                     (flat_map byte_bits (fresh_buffer svc (os w))))).
    intros chars. revert chars.
    assert (Hlen : forall chars,
              String.length (string_of_list_ascii chars) = length chars).
    { induction chars as [|c chars IH]; [reflexivity|]. cbn. rewrite IH.
      reflexivity. }
    intros chars <-. apply Hlen.
  - split; [|repeat split].
    rewrite list_ascii_of_string_of_list_ascii. apply quintets_hex32.
Qed.

Lemma quintet_char_inj (a b c d e a' b' c' d' e' : bool) :
  quintet_char (bits_value [a; b; c; d; e] 0) =
  quintet_char (bits_value [a'; b'; c'; d'; e'] 0) ->
  [a; b; c; d; e] = [a'; b'; c'; d'; e'].
Proof.
  destruct a, b, c, d, e, a', b', c', d', e'; intros Heq;
    first [reflexivity | vm_compute in Heq; discriminate Heq].
Qed.

Lemma quintets_64_inj (bits1 bits2 : list bool) :
  length bits1 = 64%nat -> length bits2 = 64%nat ->
  map quintet_char (quintets 64 bits1) = map quintet_char (quintets 64 bits2) ->
  bits1 = bits2.
Proof.
  intros H1 H2.
  do 64 (destruct bits1 as [|? bits1]; [discriminate H1|]).
  destruct bits1; [|discriminate H1].
  do 64 (destruct bits2 as [|? bits2]; [discriminate H2|]).
  destruct bits2; [|discriminate H2].
  cbn [quintets take drop app replicate map]. intros Heq.
  injection Heq as Hq1 Hq2 Hq3 Hq4 Hq5 Hq6 Hq7 Hq8 Hq9 Hq10 Hq11 Hq12 Hq13.
  apply quintet_char_inj in Hq1, Hq2, Hq3, Hq4, Hq5, Hq6, Hq7, Hq8, Hq9,
    Hq10, Hq11, Hq12.
  apply (quintet_char_inj _ _ _ _ false _ _ _ _ false) in Hq13.
  congruence.
Qed.

Lemma byte_bits_value (b : Z) :
  0 <= b < 256 -> bits_value (byte_bits b) 0 = b.
Proof.
  intros Hb.
  assert (Hall : forallb (fun n => Z.eqb (bits_value (byte_bits (Z.of_nat n)) 0)
                                     (Z.of_nat n)) (seq 0 256) = true)
    by (vm_compute; reflexivity).
  rewrite forallb_forall in Hall.
  specialize (Hall (Z.to_nat b)). rewrite Z2Nat.id in Hall by lia.
  apply Z.eqb_eq, Hall, in_seq. lia.
Qed.

Lemma byte_bits_inj (buf1 buf2 : list Z) :
  length buf1 = length buf2 ->
  Forall (fun b => 0 <= b < 256) buf1 ->
  Forall (fun b => 0 <= b < 256) buf2 ->
  flat_map byte_bits buf1 = flat_map byte_bits buf2 -> buf1 = buf2.
Proof.
  revert buf2. induction buf1 as [|b1 buf1 IH]; intros [|b2 buf2] Hlength;
    try discriminate Hlength; [reflexivity|].
  intros [Hb1 Hbuf1]%Forall_cons [Hb2 Hbuf2]%Forall_cons.
  cbn [flat_map]. intros [Hbits Hrest]%app_inj_1; [|reflexivity].
  f_equal.
  - rewrite <- (byte_bits_value b1 Hb1), <- (byte_bits_value b2 Hb2), Hbits.
    reflexivity.
  - apply IH; [|assumption..]. cbn in Hlength. lia.
Qed.

Lemma code_of_8_bytes_inj (buf1 buf2 : list Z) :
  length buf1 = 8%nat -> length buf2 = 8%nat ->
  Forall (fun b => 0 <= b < 256) buf1 ->
  Forall (fun b => 0 <= b < 256) buf2 ->
  String.substring 0 13 (EncodeToString buf1) =
  String.substring 0 13 (EncodeToString buf2) ->
  buf1 = buf2.
Proof.
  intros Hlength1 Hlength2 Hbytes1 Hbytes2.
  pose proof (byte_bits_length buf1) as Hbits1. rewrite Hlength1 in Hbits1.
  pose proof (byte_bits_length buf2) as Hbits2. rewrite Hlength2 in Hbits2.
  destruct (encode_64_bits _ Hbits1) as [_ Hcode1].
  destruct (encode_64_bits _ Hbits2) as [_ Hcode2].
  cbv zeta in Hcode1, Hcode2. unfold EncodeToString.
  rewrite Hcode1, Hcode2. intros Heq.
  apply (f_equal list_ascii_of_string) in Heq.
  rewrite !list_ascii_of_string_of_list_ascii in Heq.
  change (8 * 8)%nat with 64%nat in Hbits1, Hbits2.
  rewrite Hbits1, Hbits2 in Heq.
  apply byte_bits_inj; [congruence | assumption..|].
  apply quintets_64_inj; assumption.
Qed.

(** X17. Cutting the encoding to 13 characters loses nothing: two buffers
    of 8 bytes with the same 13 characters are the same buffer. *)
Theorem flow_code_injective (buf1 buf2 : list Z) :
  length buf1 = 8%nat -> length buf2 = 8%nat ->
  Forall (fun b => 0 <= b < 256) buf1 ->
  Forall (fun b => 0 <= b < 256) buf2 ->
  String.substring 0 13 (EncodeToString buf1) =
  String.substring 0 13 (EncodeToString buf2) ->
  buf1 = buf2.
Proof.
  exact (code_of_8_bytes_inj buf1 buf2).
Qed.

Lemma PutUint32_seconds (buf1 buf2 : list Z) (v1 v2 : Z) :
  0 <= v1 < 2 ^ 32 -> 0 <= v2 < 2 ^ 32 ->
  PutUint32 buf1 v1 = PutUint32 buf2 v2 -> v1 = v2.
Proof.
  unfold PutUint32. intros Hv1 Hv2 Heq.
  cbn [app] in Heq. injection Heq as H24 H16 H8 H0 _.
  rewrite !Z.shiftr_div_pow2 in H24, H16, H8 by lia.
  change (2 ^ 24) with 16777216 in *. change (2 ^ 16) with 65536 in *.
  change (2 ^ 8) with 256 in *. change (2 ^ 32) with 4294967296 in *.
  Z.div_mod_to_equations. lia.
Qed.

Lemma fresh_buffer_bytes (o : O) :
  Forall (fun b => 0 <= b < 256) (fresh_buffer svc o).
Proof.
  unfold fresh_buffer. destruct (rand_Read svc 8 o) as [bytes o1].
  destruct (time_Now svc o1) as [now o2]. unfold PutUint32.
  apply Forall_app. split.
  - repeat constructor; apply Z.mod_pos_bound; lia.
  - apply Forall_drop, Forall_take, Forall_app. split.
    + apply Forall_forall. intros b Hin. apply list_elem_of_In in Hin.
      apply in_map_iff in Hin as (b' & <- & _).
      apply Z.mod_pos_bound. lia.
    + apply Forall_forall. intros b Hin.
      apply elem_of_replicate in Hin as [-> _]. lia.
Qed.

Lemma fresh_buffer_second (o : O) :
  exists buf, fresh_buffer svc o = PutUint32 buf (creation_second svc o).
Proof.
  unfold fresh_buffer, creation_second.
  destruct (rand_Read svc 8 o) as [bytes o1]. cbn [snd].
  destruct (time_Now svc o1) as [now o2]. cbn [fst]. eexists. reflexivity.
Qed.

(** X18. An identifier tells when it was made: when no identifier is set
    for tests, two calls of [NewFlowId] that return the same identifier
    encoded the same 8 bytes, so they read the same second from the clock (as
    a uint32) and the same four random bytes.  Identifiers made in different
    seconds are different. *)
Theorem NewFlowId_same_id_same_second (client1 client2 : string) (w1 w2 : W) :
  NextFlowIdForTests w1 = ""%string ->
  NextFlowIdForTests w2 = ""%string ->
  result_of (NewFlowId svc client1 w1) = result_of (NewFlowId svc client2 w2) ->
  fresh_buffer svc (os w1) = fresh_buffer svc (os w2)
  /\ creation_second svc (os w1) = creation_second svc (os w2).
Proof.
  intros Hfresh1 Hfresh2.
  rewrite (NewFlowId_fresh client1 w1 Hfresh1),
    (NewFlowId_fresh client2 w2 Hfresh2).
  unfold result_of. cbn [fst]. intros Heq.
  apply (String.app_inj (FLOW_PREFIX svc)) in Heq.
  apply code_of_8_bytes_inj in Heq;
    try apply fresh_buffer_length; try apply fresh_buffer_bytes.
  split; [exact Heq|].
  destruct (fresh_buffer_second (os w1)) as [buf1 Hbuf1].
  destruct (fresh_buffer_second (os w2)) as [buf2 Hbuf2].
  rewrite Hbuf1, Hbuf2 in Heq.
  apply PutUint32_seconds in Heq; [exact Heq|..];
    unfold creation_second, uint32; apply Z.mod_pos_bound; lia.
Qed.

(** ** The identifier set for tests *)

Lemma datastore_only_ret {A : Type} (a : A) :
  datastore_only (ret a : M W A).
Proof. intros w. repeat split. Qed.

Lemma datastore_only_bind {A B : Type} (m : M W A) (f : A -> M W B) :
  datastore_only m -> (forall a, datastore_only (f a)) ->
  datastore_only (bind m f).
Proof.
  intros Hm Hf w. unfold bind. specialize (Hm w).
  destruct (m w) as [[a evs1] w1]. specialize (Hf a w1).
  destruct (f a w1) as [[b evs2] w2]. unfold world_of in *. cbn [snd] in *.
  destruct Hm as (H1 & H2 & H3). destruct Hf as (G1 & G2 & G3).
  repeat split; congruence.
Qed.

Lemma db_GetDB_datastore_only config_obj :
  datastore_only (db_GetDB svc config_obj).
Proof. intros w. repeat split. Qed.

Lemma db_SetSubject_datastore_only config_obj path subject :
  datastore_only (db_SetSubject svc config_obj path subject).
Proof.
  intros w. unfold db_SetSubject.
  destruct (SetSubject svc config_obj path subject (datastore w)).
  repeat split.
Qed.

Lemma db_QueueMessageForClient_datastore_only config_obj client_id task :
  datastore_only (db_QueueMessageForClient svc config_obj client_id task).
Proof.
  intros w. unfold db_QueueMessageForClient.
  destruct (QueueMessageForClient svc config_obj client_id task (datastore w)).
  repeat split.
Qed.

Hint Resolve db_GetDB_datastore_only db_SetSubject_datastore_only
  db_QueueMessageForClient_datastore_only : footprint.

Lemma queue_tasks_datastore_only config_obj collector_request client_id
    session_id args tasks :
  datastore_only
    (queue_tasks svc config_obj collector_request client_id session_id
       args tasks).
Proof.
  revert tasks. induction args as [|arg rest IH]; intros tasks;
    cbn [queue_tasks];
    footprint @datastore_only_ret @datastore_only_bind.
Qed.

(** Once it has the collection context,
    [ScheduleArtifactCollectionFromCollectorArgs] changes the data store at
    most. *)
Lemma schedule_after_context config_obj collector_request args (w : W) :
  ArtifactCollectorArgs.ClientId collector_request <> ""%string ->
  let r := ScheduleArtifactCollectionFromCollectorArgs svc config_obj
             collector_request args w in
  let w0 := world_of (new_collection_context svc collector_request
                        (ArtifactCollectorArgs.ClientId collector_request)
                        w) in
  inventory (world_of r) = inventory w0
  /\ os (world_of r) = os w0
  /\ NextFlowIdForTests (world_of r) = NextFlowIdForTests w0.
Proof.
  intros Hclient. apply String.eqb_neq in Hclient. cbv zeta.
  unfold ScheduleArtifactCollectionFromCollectorArgs.
  rewrite Hclient, bind_run.
  destruct (new_collection_context svc collector_request
              (ArtifactCollectorArgs.ClientId collector_request) w)
    as [[ctx evs0] w0].
  unfold world_of at 2 4 6. cbn [snd].
  match goal with
  | |- context [bind ?m ?f w0] =>
      assert (Hrest : datastore_only (bind m f))
        by (pose proof queue_tasks_datastore_only;
            footprint @datastore_only_ret @datastore_only_bind);
      specialize (Hrest w0);
      destruct (bind m f w0) as [[b evs2] w2]
  end.
  exact Hrest.
Qed.

(** X19. An identifier set for tests is used by the next scheduling call
    for a client and by no other.  With such an identifier [id],
    [ScheduleArtifactCollectionFromCollectorArgs] stores the collection
    context under [id], queues its tasks under [id] and returns [id] when it
    returns without error; whether it does or not, the identifier is cleared
    afterwards, the clock was read once and the random source not at all. *)
Theorem forced_id_is_used_once (config_obj : Config.t)
    (collector_request : ArtifactCollectorArgs.t)
    (args : list VQLCollectorArgs.t) (w : W) :
  ArtifactCollectorArgs.ClientId collector_request <> ""%string ->
  NextFlowIdForTests w <> ""%string ->
  let r := ScheduleArtifactCollectionFromCollectorArgs svc config_obj
             collector_request args w in
  NextFlowIdForTests (world_of r) = ""%string
  /\ os (world_of r) = (time_Now svc (os w)).2
  /\ inventory (world_of r) = inventory w
  /\ ((result_of r).2 = None -> (result_of r).1 = NextFlowIdForTests w)
  /\ (forall path ctx ok,
        In (DbSetSubject path (SubjectContext ctx) ok) (events_of r) ->
        ArtifactCollectorContext.SessionId ctx = NextFlowIdForTests w)
  /\ (forall client_id task ok,
        In (DbQueue client_id task ok) (events_of r) ->
        GrrMessage.SessionId task = NextFlowIdForTests w).
Proof.
  intros Hclient Hforced. cbv zeta.
  assert (Hctx :
    new_collection_context svc collector_request
      (ArtifactCollectorArgs.ClientId collector_request) w =
    (ArtifactCollectorContext.mk (NextFlowIdForTests w)
       (uint64 (Z.quot (time_Now svc (os w)).1 1000)) RUNNING
       collector_request (ArtifactCollectorArgs.ClientId collector_request),
     [],
     mkWorld (inventory w) (datastore w) (time_Now svc (os w)).2 "")).
  { unfold new_collection_context. rewrite bind_run, NewFlowId_forced
      by exact Hforced.
    rewrite bind_run. unfold os_time_Now. cbn [os inventory datastore
      NextFlowIdForTests].
    destruct (time_Now svc (os w)) as [now o]. reflexivity. }
  destruct (schedule_after_context config_obj collector_request args w Hclient)
    as (Hinv & Hos & Hnext).
  rewrite Hctx in Hinv, Hos, Hnext.
  change (world_of (?a, ?b, ?c)) with c in Hinv, Hos, Hnext.
  cbn [inventory os NextFlowIdForTests] in Hinv, Hos, Hnext.
  split; [exact Hnext|]. split; [exact Hos|]. split; [exact Hinv|].
  destruct (ScheduleArtifactCollectionFromCollectorArgs_run config_obj
              collector_request args w Hclient)
    as (ctx & done & tail & _ & _ & _ & _ & Hshape).
  destruct (new_collection_context_run collector_request
              (ArtifactCollectorArgs.ClientId collector_request) w)
    as (ctx0 & w00 & Hctx0 & _).
  assert (Hsession : forall c,
            (exists ok path,
               In (DbSetSubject path (SubjectContext c) ok)
                  (events_of (ScheduleArtifactCollectionFromCollectorArgs svc
                                config_obj collector_request args w))) ->
            ArtifactCollectorContext.SessionId c = NextFlowIdForTests w).
  { intros c (ok & path & Hin). revert Hin.
    unfold ScheduleArtifactCollectionFromCollectorArgs.
    apply String.eqb_neq in Hclient. rewrite Hclient, bind_run, Hctx.
    cbv beta iota. cbn [ArtifactCollectorContext.SessionId].
    rewrite bind_run. unfold db_GetDB.
    destruct (GetDB svc config_obj) as [e|].
    { intros [[=]|[]]. }
    rewrite bind_run. unfold db_SetSubject at 1.
    cbn [datastore inventory os NextFlowIdForTests].
    destruct (SetSubject svc config_obj _ _ (datastore w)) as [[e|] d1].
    { intros [[=]|[[= _ <- _]|[]]]. reflexivity. }
    rewrite bind_run.
    match goal with
    | |- context [queue_tasks _ _ _ ?c ?s _ [] ?w'] =>
        pose proof (queue_tasks_events config_obj collector_request c s args
                      [] w') as Hq;
        destruct (queue_tasks_run config_obj collector_request c s args [] w')
          as (done' & rest' & _ & _ & Hevs);
        destruct (queue_tasks svc config_obj collector_request c s args [] w')
          as [[[err tasks] evs] w2]
    end.
    unfold events_of in Hq, Hevs. cbn [fst snd] in Hq, Hevs.
    assert (Hnone : ~ In (DbSetSubject path (SubjectContext c) ok) evs).
    { destruct Hevs as [(_ & _ & ->) | (e & a & rest'' & _ & _ & ->)];
        intros Hin.
      - apply in_map_iff in Hin as (? & [=] & _).
      - apply in_app_or in Hin as [Hin|[[=]|[]]].
        apply in_map_iff in Hin as (? & [=] & _). }
    destruct err as [e|].
    - unfold ret, events_of. cbn [fst snd app]. rewrite app_nil_r.
      intros [[=]|[[= _ <- _]|Hin]]; [reflexivity | contradiction].
    - rewrite bind_run. unfold db_SetSubject.
      destruct (SetSubject svc config_obj _ (SubjectRequestDetails tasks)
                  (datastore w2)) as [err d3].
      destruct err; unfold ret, events_of; cbn [fst snd app];
        rewrite ?app_nil_r;
        (intros [[=]|[[= _ <- _]|Hin]]; [reflexivity|];
         apply in_app_or in Hin as [Hin|[[=]|[]]]; contradiction). }
  assert (Hstored := ScheduleArtifactCollectionFromCollectorArgs_stored_first
                       config_obj collector_request args w).
  split; [|split].
  - intros Hok.
    destruct Hshape as [[[e He] _] | [[[e He] _]
                       | [(a & rest' & [e He] & _)
                         | (err & _ & Hr & Hevs)]]];
      try (rewrite He in Hok; discriminate Hok).
    destruct err as [e|]; [rewrite Hr in Hok; discriminate Hok|].
    rewrite Hr. cbn [fst]. apply Hsession.
    exists true, (FlowPath svc
                    (ArtifactCollectorArgs.ClientId collector_request)
                    (ArtifactCollectorContext.SessionId ctx)).
    rewrite Hevs. right. left. reflexivity.
  - intros path c ok Hin. apply Hsession. eauto.
  - intros client_id task ok Hin.
    apply in_split in Hin as (pre & post & Hsplit).
    destruct (proj1 Hstored _ _ _ _ _ Hsplit) as (c & Hin & Hsid & _).
    rewrite <- Hsid. apply Hsession. exists true. eexists.
    rewrite Hsplit. apply in_or_app. left. exact Hin.
Qed.

(** ** More on tools *)

Lemma EnsureToolsDeclared_loop_keeps config_obj tools (w : W) name tool_info :
  (forall tool i err i' other,
     AddTool svc config_obj tool i = (err, i') ->
     other <> Tool.Name tool ->
     GetToolInfo svc config_obj other i' =
     GetToolInfo svc config_obj other i) ->
  GetToolInfo svc config_obj name (inventory w) = inl tool_info ->
  GetToolInfo svc config_obj name
    (inventory (world_of (EnsureToolsDeclared_loop svc config_obj tools w)))
  = inl tool_info.
Proof.
  intros Hlaw. revert w.
  induction tools as [|tool rest IH]; intros w Hknown; [exact Hknown|].
  cbn [EnsureToolsDeclared_loop]. rewrite bind_run. unfold inv_GetToolInfo.
  destruct (GetToolInfo svc config_obj (Tool.Name tool) (inventory w))
    as [known|unknown] eqn:Htool.
  - specialize (IH w Hknown).
    destruct (EnsureToolsDeclared_loop svc config_obj rest w) as [[r evs] w'].
    exact IH.
  - rewrite bind_run. unfold inv_AddTool.
    destruct (AddTool svc config_obj tool (inventory w)) as [err i] eqn:Hadd.
    assert (Hafter : GetToolInfo svc config_obj name i = inl tool_info).
    { rewrite (Hlaw tool (inventory w) err i name Hadd); [exact Hknown|].
      intros ->. rewrite Hknown in Htool. discriminate Htool. }
    destruct err as [e|]; [exact Hafter|].
    match goal with
    | |- context [EnsureToolsDeclared_loop _ _ _ ?w'] =>
        specialize (IH w' Hafter);
        destruct (EnsureToolsDeclared_loop svc config_obj rest w')
          as [[r evs] w'']
    end.
    exact IH.
Qed.

(** X20. Provided a successful [AddTool] makes the tool it is given known
    under its name and no [AddTool] changes what is found under another
    name, the inventory knows every tool the artifact declares once
    [EnsureToolsDeclared] has returned without error. *)
Theorem EnsureToolsDeclared_declares_all (config_obj : Config.t)
    (artifact : Artifact.t) (w : W) :
  (forall tool i i',
     AddTool svc config_obj tool i = (None, i') ->
     exists tool_info,
       GetToolInfo svc config_obj (Tool.Name tool) i' = inl tool_info) ->
  (forall tool i err i' other,
     AddTool svc config_obj tool i = (err, i') ->
     other <> Tool.Name tool ->
     GetToolInfo svc config_obj other i' =
     GetToolInfo svc config_obj other i) ->
  result_of (EnsureToolsDeclared svc config_obj artifact w) = None ->
  forall tool, In tool (Artifact.Tools artifact) ->
    exists tool_info,
      GetToolInfo svc config_obj (Tool.Name tool)
        (inventory (world_of (EnsureToolsDeclared svc config_obj artifact w)))
      = inl tool_info.
Proof.
  intros Hadded Hlaw. unfold EnsureToolsDeclared. revert w.
  induction (Artifact.Tools artifact) as [|tool rest IH]; intros w Hok t;
    [intros []|].
  revert Hok. cbn [EnsureToolsDeclared_loop]. rewrite bind_run.
  unfold inv_GetToolInfo.
  destruct (GetToolInfo svc config_obj (Tool.Name tool) (inventory w))
    as [known|unknown] eqn:Htool.
  - pose proof (EnsureToolsDeclared_loop_keeps config_obj rest w _ _ Hlaw
                  Htool) as Hkeeps.
    specialize (IH w).
    destruct (EnsureToolsDeclared_loop svc config_obj rest w) as [[r evs] w'].
    unfold result_of, world_of in *. cbn [fst snd] in *.
    intros Hok [<-|Hin]; [eauto | exact (IH Hok t Hin)].
  - rewrite bind_run. unfold inv_AddTool.
    destruct (AddTool svc config_obj tool (inventory w)) as [[e|] i] eqn:Hadd.
    { unfold ret, result_of. cbn. discriminate. }
    destruct (Hadded _ _ _ Hadd) as (tool_info & Hnow).
    match goal with
    | |- context [EnsureToolsDeclared_loop _ _ _ ?w'] =>
        pose proof (EnsureToolsDeclared_loop_keeps config_obj rest w' _ _ Hlaw
                      Hnow) as Hkeeps;
        specialize (IH w');
        destruct (EnsureToolsDeclared_loop svc config_obj rest w')
          as [[r evs] w'']
    end.
    unfold result_of, world_of in *. cbn [fst snd] in *.
    intros Hok [<-|Hin]; [eauto | exact (IH Hok t Hin)].
Qed.

(** X21. Server URLs are needed for tools only.  When the program merged
    from the artifacts needs no tool, [CompileCollectorArgs] does not look at
    the server URLs and returns what the obfuscation returns; when no server
    URL is configured and the first tool of the program is in the inventory,
    it returns the error "No server URLs configured!" and no program. *)
Theorem server_urls_needed_for_tools_only (config_obj : Config.t)
    (principal : string) (repository : Repository.t)
    (collector_request : ArtifactCollectorArgs.t) (w w0 : W)
    (args0 : VQLCollectorArgs.t) (evs0 : list Event) :
  merged_program svc config_obj principal repository collector_request w =
    (inl args0, evs0, w0) ->
  (VQLCollectorArgs.Tools args0 = [] ->
   CompileCollectorArgs svc config_obj principal repository collector_request w
   = (CompiledArgs (Obfuscate svc config_obj args0).2
        (Obfuscate svc config_obj args0).1,
      evs0 ++ [ArtifactsObfuscate], w0))
  /\ (ClientConfig.ServerUrls (Config.Client config_obj) = [] ->
      forall tool rest tool_info,
        VQLCollectorArgs.Tools args0 = tool :: rest ->
        GetToolInfo svc config_obj tool (inventory w0) = inl tool_info ->
        CompileCollectorArgs svc config_obj principal repository
          collector_request w =
        (CompiledNil "No server URLs configured!",
         evs0 ++ [InvGetToolInfo tool],
         w0)).
Proof.
  intros Hmerged. split.
  - intros Htools. rewrite CompileCollectorArgs_phases, Hmerged.
    unfold getDependentTools. rewrite Htools. reflexivity.
  - intros Hurls tool rest tool_info Htools Hinfo.
    rewrite CompileCollectorArgs_phases, Hmerged.
    unfold getDependentTools. rewrite Htools.
    cbn [getDependentTools_loop]. rewrite bind_run, AddToolDependency_run.
    rewrite Hinfo, Hurls. reflexivity.
Qed.

(** ** The artifact compiled for a name *)

Lemma bind_assoc {A B C : Type} (m : M W A) (f : A -> M W B)
    (g : B -> M W C) (w : W) :
  bind (bind m f) g w = bind m (fun a => bind (f a) g) w.
Proof.
  unfold bind. destruct (m w) as [[a evs1] w1].
  destruct (f a w1) as [[b evs2] w2]. destruct (g b w2) as [[c evs3] w3].
  rewrite app_assoc. reflexivity.
Qed.

Lemma CompileCollectorArgs_from_start config_obj principal repository
    collector_request (w : W) :
  CompileCollectorArgs svc config_obj principal repository collector_request w
  = CompileCollectorArgs_from svc config_obj principal repository
      collector_request (ArtifactCollectorArgs.Artifacts collector_request)
      (new_args collector_request) w.
Proof. reflexivity. Qed.

Lemma CompileCollectorArgs_from_cons config_obj principal repository
    collector_request name rest args (w : W) :
  CompileCollectorArgs_from svc config_obj principal repository
    collector_request (name :: rest) args w =
  let '(r, evs1, w1) :=
    compile_artifact svc config_obj principal repository collector_request
      name args w in
  match r with
  | inr e => (CompiledNil e, evs1, w1)
  | inl args1 =>
      let '(res, evs, w') :=
        CompileCollectorArgs_from svc config_obj principal repository
          collector_request rest args1 w1 in
      (res, evs1 ++ evs, w')
  end.
Proof.
  unfold CompileCollectorArgs_from. cbn [compile_artifacts].
  rewrite bind_assoc, bind_run.
  destruct (compile_artifact svc config_obj principal repository
              collector_request name args w) as [[[args1|e] evs1] w1].
  - reflexivity.
  - rewrite bind_ret_run. unfold ret. rewrite app_nil_r. reflexivity.
Qed.

Lemma CompileCollectorArgs_from_app config_obj principal repository
    collector_request pre names args (w : W) args1 evs1 w1 :
  compile_artifacts svc config_obj principal repository collector_request
    pre args w = (inl args1, evs1, w1) ->
  CompileCollectorArgs_from svc config_obj principal repository
    collector_request (pre ++ names) args w =
  let '(res, evs, w') :=
    CompileCollectorArgs_from svc config_obj principal repository
      collector_request names args1 w1 in
  (res, evs1 ++ evs, w').
Proof.
  revert args w evs1.
  induction pre as [|name pre IH]; intros args w evs1.
  - intros [= -> <- ->]. cbn [app].
    destruct (CompileCollectorArgs_from svc config_obj principal repository
                collector_request names args1 w1) as [[res evs] w'].
    reflexivity.
  - cbn [compile_artifacts app]. rewrite bind_run.
    rewrite CompileCollectorArgs_from_cons.
    destruct (compile_artifact svc config_obj principal repository
                collector_request name args w) as [[[args0|e] evs0] w0].
    2:{ unfold ret. discriminate. }
    destruct (compile_artifacts svc config_obj principal repository
                collector_request pre args0 w0) as [[r2 evs2] w2] eqn:Hrest.
    intros [= -> <- ->]. rewrite (IH _ _ _ Hrest).
    destruct (CompileCollectorArgs_from svc config_obj principal repository
                collector_request names args1 w1) as [[res evs] w'].
    rewrite app_assoc. reflexivity.
Qed.

(** The turn of a name whose artifact is found, seen from the whole
    function. *)
Lemma CompileCollectorArgs_turn config_obj principal repository
    collector_request (w : W) X pre post args1 evs1 w1 artifact :
  ArtifactCollectorArgs.Artifacts collector_request = pre ++ X :: post ->
  compile_artifacts svc config_obj principal repository collector_request
    pre (new_args collector_request) w = (inl args1, evs1, w1) ->
  resolve repository collector_request X = Some artifact ->
  CompileCollectorArgs svc config_obj principal repository collector_request w
  =
  let '(r2, evs2, w2) :=
    compile_found svc config_obj principal repository artifact args1 w1 in
  match r2 with
  | inr e =>
      (CompiledNil e,
       evs1 ++ lookup_calls repository collector_request X ++ evs2, w2)
  | inl args2 =>
      let '(res, evs3, w3) :=
        CompileCollectorArgs_from svc config_obj principal repository
          collector_request post args2 w2 in
      (res,
       evs1 ++ lookup_calls repository collector_request X ++ evs2 ++ evs3,
       w3)
  end.
Proof.
  intros Hartifacts Hpre Hresolve.
  rewrite CompileCollectorArgs_from_start, Hartifacts.
  rewrite (CompileCollectorArgs_from_app _ _ _ _ _ _ _ _ _ _ _ Hpre).
  rewrite CompileCollectorArgs_from_cons, compile_artifact_run, Hresolve.
  destruct (compile_found svc config_obj principal repository artifact args1
              w1) as [[[args2|e] evs2] w2]; [|reflexivity].
  destruct (CompileCollectorArgs_from svc config_obj principal repository
              collector_request post args2 w2) as [[res evs3] w3].
  rewrite <- app_assoc. reflexivity.
Qed.

(** When [CompileCollectorArgs] returns a program, the artifacts it has
    compiled are, in order, those the names of the request stand for. *)
Lemma CompileCollectorArgs_compiled config_obj principal repository
    collector_request (w : W) program err :
  let r := CompileCollectorArgs svc config_obj principal repository
             collector_request w in
  result_of r = CompiledArgs program err ->
  map Some (compiled_artifacts (events_of r)) =
  map (resolve repository collector_request)
    (ArtifactCollectorArgs.Artifacts collector_request).
Proof.
  cbv zeta. intros Hresult.
  destruct (CompileCollectorArgs_after_loop config_obj principal repository
              collector_request w) as (tail & -> & Htail & _).
  rewrite compiled_artifacts_app, Htail, app_nil_r.
  destruct (compile_artifacts svc config_obj principal repository
              collector_request
              (ArtifactCollectorArgs.Artifacts collector_request)
              (new_args collector_request) w) as [[[args|e] evs] w'] eqn:Hloop.
  - pose proof (compile_artifacts_compiled config_obj principal repository
                  collector_request
                  (ArtifactCollectorArgs.Artifacts collector_request)
                  (new_args collector_request) w args) as Hcompiled.
    cbv zeta in Hcompiled. rewrite Hloop in Hcompiled.
    apply Hcompiled. reflexivity.
  - rewrite (CompileCollectorArgs_loop_error _ _ _ _ _ _ _ _ Hloop)
      in Hresult.
    discriminate Hresult.
Qed.

(** C5. The artifact [CompileCollectorArgs] compiles for a name X of the
    request is "Custom.X" when the request allows custom overrides and the
    repository has it, whether or not the repository has X, and the plain X
    when overrides are not allowed or there is no "Custom.X".  With
    [artifact] the one of the two so chosen and [lookups] the calls that
    found it (X itself is not looked up when "Custom.X" is taken), and when
    the names before X went through:
    - when access to [artifact] is refused, or its compilation fails, the
      function returns that error at once; there is no falling back to the
      other artifact;
    - otherwise the program the function goes on with, through the tool
      declarations of [artifact], the names after X and the rest of the
      function, is the repository's compilation of [artifact] into the
      program the names before X left;
    - when the function returns a program, the artifacts it has compiled
      are, in order, those the names of the request stand for, and the one
      compiled at the place of X is [artifact]. *)
Theorem custom_override_precedence (config_obj : Config.t) (principal : string)
    (repository : Repository.t) (collector_request : ArtifactCollectorArgs.t)
    (w w1 : W) (X : string) (pre post : list string)
    (args1 : VQLCollectorArgs.t) (evs1 : list Event)
    (artifact : Artifact.t) (lookups : list Event) :
  ArtifactCollectorArgs.Artifacts collector_request = pre ++ X :: post ->
  compile_artifacts svc config_obj principal repository collector_request
    pre (new_args collector_request) w = (inl args1, evs1, w1) ->
  (ArtifactCollectorArgs.AllowCustomOverrides collector_request = true
   /\ Repository.Get repository ("Custom." +:+ X) = Some artifact
   /\ lookups = [RepoGet ("Custom." +:+ X)])
  \/ (ArtifactCollectorArgs.AllowCustomOverrides collector_request = false
      /\ Repository.Get repository X = Some artifact
      /\ lookups = [RepoGet X])
  \/ (ArtifactCollectorArgs.AllowCustomOverrides collector_request = true
      /\ Repository.Get repository ("Custom." +:+ X) = None
      /\ Repository.Get repository X = Some artifact
      /\ lookups = [RepoGet ("Custom." +:+ X); RepoGet X]) ->
  let r := CompileCollectorArgs svc config_obj principal repository
             collector_request w in
  let turn := evs1 ++ lookups ++ [RepoCheckAccess artifact principal] in
  resolve repository collector_request X = Some artifact
  /\ (forall e,
        Repository.CheckAccess repository config_obj artifact principal =
          Some e ->
        r = (CompiledNil e, turn, w1))
  /\ (Repository.CheckAccess repository config_obj artifact principal = None ->
      (forall e,
         Repository.Compile repository artifact args1 = inr e ->
         r = (CompiledNil e, turn ++ [RepoCompile artifact], w1))
      /\ (forall args2,
            Repository.Compile repository artifact args1 = inl args2 ->
            r =
            let '(err, evs2, w2) :=
              EnsureToolsDeclared svc config_obj artifact w1 in
            match err with
            | Some e =>
                (CompiledNil e, turn ++ RepoCompile artifact :: evs2, w2)
            | None =>
                let '(res, evs3, w3) :=
                  CompileCollectorArgs_from svc config_obj principal
                    repository collector_request post args2 w2 in
                (res, turn ++ RepoCompile artifact :: evs2 ++ evs3, w3)
            end))
  /\ (forall program err,
        result_of r = CompiledArgs program err ->
        map Some (compiled_artifacts (events_of r)) =
        map (resolve repository collector_request)
          (ArtifactCollectorArgs.Artifacts collector_request)
        /\ nth_error (compiled_artifacts (events_of r)) (length pre) =
           Some artifact).
Proof.
  intros Hartifacts Hpre Hchosen. cbv zeta.
  assert (Hfound : resolve repository collector_request X = Some artifact
                   /\ lookup_calls repository collector_request X = lookups).
  { unfold resolve, lookup_calls.
    destruct Hchosen as [(-> & -> & ->)|[(-> & -> & ->)|(-> & -> & -> & ->)]];
      split; reflexivity. }
  destruct Hfound as [Hresolve Hlookups].
  pose proof (CompileCollectorArgs_turn config_obj principal repository
                collector_request w X pre post args1 evs1 w1 artifact
                Hartifacts Hpre Hresolve) as Hturn.
  rewrite Hlookups in Hturn. clear Hchosen Hlookups.
  unfold compile_found in Hturn. rewrite bind_run in Hturn.
  unfold repo_CheckAccess in Hturn.
  split; [exact Hresolve|]. split; [|split].
  - intros e Haccess. rewrite Haccess in Hturn. exact Hturn.
  - intros Haccess. rewrite Haccess, bind_run in Hturn.
    unfold repo_Compile in Hturn. split.
    + intros e Hcompile. rewrite Hcompile in Hturn. unfold ret in Hturn.
      rewrite Hturn, <- !app_assoc. reflexivity.
    + intros args2 Hcompile. rewrite Hcompile, bind_run in Hturn.
      destruct (EnsureToolsDeclared svc config_obj artifact w1)
        as [[[e|] evs2] w2]; unfold ret in Hturn; rewrite Hturn.
      * rewrite app_nil_r, <- !app_assoc. reflexivity.
      * destruct (CompileCollectorArgs_from svc config_obj principal
                    repository collector_request post args2 w2)
          as [[res evs3] w3].
        rewrite app_nil_r, <- !app_assoc. reflexivity.
  - intros program err Hresult.
    pose proof (CompileCollectorArgs_compiled config_obj principal repository
                  collector_request w program err Hresult) as Hcompiled.
    split; [exact Hcompiled|].
    apply (f_equal (fun l => nth_error l (length pre))) in Hcompiled.
    rewrite Hartifacts, nth_error_map, nth_error_map in Hcompiled.
    rewrite nth_error_app2, Nat.sub_diag in Hcompiled by lia.
    cbn [nth_error option_map] in Hcompiled. rewrite Hresolve in Hcompiled.
    destruct (nth_error _ (length pre)) as [a|]; [|discriminate Hcompiled].
    cbn in Hcompiled. congruence.
Qed.

End Properties.

(** * The properties on the sample data *)

Lemma AddToolDependency_url_selection_witness :
  map VQLEnv.Value
    (VQLCollectorArgs.Env
       (result_of (AddToolDependency InMemory.services Sample.config "V"
                     Sample.program (InMemory.world Sample.tools 8 ""))).2) =
  ["/etc/*"; "sha256:V"; "V.exe"; "https://vendor.example/v.exe"]%string
  /\ map VQLEnv.Value
       (VQLCollectorArgs.Env
          (result_of (AddToolDependency InMemory.services Sample.config "T"
                        Sample.program (InMemory.world Sample.tools 8 ""))).2) =
     ["/etc/*"; "sha256:T"; "T.exe";
      "https://velociraptor.example:8000/public/tools/T"]%string.
Proof.
  split.
  - destruct (AddToolDependency_url_selection InMemory.services Sample.config
                "V" Sample.program (InMemory.world Sample.tools 8 "") Sample.V
                "https://velociraptor.example:8000/" [] eq_refl eq_refl)
      as (url & Hrun & Hexplicit & _).
    rewrite Hrun, (Hexplicit eq_refl ltac:(discriminate)). reflexivity.
  - destruct (AddToolDependency_url_selection InMemory.services Sample.config
                "T" Sample.program (InMemory.world Sample.tools 8 "") Sample.T
                "https://velociraptor.example:8000/" [] eq_refl eq_refl)
      as (url & Hrun & _ & Hlocal).
    rewrite Hrun, (Hlocal (or_introl eq_refl)). reflexivity.
Defined.

Lemma AddToolDependency_no_server_urls_witness :
  result_of (AddToolDependency InMemory.services Sample.config_without_urls
               "T" Sample.program (InMemory.world Sample.tools 8 "")) =
  (Some "No server URLs configured!"%string,
   VQLCollectorArgs.with_Env
     [VQLEnv.mk "Glob" "/etc/*"; VQLEnv.mk "Tool_T_HASH" "sha256:T";
      VQLEnv.mk "Tool_T_FILENAME" "T.exe"] Sample.program).
Proof.
  destruct (AddToolDependency_no_server_urls InMemory.services
              Sample.config_without_urls "T" Sample.program
              (InMemory.world Sample.tools 8 "") Sample.T eq_refl eq_refl)
    as [Hrun _].
  rewrite Hrun. reflexivity.
Defined.

Lemma override_replaces_declared_keys_only_witness :
  addOrReplaceParameter (VQLEnv.mk "Glob" "/home/*") Sample.env =
  [VQLEnv.mk "Glob" "/home/*"; VQLEnv.mk "Depth" "2"; VQLEnv.mk "Glob" "/tmp/*"]
  /\ addOrReplaceParameter (VQLEnv.mk "Depth" "5") Sample.env =
     [VQLEnv.mk "Glob" "/etc/*"; VQLEnv.mk "Depth" "5";
      VQLEnv.mk "Glob" "/tmp/*"]
  /\ addOrReplaceParameter (VQLEnv.mk "Upload" "Y") Sample.env = Sample.env
  /\ nth_error
       (VQLCollectorArgs.Env
          (AddArtifactCollectorArgs Sample.config program_with_parameters
             request_with_overrides).2) 0 =
     Some (VQLEnv.mk "Glob" "/srv/*")
  /\ (AddArtifactCollectorArgs Sample.config program_with_parameters
        request_with_overrides).2 =
     (AddArtifactCollectorArgs Sample.config program_with_parameters
        (InMemory.request "C.1234" ["A"%string]
           (Some (ArtifactParameters.mk
                    [VQLEnv.mk "Glob" "/home/*"; VQLEnv.mk "Glob" "/srv/*"]))
           true false None)).2.
Proof.
  split; [|split; [|split]].
  - apply (proj1 (override_replaces_declared_keys_only
                    (VQLEnv.mk "Glob" "/home/*") Sample.env)
             [] (VQLEnv.mk "Glob" "/etc/*")
             [VQLEnv.mk "Depth" "2"; VQLEnv.mk "Glob" "/tmp/*"]).
    + reflexivity.
    + reflexivity.
    + intros e [].
  - apply (proj1 (override_replaces_declared_keys_only
                    (VQLEnv.mk "Depth" "5") Sample.env)
             [VQLEnv.mk "Glob" "/etc/*"] (VQLEnv.mk "Depth" "2")
             [VQLEnv.mk "Glob" "/tmp/*"]).
    + reflexivity.
    + reflexivity.
    + intros e [<-|[]]. discriminate.
  - apply (proj1 (proj2 (override_replaces_declared_keys_only
                           (VQLEnv.mk "Upload" "Y") Sample.env))).
    intros e [<-|[<-|[<-|[]]]]; discriminate.
  - destruct (proj2 (proj2 (proj2 (proj2
                (override_replaces_declared_keys_only
                   (VQLEnv.mk "Glob" "/srv/*") Sample.env))))
                Sample.config program_with_parameters request_with_overrides)
      as (_ & _ & Hrequest).
    destruct (Hrequest _ eq_refl) as (_ & Hreplaced & Hdropped).
    split.
    + apply (Hreplaced [] (VQLEnv.mk "Glob" "/etc/*")
               [VQLEnv.mk "Depth" "2"]
               [VQLEnv.mk "Glob" "/home/*"; VQLEnv.mk "Upload" "Y"]
               (VQLEnv.mk "Glob" "/srv/*") []).
      * reflexivity.
      * intros e [].
      * reflexivity.
      * reflexivity.
      * intros o [].
    + apply (Hdropped [VQLEnv.mk "Glob" "/home/*"] (VQLEnv.mk "Upload" "Y")
               [VQLEnv.mk "Glob" "/srv/*"]) with
        (parameters' :=
           ArtifactParameters.mk
             [VQLEnv.mk "Glob" "/home/*"; VQLEnv.mk "Glob" "/srv/*"]).
      * reflexivity.
      * intros e [<-|[<-|[]]]; discriminate.
      * reflexivity.
      * reflexivity.
Defined.

Lemma empty_client_id_rejected_witness :
  ScheduleArtifactCollectionFromCollectorArgs InMemory.services Sample.config
    Sample.request_without_client [Sample.program]
    (InMemory.world Sample.tools 8 "") =
  ((""%string, Some "Client id not provided."%string), [],
   InMemory.world Sample.tools 8 "")
  /\ queue_calls
       (events_of (ScheduleArtifactCollection InMemory.services Sample.config
                     "admin" Sample.repository Sample.request_without_client
                     (InMemory.world Sample.tools 8 ""))) = [].
Proof.
  destruct (empty_client_id_rejected InMemory.services Sample.config
              Sample.request_without_client eq_refl) as [Hfrom Hschedule].
  split; [apply Hfrom|].
  destruct (Hschedule "admin"%string Sample.repository
              (InMemory.world Sample.tools 8 "")) as (_ & _ & Hevents).
  apply queue_calls_not_datastore, Hevents.
Defined.

Lemma session_stored_before_tasks_witness :
  queue_calls
    (events_of (ScheduleArtifactCollectionFromCollectorArgs InMemory.services
                  Sample.config Sample.request_with_program [Sample.program]
                  (InMemory.world Sample.tools 0 "F.TEST"))) = []
  /\ session_stored_first InMemory.services
       (events_of (ScheduleArtifactCollection InMemory.services Sample.config
                     "admin" Sample.repository (Sample.request ["A"%string])
                     (InMemory.world Sample.tools 8 "F.TEST"))).
Proof.
  split.
  - apply (proj2 (proj1 (session_stored_before_tasks InMemory.services
                           Sample.config "admin" Sample.repository
                           Sample.request_with_program [Sample.program]
                           (InMemory.world Sample.tools 0 "F.TEST")))).
    eexists _, _. vm_compute. right. left. reflexivity.
  - apply (proj2 (session_stored_before_tasks InMemory.services
                    Sample.config "admin" Sample.repository
                    (Sample.request ["A"%string]) []
                    (InMemory.world Sample.tools 8 "F.TEST"))).
Defined.


Lemma custom_override_precedence_witness :
  let run (allow : bool) (principal : string) :=
    CompileCollectorArgs InMemory.services Sample.config principal
      Sample.repository
      (InMemory.request "C.1234" ["Known"; "X"]%string None allow false None)
      (InMemory.world Sample.tools 8 "") in
  nth_error (compiled_artifacts (events_of (run true "admin"))) 1 =
    Some Sample.CustomX
  /\ nth_error (compiled_artifacts (events_of (run false "admin"))) 1 =
       Some Sample.X
  /\ resolve Sample.repository
       (InMemory.request "C.1234" ["Known"; "X"]%string None true false None)
       "X" = Some Sample.CustomX.
Proof.
  cbv zeta. split; [|split].
  - edestruct (custom_override_precedence InMemory.services Sample.config
                 "admin" Sample.repository
                 (InMemory.request "C.1234" ["Known"; "X"]%string None true
                    false None)
                 (InMemory.world Sample.tools 8 ""))
      with (X := "X"%string) (pre := ["Known"%string]) (post := @nil string)
           (artifact := Sample.CustomX)
           (lookups := [RepoGet "Custom.X"])
      as (_ & _ & _ & Hprogram).
    + reflexivity.
    + vm_compute. reflexivity.
    + left. repeat split; reflexivity.
    + edestruct Hprogram as [_ Hplace]; [vm_compute; reflexivity|].
      exact Hplace.
  - edestruct (custom_override_precedence InMemory.services Sample.config
                 "admin" Sample.repository
                 (InMemory.request "C.1234" ["Known"; "X"]%string None false
                    false None)
                 (InMemory.world Sample.tools 8 ""))
      with (X := "X"%string) (pre := ["Known"%string]) (post := @nil string)
           (artifact := Sample.X)
           (lookups := [RepoGet "X"])
      as (_ & _ & _ & Hprogram).
    + reflexivity.
    + vm_compute. reflexivity.
    + right. left. repeat split; reflexivity.
    + edestruct Hprogram as [_ Hplace]; [vm_compute; reflexivity|].
      exact Hplace.
  - edestruct (custom_override_precedence InMemory.services Sample.config
                 "admin" Sample.repository
                 (InMemory.request "C.1234" ["Known"; "X"]%string None true
                    false None)
                 (InMemory.world Sample.tools 8 ""))
      with (X := "X"%string) (pre := ["Known"%string]) (post := @nil string)
           (artifact := Sample.CustomX)
           (lookups := [RepoGet "Custom.X"])
      as (Hresolve & _).
    + reflexivity.
    + vm_compute. reflexivity.
    + left. repeat split; reflexivity.
    + exact Hresolve.
Defined.





(** ** Runs on the sample data *)

(** The test vectors of RFC 4648 for the base 32 encoding with the extended
    hex alphabet, on the bytes of "f", "foo" and "foobar". *)
Example EncodeToString_rfc4648 :
  map EncodeToString [[102]; [102; 111; 111]; [102; 111; 111; 98; 97; 114]] =
  ["CO======"; "CPNMU==="; "CPNMUOJ1E8======"]%string.
Proof. reflexivity. Qed.

(** The identifier set for tests is used once and cleared; otherwise the
    identifier is the prefix followed by 13 characters. *)
Example NewFlowId_for_tests :
  NewFlowId InMemory.services "C.1234" (InMemory.world ∅ 8 "F.TEST") =
  ("F.TEST"%string, [], InMemory.world ∅ 8 "")
  /\ String.length
       (result_of (NewFlowId InMemory.services "C.1234"
                     (InMemory.world ∅ 8 ""))) = 15%nat.
Proof. split; vm_compute; reflexivity. Qed.

(** An urgent request for one artifact without tools: one session, one
    urgent task queued, and the list of exactly that task stored last. *)
Example ScheduleArtifactCollection_one_artifact :
  let r := ScheduleArtifactCollection InMemory.services Sample.config "admin"
             Sample.repository (Sample.request ["X"%string])
             (InMemory.world ∅ 8 "F.TEST") in
  exists task,
    result_of r = ("F.TEST"%string, None)
    /\ enqueued (events_of r) = [task]
    /\ GrrMessage.Urgent task = true
    /\ GrrMessage.SessionId task = "F.TEST"%string
    /\ last (events_of r) =
       Some (DbSetSubject "/clients/C.1234/collections/F.TEST/task"
               (SubjectRequestDetails [task]) true).
Proof.
  cbv zeta. eexists. split; [vm_compute; reflexivity|].
  split; [vm_compute; reflexivity|]. repeat split.
Qed.

(** * The further properties on the sample data *)

Lemma compiled_only_with_access_witness :
  compiled_artifacts
    (events_of (CompileCollectorArgs InMemory.services Sample.config "guest"
                  Sample.repository (Sample.request ["Known"; "A"]%string)
                  (InMemory.world ∅ 8 ""))) = [].
Proof.
  destruct (compiled_artifacts _) as [|artifact rest] eqn:Hcompiled;
    [reflexivity|].
  destruct (compiled_only_with_access InMemory.services Sample.config "guest"
              Sample.repository (Sample.request ["Known"; "A"]%string)
              (InMemory.world ∅ 8 "")) as [Haccess _].
  destruct (Haccess artifact) as [Hgranted _].
  - rewrite Hcompiled. left. reflexivity.
  - discriminate Hgranted.
Defined.

Lemma CompileCollectorArgs_stops_at_first_error_witness :
  let r := CompileCollectorArgs InMemory.services Sample.config "admin"
             Sample.repository
             (Sample.request ["Known"; "Missing"; "A"]%string)
             (InMemory.world ∅ 8 "") in
  result_of r = CompiledNil "Unknown artifact Missing"
  /\ ~ In (RepoGet "A") (events_of r).
Proof.
  cbv zeta.
  edestruct (CompileCollectorArgs_stops_at_first_error InMemory.services)
    with (config_obj := Sample.config)
         (principal := "admin"%string) (repository := Sample.repository)
         (collector_request := Sample.request ["Known"; "Missing"; "A"]%string)
         (w := InMemory.world ∅ 8 "") (pre := ["Known"%string])
         (post := ["A"%string]) (x := "Missing"%string)
    as [Hrun Hgets].
  - reflexivity.
  - vm_compute. reflexivity.
  - vm_compute. reflexivity.
  - rewrite Hrun. split; [reflexivity|].
    unfold events_of. cbn [fst snd]. intros Hin.
    destruct (Hgets _ Hin) as (name & [<-|[<-|[]]] & [Heq|Heq]);
      discriminate Heq.
Defined.

Lemma EnsureToolsDeclared_known_tools_witness :
  EnsureToolsDeclared InMemory.services Sample.config Sample.Known
    (InMemory.world {["T"%string := T_of_admin]} 8 "") =
  (None, [InvGetToolInfo "T"],
   InMemory.world {["T"%string := T_of_admin]} 8 "").
Proof.
  apply (EnsureToolsDeclared_known_tools InMemory.services Sample.config
           Sample.Known (InMemory.world {["T"%string := T_of_admin]} 8 "")).
  intros tool [<-|[]]. exists T_of_admin. reflexivity.
Defined.

Lemma EnsureToolsDeclared_registration_error_witness :
  EnsureToolsDeclared read_only_services Sample.config Sample.Known
    (InMemory.world ∅ 8 "") =
  (Some "inventory is read only"%string,
   [InvGetToolInfo "T"; InvAddTool Sample.T], InMemory.world ∅ 8 "").
Proof.
  apply (EnsureToolsDeclared_registration_error read_only_services
           Sample.config Sample.Known (InMemory.world ∅ 8 "") [] []
           Sample.T "Tool not found" "inventory is read only" ∅).
  - reflexivity.
  - intros t [].
  - reflexivity.
  - reflexivity.
Defined.

Lemma known_descriptor_survives_compilation_witness :
  GetToolInfo InMemory.services Sample.config "T"
    (inventory
       (world_of (CompileCollectorArgs InMemory.services Sample.config "admin"
                    Sample.repository (Sample.request ["Known"%string])
                    (InMemory.world {["T"%string := T_of_admin]} 8 ""))))
  = inl T_of_admin.
Proof.
  apply (known_descriptor_survives_compilation InMemory.services).
  - intros tool i err i' other [= _ <-] Hother. cbn.
    rewrite lookup_insert_ne by congruence. reflexivity.
  - reflexivity.
Defined.

Lemma getDependentTools_unknown_tool_witness :
  result_of (getDependentTools InMemory.services Sample.config
               program_with_tools (InMemory.world Sample.tools 8 "")) =
  (Some "Tool not found"%string,
   VQLCollectorArgs.with_Env
     [VQLEnv.mk "Glob" "/etc/*"; VQLEnv.mk "Tool_T_HASH" "sha256:T";
      VQLEnv.mk "Tool_T_FILENAME" "T.exe";
      VQLEnv.mk "Tool_T_URL"
        "https://velociraptor.example:8000/public/tools/T"]
     program_with_tools).
Proof.
  destruct (getDependentTools_unknown_tool InMemory.services Sample.config
              program_with_tools (InMemory.world Sample.tools 8 "")
              "https://velociraptor.example:8000/" [] ["T"%string]
              ["V"%string] "U" "Tool not found") as [Hrun _].
  - reflexivity.
  - reflexivity.
  - intros t [<-|[]]. exists Sample.T. reflexivity.
  - reflexivity.
  - rewrite Hrun. reflexivity.
Defined.

Lemma CompileCollectorArgs_limits_witness :
  exists program,
    result_of (CompileCollectorArgs InMemory.services Sample.config "admin"
                 Sample.repository (Sample.request ["A"; "X"]%string)
                 (InMemory.world Sample.tools 8 "")) =
    CompiledArgs program None
    /\ VQLCollectorArgs.MaxRow program = 1000
    /\ VQLCollectorArgs.OpsPerSecond program =
       ArtifactCollectorArgs.OpsPerSecond (Sample.request ["A"; "X"]%string)
    /\ VQLCollectorArgs.Timeout program =
       ArtifactCollectorArgs.Timeout (Sample.request ["A"; "X"]%string).
Proof.
  eexists. split; [vm_compute; reflexivity|].
  eapply (CompileCollectorArgs_limits InMemory.services Sample.config "admin"
            Sample.repository (Sample.request ["A"; "X"]%string)
            (InMemory.world Sample.tools 8 "")).
  - intros artifact args args' [= <-]. reflexivity.
  - intros args args' [= <-]. reflexivity.
  - intros args. reflexivity.
  - vm_compute. reflexivity.
Defined.

Lemma overrides_compose_witness :
  addOrReplaceParameter (VQLEnv.mk "Glob" "/srv/*")
    (addOrReplaceParameter (VQLEnv.mk "Glob" "/home/*") Sample.env) =
  [VQLEnv.mk "Glob" "/srv/*"; VQLEnv.mk "Depth" "2"; VQLEnv.mk "Glob" "/tmp/*"]
  /\ addOrReplaceParameter (VQLEnv.mk "Depth" "5")
       (addOrReplaceParameter (VQLEnv.mk "Glob" "/home/*") Sample.env) =
     [VQLEnv.mk "Glob" "/home/*"; VQLEnv.mk "Depth" "5";
      VQLEnv.mk "Glob" "/tmp/*"].
Proof.
  split.
  - rewrite (proj1 (overrides_compose (VQLEnv.mk "Glob" "/home/*")
                      (VQLEnv.mk "Glob" "/srv/*") Sample.env) eq_refl).
    reflexivity.
  - rewrite (proj2 (overrides_compose (VQLEnv.mk "Glob" "/home/*")
                      (VQLEnv.mk "Depth" "5") Sample.env)).
    + reflexivity.
    + discriminate.
Defined.

Lemma overrides_last_value_per_key_witness :
  VQLCollectorArgs.Env
    (AddArtifactCollectorArgs Sample.config program_with_parameters
       request_with_overrides).2 =
  [VQLEnv.mk "Glob" "/srv/*"; VQLEnv.mk "Depth" "2"].
Proof.
  rewrite (overrides_last_value_per_key Sample.config program_with_parameters
             request_with_overrides
             (ArtifactParameters.mk
                [VQLEnv.mk "Glob" "/home/*"; VQLEnv.mk "Upload" "Y";
                 VQLEnv.mk "Glob" "/srv/*"])).
  - reflexivity.
  - reflexivity.
  - apply (bool_decide_unpack _). vm_compute. exact I.
Defined.

Lemma schedule_success_calls_witness :
  let r := ScheduleArtifactCollectionFromCollectorArgs InMemory.services
             Sample.config Sample.request_with_program [Sample.program]
             (InMemory.world ∅ 8 "F.TEST") in
  length (events_of r) = 4%nat
  /\ enqueued (events_of r) =
     [GrrMessage.mk (result_of r).1 1 Sample.program false].
Proof.
  cbv zeta.
  destruct (schedule_success_calls InMemory.services Sample.config
              Sample.request_with_program [Sample.program]
              (InMemory.world ∅ 8 "F.TEST"))
    as (ctx & _ & Hresult & _ & _ & _ & Hevents).
  - vm_compute. reflexivity.
  - rewrite Hevents, Hresult. split; reflexivity.
Defined.

Lemma queue_failure_keeps_earlier_tasks_witness :
  let r := ScheduleArtifactCollectionFromCollectorArgs InMemory.services
             Sample.config Sample.request_with_program
             [Sample.program; program_with_parameters]
             (InMemory.world ∅ 2 "F.TEST") in
  (exists e, result_of r = (""%string, Some e))
  /\ ~ (exists path tasks ok,
          In (DbSetSubject path (SubjectRequestDetails tasks) ok)
             (events_of r)).
Proof.
  cbv zeta.
  destruct (queue_failure_keeps_earlier_tasks InMemory.services Sample.config
              Sample.request_with_program
              [Sample.program; program_with_parameters]
              (InMemory.world ∅ 2 "F.TEST") "C.1234"
              (GrrMessage.mk "F.TEST" 1 program_with_parameters false))
    as (e & ctx & done & rest & Hresult & _ & _ & _ & _ & Hnever).
  - vm_compute. do 3 right. left. reflexivity.
  - split; [exists e; exact Hresult|].
    intros (path & tasks & ok & Hin). exact (Hnever path tasks ok Hin).
Defined.

Lemma compile_error_schedules_nothing_witness :
  let r := ScheduleArtifactCollection InMemory.services Sample.config "admin"
             Sample.repository (Sample.request ["Missing"%string])
             (InMemory.world ∅ 8 "F.TEST") in
  result_of r = (""%string, Some "Unknown artifact Missing"%string)
  /\ NextFlowIdForTests (world_of r) = "F.TEST"%string.
Proof.
  cbv zeta.
  destruct (compile_error_schedules_nothing InMemory.services Sample.config
              "admin" Sample.repository (Sample.request ["Missing"%string])
              (InMemory.world ∅ 8 "F.TEST") "Unknown artifact Missing")
    as (Hrun & _ & _ & _ & Hnext).
  - reflexivity.
  - left. vm_compute. reflexivity.
  - rewrite Hrun. split; [reflexivity | exact Hnext].
Defined.

Lemma fresh_compilation_schedules_one_task_witness :
  exists program,
    map GrrMessage.VQLClientAction
      (enqueued
         (events_of (ScheduleArtifactCollection InMemory.services
                       Sample.config "admin" Sample.repository
                       (Sample.request ["X"%string])
                       (InMemory.world ∅ 8 "F.TEST")))) = [program]
    /\ VQLCollectorArgs.Query program =
       [VQLRequest.mk "Custom.X" "SELECT 2 FROM scope()"].
Proof.
  edestruct (fresh_compilation_schedules_one_task InMemory.services
               Sample.config "admin" Sample.repository
               (Sample.request ["X"%string]) (InMemory.world ∅ 8 "F.TEST"))
    as (_ & _ & Hall).
  - reflexivity.
  - vm_compute. reflexivity.
  - eexists. split; [apply Hall; vm_compute; reflexivity | reflexivity].
Defined.

Lemma NewFlowId_fresh_format_witness :
  exists code,
    result_of (NewFlowId InMemory.services "C.1234" (InMemory.world ∅ 8 "")) =
    ("F." +:+ code)%string
    /\ String.length code = 13%nat.
Proof.
  destruct (NewFlowId_fresh_format InMemory.services "C.1234"
              (InMemory.world ∅ 8 "") eq_refl)
    as (code & Hresult & Hlength & _).
  exists code. split; [exact Hresult | exact Hlength].
Defined.

Lemma flow_code_injective_witness :
  PutUint32 [0; 0; 0; 0; 7; 7; 7; 7] 1600000000 = [95; 94; 16; 0; 7; 7; 7; 7].
Proof.
  apply flow_code_injective.
  - reflexivity.
  - reflexivity.
  - vm_compute. repeat constructor; discriminate.
  - repeat constructor; discriminate.
  - vm_compute. reflexivity.
Defined.

Lemma NewFlowId_same_id_same_second_witness :
  creation_second InMemory.services (os (InMemory.world ∅ 8 "")) =
  creation_second InMemory.services (os (InMemory.world Sample.tools 3 "")).
Proof.
  apply (NewFlowId_same_id_same_second InMemory.services "C.1234" "C.5678"
           (InMemory.world ∅ 8 "") (InMemory.world Sample.tools 3 "")).
  - reflexivity.
  - reflexivity.
  - vm_compute. reflexivity.
Defined.

Lemma forced_id_is_used_once_witness :
  let r := ScheduleArtifactCollectionFromCollectorArgs InMemory.services
             Sample.config Sample.request_with_program [Sample.program]
             (InMemory.world ∅ 8 "F.TEST") in
  NextFlowIdForTests (world_of r) = ""%string
  /\ (result_of r).1 = "F.TEST"%string.
Proof.
  cbv zeta.
  destruct (forced_id_is_used_once InMemory.services Sample.config
              Sample.request_with_program [Sample.program]
              (InMemory.world ∅ 8 "F.TEST"))
    as (Hnext & _ & _ & Hid & _).
  - discriminate.
  - discriminate.
  - split; [exact Hnext|]. apply Hid. vm_compute. reflexivity.
Defined.

Lemma EnsureToolsDeclared_declares_all_witness :
  exists tool_info,
    GetToolInfo InMemory.services Sample.config "T"
      (inventory
         (world_of (EnsureToolsDeclared InMemory.services Sample.config
                      Sample.Known (InMemory.world ∅ 8 ""))))
    = inl tool_info.
Proof.
  apply (EnsureToolsDeclared_declares_all InMemory.services Sample.config
           Sample.Known (InMemory.world ∅ 8 "")) with (tool := Sample.T).
  - intros tool i i' [= <-]. exists tool. cbn.
    rewrite lookup_insert_eq. reflexivity.
  - intros tool i err i' other [= _ <-] Hother. cbn.
    rewrite lookup_insert_ne by congruence. reflexivity.
  - reflexivity.
  - left. reflexivity.
Defined.

Lemma server_urls_needed_for_tools_only_witness :
  (exists program,
     result_of (CompileCollectorArgs InMemory.services
                  Sample.config_without_urls "admin" Sample.repository
                  (Sample.request ["X"%string])
                  (InMemory.world Sample.tools 8 "")) =
     CompiledArgs program None)
  /\ result_of (CompileCollectorArgs InMemory.services
                  Sample.config_without_urls "admin" Sample.repository
                  (Sample.request ["A"%string])
                  (InMemory.world Sample.tools 8 "")) =
     CompiledNil "No server URLs configured!".
Proof.
  split.
  - edestruct (server_urls_needed_for_tools_only InMemory.services
                 Sample.config_without_urls "admin" Sample.repository
                 (Sample.request ["X"%string])
                 (InMemory.world Sample.tools 8 "")) as [Hnone _].
    + vm_compute. reflexivity.
    + rewrite Hnone by reflexivity. eexists. reflexivity.
  - edestruct (server_urls_needed_for_tools_only InMemory.services
                 Sample.config_without_urls "admin" Sample.repository
                 (Sample.request ["A"%string])
                 (InMemory.world Sample.tools 8 "")) as [_ Hurls].
    + vm_compute. reflexivity.
    + rewrite (Hurls eq_refl "T"%string [] Sample.T eq_refl eq_refl).
      reflexivity.
Defined.
